(** * Isolation subsystem of the FreeRTOS container extension

    A shallow embedding of the PID-namespace controller, the IPC-namespace
    access check, the cgroup CPU accounting, the container manager's
    create path and the container image codec, together with the
    properties the specification states about them.

    Conventions.
    - [UBaseType_t], [BaseType_t] and [TickType_t] values are integers in
      [Z]; where the C code can wrap, the wrap-around is written out with
      [wrapU].  The width of these types comes from [portmacro.h], which
      is not part of the sources at hand, so it is a parameter [ubits].
    - Opaque pointers ([TaskHandle_t], [void *] IPC objects) are [Z] with
      [NULL = 0].
    - A handle to a slot of a static table is [option nat]: [None] is
      [NULL], [Some i] is the address of slot [i]. *)

From Stdlib Require Import ZArith List Bool Lia String Ascii.
From stdpp Require Import base gmap strings list.

Open Scope Z_scope.

(** ** Common FreeRTOS definitions *)

Definition BaseType_t := Z.
Definition pdFALSE : BaseType_t := 0.
Definition pdTRUE : BaseType_t := 1.
Definition pdPASS : BaseType_t := pdTRUE.
Definition pdFAIL : BaseType_t := pdFALSE.

Definition TaskHandle_t := Z.
Definition NULL : Z := 0.

(** Unsigned arithmetic on a [ubits]-bit word. *)
Definition wrapU (ubits : Z) (x : Z) : Z := x mod 2 ^ ubits.

(** The value of [x] as a signed [ubits]-bit word (two's complement): what
    an argument becomes when it is passed as a [BaseType_t]. *)
Definition wrapS (ubits : Z) (x : Z) : Z :=
  (x + 2 ^ (ubits - 1)) mod 2 ^ ubits - 2 ^ (ubits - 1).

(** [(1U << ux)] *)
Definition bit (ux : nat) : Z := Z.shiftl 1 (Z.of_nat ux).


(** ** PID namespace controller (pid_namespace.c, pid_namespace.h) *)

Module PidNs.

Definition configMAX_PID_NAMESPACES : nat := 4.
Definition configMAX_PID_NAMESPACE_NAME_LEN : nat := 16.
Definition configPID_NAMESPACE_MAX_PID : nat := 10.

(** [errCOULD_NOT_ALLOCATE_REQUIRED_MEMORY], the failure code of [xTaskCreate]. *)
Definition errCOULD_NOT_ALLOCATE_REQUIRED_MEMORY : BaseType_t := -1.

Definition PidNamespaceHandle_t := option nat.

Record PidNamespace_t := mkPidNamespace {
  pcNamespaceName : string;
  ulNamespaceId : Z;
  ulNextPid : Z;
  ulMaxPid : Z;
  xTasks : list TaskHandle_t;
  uxTaskCount : Z;
  xActive : BaseType_t }.

(** The two fields the port adds to the task control block. *)
Record Tcb := mkTcb {
  pxPidNamespace : PidNamespaceHandle_t;
  uxVirtualPid : Z }.

(** The file-scope variables of pid_namespace.c, and the control blocks of
    the tasks the kernel currently holds. *)
Record state := mkState {
  xPidNamespaces : list PidNamespace_t;
  uxNamespaceBitmap : Z;
  xRootNamespace : PidNamespaceHandle_t;
  ulNextNamespaceId : Z;
  xTcbs : gmap Z Tcb }.

Definition set_slots (st : state) (l : list PidNamespace_t) : state :=
  mkState l (uxNamespaceBitmap st) (xRootNamespace st) (ulNextNamespaceId st) (xTcbs st).
Definition set_bitmap (st : state) (b : Z) : state :=
  mkState (xPidNamespaces st) b (xRootNamespace st) (ulNextNamespaceId st) (xTcbs st).
Definition set_root (st : state) (r : PidNamespaceHandle_t) : state :=
  mkState (xPidNamespaces st) (uxNamespaceBitmap st) r (ulNextNamespaceId st) (xTcbs st).
Definition set_next_id (st : state) (n : Z) : state :=
  mkState (xPidNamespaces st) (uxNamespaceBitmap st) (xRootNamespace st) n (xTcbs st).
Definition set_tcbs (st : state) (m : gmap Z Tcb) : state :=
  mkState (xPidNamespaces st) (uxNamespaceBitmap st) (xRootNamespace st) (ulNextNamespaceId st) m.

Definition set_next_pid (ns : PidNamespace_t) (p : Z) : PidNamespace_t :=
  mkPidNamespace (pcNamespaceName ns) (ulNamespaceId ns) p (ulMaxPid ns)
    (xTasks ns) (uxTaskCount ns) (xActive ns).
Definition set_task_count (ns : PidNamespace_t) (c : Z) : PidNamespace_t :=
  mkPidNamespace (pcNamespaceName ns) (ulNamespaceId ns) (ulNextPid ns) (ulMaxPid ns)
    (xTasks ns) c (xActive ns).
Definition set_active (ns : PidNamespace_t) (a : BaseType_t) : PidNamespace_t :=
  mkPidNamespace (pcNamespaceName ns) (ulNamespaceId ns) (ulNextPid ns) (ulMaxPid ns)
    (xTasks ns) (uxTaskCount ns) a.

(** *** Task control block accessors

    The accessors of the two fields and the kernel's task creation and
    deletion live in tasks.c, which is not among the sources. *)

(** Modelled from the spec: [pvTaskGetPidNamespace] of tasks.c is missing.
    A per-task field stores the owning namespace pointer; it is null for a
    task bound to no namespace. *)
Definition pvTaskGetPidNamespace (st : state) (xTask : TaskHandle_t) : PidNamespaceHandle_t :=
  match xTcbs st !! xTask with
  | Some tcb => pxPidNamespace tcb
  | None => None
  end.

(** Modelled from the spec: [uxTaskGetVirtualPid] of tasks.c is missing.
    A per-task field stores the allocated virtual PID; 0 stands for none. *)
Definition uxTaskGetVirtualPid (st : state) (xTask : TaskHandle_t) : Z :=
  match xTcbs st !! xTask with
  | Some tcb => uxVirtualPid tcb
  | None => 0
  end.

(** Modelled from the spec: [xTaskSetPidNamespace] of tasks.c is missing.
    It stores both fields in the control block of an existing task, and is
    called with null and 0 to clear them on removal. *)
Definition xTaskSetPidNamespace (st : state) (xTask : TaskHandle_t)
    (xNamespace : PidNamespaceHandle_t) (ulVirtualPid : Z) : BaseType_t * state :=
  match xTcbs st !! xTask with
  | Some _ => (pdPASS, set_tcbs st (<[xTask := mkTcb xNamespace ulVirtualPid]> (xTcbs st)))
  | None => (pdFAIL, st)
  end.

(** Modelled from the spec: [xTaskCreate] of tasks.c is missing.  The
    task-local fields are created with the task: the kernel either has no
    memory for a control block ([pxNew = None]) or allocates one at address
    [t], with cleared fields. *)
Definition xTaskCreate (st : state) (pxNew : option TaskHandle_t)
  : BaseType_t * TaskHandle_t * state :=
  match pxNew with
  | None => (errCOULD_NOT_ALLOCATE_REQUIRED_MEMORY, NULL, st)
  | Some t => (pdPASS, t, set_tcbs st (<[t := mkTcb None 0]> (xTcbs st)))
  end.

(** Modelled from the spec: [vTaskDelete] of tasks.c is missing.  The
    task-local fields are destroyed with the task; the delete hook that
    unbinds the task first is [prvPidNamespaceTaskDelete] below. *)
Definition vTaskDelete (st : state) (xTask : TaskHandle_t) : state :=
  set_tcbs st (delete xTask (xTcbs st)).

(** A task exists as long as the kernel holds its control block. *)
Definition task_exists (st : state) (xTask : TaskHandle_t) : bool :=
  bool_decide (is_Some (xTcbs st !! xTask)).

(** *** Private functions *)

Section WithWord.
Variable ubits : Z.

(** The loop of [prvFindFreeNamespaceSlot], from [ux] over [n] more slots. *)
Fixpoint prvFindFreeNamespaceSlot_from (bitmap : Z) (ux n : nat) : option nat :=
  match n with
  | O => None
  | S n' =>
      if Z.land bitmap (bit ux) =? 0 then Some ux
      else prvFindFreeNamespaceSlot_from bitmap (S ux) n'
  end.

Definition prvFindFreeNamespaceSlot (st : state) : option nat :=
  prvFindFreeNamespaceSlot_from (uxNamespaceBitmap st) 0 configMAX_PID_NAMESPACES.

(** Returns the allocated PID (0 on exhaustion) and the updated namespace. *)
Definition prvAllocateVirtualPid (pxNamespace : PidNamespace_t) : Z * PidNamespace_t :=
  if ulNextPid pxNamespace >? ulMaxPid pxNamespace then (0, pxNamespace)
  else (ulNextPid pxNamespace,
        set_next_pid pxNamespace (wrapU ubits (ulNextPid pxNamespace + 1))).

(** The name copy: at most [configMAX_PID_NAMESPACE_NAME_LEN - 1] characters;
    a null [pcName] gives the empty name. *)
Definition copy_name (pcName : option string) : string :=
  match pcName with
  | Some s =>
      if (configMAX_PID_NAMESPACE_NAME_LEN <=? String.length s)%nat
      then substring 0 (configMAX_PID_NAMESPACE_NAME_LEN - 1) s
      else s
  | None => EmptyString
  end.

Definition prvInitializeNamespace (st : state) (uxSlot : nat) (pcName : option string) : state :=
  let ns := mkPidNamespace (copy_name pcName) (ulNextNamespaceId st) 1
              (Z.of_nat configPID_NAMESPACE_MAX_PID)
              (replicate configPID_NAMESPACE_MAX_PID NULL) 0 pdTRUE in
  set_slots (set_next_id st (wrapU ubits (ulNextNamespaceId st + 1)))
            (<[uxSlot := ns]> (xPidNamespaces st)).

(** *** Public functions *)

Definition xPidNamespaceCreate (st : state) (pcNamespaceName : option string)
  : PidNamespaceHandle_t * state :=
  match prvFindFreeNamespaceSlot st with
  | None => (None, st)
  | Some uxSlot =>
      let st1 := prvInitializeNamespace st uxSlot pcNamespaceName in
      (Some uxSlot, set_bitmap st1 (Z.lor (uxNamespaceBitmap st1) (bit uxSlot)))
  end.

Definition prvPidNamespaceInit (st : state) : state :=
  let st1 := set_slots st (map (fun ns => set_active ns pdFALSE) (xPidNamespaces st)) in
  let st2 := set_next_id (set_bitmap st1 0) 1 in
  let '(h, st3) := xPidNamespaceCreate st2 (Some "root"%string) in
  set_root st3 h.

(** A handle that is not the address of a slot cannot be dereferenced; the
    functions below fail on it without touching the state. *)
Definition xPidNamespaceDelete (st : state) (xNamespace : PidNamespaceHandle_t)
  : BaseType_t * state :=
  match xNamespace with
  | None => (pdFAIL, st)
  | Some ux =>
      match xPidNamespaces st !! ux with
      | None => (pdFAIL, st)
      | Some pxNamespace =>
          if xActive pxNamespace =? pdFALSE then (pdFAIL, st)
          else if uxTaskCount pxNamespace >? 0 then (pdFAIL, st)
          else
            (* the loop stops at the one [ux] with [&xPidNamespaces[ux] == pxNamespace] *)
            (pdPASS,
             set_bitmap
               (set_slots st (<[ux := set_active pxNamespace pdFALSE]> (xPidNamespaces st)))
               (Z.land (uxNamespaceBitmap st) (Z.lnot (bit ux))))
      end
  end.

Definition xPidNamespaceAddTask (st : state) (xNamespace : PidNamespaceHandle_t)
    (xTask : TaskHandle_t) : BaseType_t * state :=
  match xNamespace with
  | None => (pdFAIL, st)
  | Some ux =>
      match xPidNamespaces st !! ux with
      | None => (pdFAIL, st)
      | Some pxNamespace =>
          if (xTask =? NULL) || (xActive pxNamespace =? pdFALSE) then (pdFAIL, st)
          else
            match pvTaskGetPidNamespace st xTask with
            | Some _ => (pdFAIL, st)
            | None =>
                let '(ulVirtualPid, ns1) := prvAllocateVirtualPid pxNamespace in
                if ulVirtualPid =? 0 then (pdFAIL, st)
                else
                  let st1 := set_slots st (<[ux := ns1]> (xPidNamespaces st)) in
                  let '(r, st2) := xTaskSetPidNamespace st1 xTask xNamespace ulVirtualPid in
                  if r =? pdPASS then
                    (pdPASS,
                     set_slots st2
                       (<[ux := set_task_count ns1 (wrapU ubits (uxTaskCount ns1 + 1))]>
                          (xPidNamespaces st2)))
                  else (pdFAIL, st2)
            end
      end
  end.

Definition xPidNamespaceRemoveTask (st : state) (xNamespace : PidNamespaceHandle_t)
    (xTask : TaskHandle_t) : BaseType_t * state :=
  match xNamespace with
  | None => (pdFAIL, st)
  | Some ux =>
      if xTask =? NULL then (pdFAIL, st)
      else if bool_decide (pvTaskGetPidNamespace st xTask = xNamespace) then
        let '(r, st1) := xTaskSetPidNamespace st xTask None 0 in
        if r =? pdPASS then
          match xPidNamespaces st1 !! ux with
          | Some pxNamespace =>
              if uxTaskCount pxNamespace >? 0 then
                (pdPASS,
                 set_slots st1
                   (<[ux := set_task_count pxNamespace (uxTaskCount pxNamespace - 1)]>
                      (xPidNamespaces st1)))
              else (pdPASS, st1)
          | None => (pdPASS, st1)
          end
        else (pdFAIL, st1)
      else (pdFAIL, st)
  end.

Definition xPidNamespaceGetTaskVirtualPid (st : state) (xTask : TaskHandle_t) : Z :=
  if xTask =? NULL then 0 else uxTaskGetVirtualPid st xTask.

(** The scan of the namespace's task array: the first non-null entry whose
    virtual PID is the one looked for. *)
Fixpoint find_in_tasks (st : state) (tasks : list TaskHandle_t) (ulVirtualPid : Z)
  : TaskHandle_t :=
  match tasks with
  | [] => NULL
  | xTask :: rest =>
      if negb (xTask =? NULL) && (uxTaskGetVirtualPid st xTask =? ulVirtualPid)
      then xTask
      else find_in_tasks st rest ulVirtualPid
  end.

Definition xPidNamespaceFindTaskByVirtualPid (st : state)
    (xNamespace : PidNamespaceHandle_t) (ulVirtualPid : Z) : TaskHandle_t :=
  match xNamespace with
  | None => NULL
  | Some ux =>
      match xPidNamespaces st !! ux with
      | None => NULL
      | Some pxNamespace =>
          if (xActive pxNamespace =? pdFALSE) || (ulVirtualPid =? 0) then NULL
          else find_in_tasks st (take configPID_NAMESPACE_MAX_PID (xTasks pxNamespace))
                 ulVirtualPid
      end
  end.

Definition xPidNamespaceGetTaskNamespace (st : state) (xTask : TaskHandle_t)
  : PidNamespaceHandle_t :=
  if xTask =? NULL then None else pvTaskGetPidNamespace st xTask.

(** Returns the result, the value stored through [pxCreatedTask] and the new
    state.  [pxNew] is the outcome of the kernel's allocation in [xTaskCreate]. *)
Definition xTaskCreateInNamespace (st : state) (xNamespace : PidNamespaceHandle_t)
    (pxNew : option TaskHandle_t) : BaseType_t * option TaskHandle_t * state :=
  match xNamespace with
  | None => (pdFAIL, None, st)
  | Some _ =>
      let '(xResult, xNewTask, st1) := xTaskCreate st pxNew in
      if xResult =? pdPASS then
        let '(xResult2, st2) := xPidNamespaceAddTask st1 xNamespace xNewTask in
        if negb (xResult2 =? pdPASS) then
          (* the call of vTaskDelete(xNewTask) is commented out in the source *)
          (xResult2, Some NULL, st2)
        else (xResult2, Some xNewTask, st2)
      else (xResult, None, st1)
  end.

Definition prvPidNamespaceTaskDelete (st : state) (xTask : TaskHandle_t) : state :=
  if xTask =? NULL then st
  else
    match pvTaskGetPidNamespace st xTask with
    | Some ux => snd (xPidNamespaceRemoveTask st (Some ux) xTask)
    | None => st
    end.

Definition xPidNamespaceGetRoot (st : state) : PidNamespaceHandle_t := xRootNamespace st.

(** The values stored through [pulTaskCount], [pulNextPid] and [pulMaxPid],
    all three given. *)
Definition xPidNamespaceGetInfo (st : state) (xNamespace : PidNamespaceHandle_t)
  : BaseType_t * option (Z * Z * Z) :=
  match xNamespace with
  | None => (pdFAIL, None)
  | Some ux =>
      match xPidNamespaces st !! ux with
      | None => (pdFAIL, None)
      | Some pxNamespace =>
          if xActive pxNamespace =? pdFALSE then (pdFAIL, None)
          else (pdPASS, Some (uxTaskCount pxNamespace, ulNextPid pxNamespace,
                              ulMaxPid pxNamespace))
      end
  end.

End WithWord.

(** The statics as the C runtime zero-initialises them, before
    [prvPidNamespaceInit] runs, with the tasks [tcbs] present. *)
Definition zero_namespace : PidNamespace_t :=
  mkPidNamespace EmptyString 0 0 0 (replicate configPID_NAMESPACE_MAX_PID NULL) 0 0.

Definition boot_state (tcbs : gmap Z Tcb) : state :=
  mkState (replicate configMAX_PID_NAMESPACES zero_namespace) 0 None 1 tcbs.

(** *** Operations of the public interface, for reachability *)

Inductive op :=
| OpCreate (pcName : option string)
| OpDelete (xNamespace : PidNamespaceHandle_t)
| OpAddTask (xNamespace : PidNamespaceHandle_t) (xTask : TaskHandle_t)
| OpRemoveTask (xNamespace : PidNamespaceHandle_t) (xTask : TaskHandle_t)
| OpCreateInNamespace (xNamespace : PidNamespaceHandle_t) (pxNew : option TaskHandle_t)
| OpTaskCreate (pxNew : option TaskHandle_t)
| OpTaskDelete (xTask : TaskHandle_t).

Definition run_op (ubits : Z) (st : state) (o : op) : state :=
  match o with
  | OpCreate n => snd (xPidNamespaceCreate ubits st n)
  | OpDelete h => snd (xPidNamespaceDelete st h)
  | OpAddTask h t => snd (xPidNamespaceAddTask ubits st h t)
  | OpRemoveTask h t => snd (xPidNamespaceRemoveTask st h t)
  | OpCreateInNamespace h n => snd (xTaskCreateInNamespace ubits st h n)
  | OpTaskCreate n => snd (xTaskCreate st n)
  | OpTaskDelete t => vTaskDelete (prvPidNamespaceTaskDelete st t) t
  end.

Definition run_ops (ubits : Z) (st : state) (ops : list op) : state :=
  fold_left (run_op ubits) ops st.

End PidNs.

(** ** IPC namespace controller (ipc_namespace.c, ipc_namespace.h) *)

Module IpcNs.

Definition configMAX_IPC_NAMESPACES : nat := 4.
Definition configMAX_IPC_NAMESPACE_NAME_LEN : nat := 16.
Definition configMAX_IPC_OBJECTS_PER_NAMESPACE : nat := 32.

Definition uxMaxEntries : nat :=
  (configMAX_IPC_NAMESPACES * configMAX_IPC_OBJECTS_PER_NAMESPACE)%nat.

Inductive IpcObjectType_t :=
| IPC_TYPE_QUEUE
| IPC_TYPE_SEMAPHORE
| IPC_TYPE_MUTEX
| IPC_TYPE_EVENT_GROUP.

Definition IpcNamespaceHandle_t := option nat.

#[global] Instance IpcNamespaceHandle_eq_dec : EqDecision IpcNamespaceHandle_t.
Proof. unfold IpcNamespaceHandle_t. apply _. Defined.

Record IpcObjectEntry_t := mkEntry {
  pvIpcObject : Z;
  xObjectType : IpcObjectType_t;
  pcObjectName : string;
  ulObjectId : Z;
  xNamespace : IpcNamespaceHandle_t }.

(** [xObjectList] holds the indices of the namespace's entries, in the order
    of their object ids (the order [vListInsert] keeps). *)
Record IpcNamespace_t := mkIpcNamespace {
  pcNamespaceName : string;
  ulNamespaceId : Z;
  ulNextObjectId : Z;
  xObjectList : list nat;
  uxObjectCount : Z;
  xActive : BaseType_t }.

(** The file-scope variables of ipc_namespace.c, the IPC-namespace field of
    every task control block, and the running task. *)
Record state := mkState {
  xIpcNamespaces : list IpcNamespace_t;
  uxNamespaceBitmap : Z;
  xIpcObjectEntries : list IpcObjectEntry_t;
  uxObjectEntryCount : Z;
  xRootNamespace : IpcNamespaceHandle_t;
  ulNextNamespaceId : Z;
  xTaskIpcNamespace : gmap Z IpcNamespaceHandle_t;
  xCurrentTask : TaskHandle_t }.

Definition set_slots (st : state) (l : list IpcNamespace_t) : state :=
  mkState l (uxNamespaceBitmap st) (xIpcObjectEntries st) (uxObjectEntryCount st)
    (xRootNamespace st) (ulNextNamespaceId st) (xTaskIpcNamespace st) (xCurrentTask st).
Definition set_bitmap (st : state) (b : Z) : state :=
  mkState (xIpcNamespaces st) b (xIpcObjectEntries st) (uxObjectEntryCount st)
    (xRootNamespace st) (ulNextNamespaceId st) (xTaskIpcNamespace st) (xCurrentTask st).
Definition set_entries (st : state) (l : list IpcObjectEntry_t) (n : Z) : state :=
  mkState (xIpcNamespaces st) (uxNamespaceBitmap st) l n
    (xRootNamespace st) (ulNextNamespaceId st) (xTaskIpcNamespace st) (xCurrentTask st).
Definition set_root (st : state) (r : IpcNamespaceHandle_t) : state :=
  mkState (xIpcNamespaces st) (uxNamespaceBitmap st) (xIpcObjectEntries st)
    (uxObjectEntryCount st) r (ulNextNamespaceId st) (xTaskIpcNamespace st) (xCurrentTask st).
Definition set_next_id (st : state) (n : Z) : state :=
  mkState (xIpcNamespaces st) (uxNamespaceBitmap st) (xIpcObjectEntries st)
    (uxObjectEntryCount st) (xRootNamespace st) n (xTaskIpcNamespace st) (xCurrentTask st).
Definition set_tcbs (st : state) (m : gmap Z IpcNamespaceHandle_t) : state :=
  mkState (xIpcNamespaces st) (uxNamespaceBitmap st) (xIpcObjectEntries st)
    (uxObjectEntryCount st) (xRootNamespace st) (ulNextNamespaceId st) m (xCurrentTask st).

Definition set_active (ns : IpcNamespace_t) (a : BaseType_t) : IpcNamespace_t :=
  mkIpcNamespace (pcNamespaceName ns) (ulNamespaceId ns) (ulNextObjectId ns)
    (xObjectList ns) (uxObjectCount ns) a.

(** *** Task control block accessors

    The accessors of the IPC-namespace field live in tasks.c, which is not
    among the sources. *)

(** Modelled from the spec: [prvGetTCBFromHandle] of tasks.c is missing.
    Isolated constructors tag an object with the caller task's current IPC
    namespace, which the source obtains by passing a null task; a null task
    therefore stands for the running task. *)
Definition prvGetTCBFromHandle (st : state) (xTask : TaskHandle_t) : TaskHandle_t :=
  if xTask =? NULL then xCurrentTask st else xTask.

(** Modelled from the spec: [pvTaskGetIpcNamespace] of tasks.c is missing.
    The task-local state holds an IPC-namespace pointer, null for a task
    bound to no namespace. *)
Definition pvTaskGetIpcNamespace (st : state) (xTask : TaskHandle_t) : IpcNamespaceHandle_t :=
  match xTaskIpcNamespace st !! prvGetTCBFromHandle st xTask with
  | Some h => h
  | None => None
  end.

(** Modelled from the spec: [xTaskSetIpcNamespace] of tasks.c is missing.
    It stores the IPC-namespace pointer of the task. *)
Definition xTaskSetIpcNamespace (st : state) (xTask : TaskHandle_t)
    (xNs : IpcNamespaceHandle_t) : BaseType_t * state :=
  (pdPASS, set_tcbs st (<[prvGetTCBFromHandle st xTask := xNs]> (xTaskIpcNamespace st))).

Section WithWord.
Variable ubits : Z.
(** [configMAX_TASK_NAME_LEN] comes from FreeRTOSConfig.h. *)
Variable configMAX_TASK_NAME_LEN : nat.

(** *** Private functions *)

(** [prvStrcpy]: at most [xMaxLength - 1] characters of the source. *)
Definition prvStrcpy (pcSource : string) (xMaxLength : nat) : string :=
  substring 0 (xMaxLength - 1) pcSource.

Fixpoint prvFindFreeNamespaceSlot_from (bitmap : Z) (ux n : nat) : option nat :=
  match n with
  | O => None
  | S n' =>
      if Z.land bitmap (bit ux) =? 0 then Some ux
      else prvFindFreeNamespaceSlot_from bitmap (S ux) n'
  end.

Definition prvFindFreeNamespaceSlot (st : state) : option nat :=
  prvFindFreeNamespaceSlot_from (uxNamespaceBitmap st) 0 configMAX_IPC_NAMESPACES.

(** Index of the first entry of [l] that satisfies [p], counting from [ux]. *)
Fixpoint find_index_from {A} (p : A -> bool) (l : list A) (ux : nat) : option nat :=
  match l with
  | [] => None
  | x :: rest => if p x then Some ux else find_index_from p rest (S ux)
  end.

Definition prvFindFreeObjectEntry (st : state) : option nat :=
  find_index_from (fun e => pvIpcObject e =? NULL)
    (take uxMaxEntries (xIpcObjectEntries st)) 0.

Definition prvFindObjectEntry (st : state) (xNs : IpcNamespaceHandle_t)
    (pvObj : Z) : option nat :=
  find_index_from
    (fun e => bool_decide (xNamespace e = xNs) && (pvIpcObject e =? pvObj))
    (take uxMaxEntries (xIpcObjectEntries st)) 0.

Definition prvInitializeNamespace (st : state) (uxSlot : nat) (pcName : string) : state :=
  let ns := mkIpcNamespace (prvStrcpy pcName configMAX_IPC_NAMESPACE_NAME_LEN)
              (ulNextNamespaceId st) 1 [] 0 pdTRUE in
  set_slots (set_next_id st (wrapU ubits (ulNextNamespaceId st + 1)))
            (<[uxSlot := ns]> (xIpcNamespaces st)).

(** *** Public functions *)

Definition xIpcNamespaceCreate (st : state) (pcNamespaceName : option string)
  : IpcNamespaceHandle_t * state :=
  match pcNamespaceName with
  | None => (None, st)
  | Some name =>
      if (String.length name =? 0)%nat then (None, st)
      else
        match prvFindFreeNamespaceSlot st with
        | None => (None, st)
        | Some uxSlot =>
            let st1 := set_bitmap st (Z.lor (uxNamespaceBitmap st) (bit uxSlot)) in
            (Some uxSlot, prvInitializeNamespace st1 uxSlot name)
        end
  end.

Definition clear_entry (e : IpcObjectEntry_t) : IpcObjectEntry_t :=
  mkEntry NULL (xObjectType e) (pcObjectName e) (ulObjectId e) None.

Definition vIpcNamespaceInit (st : state) : state :=
  let st1 := set_slots st (map (fun ns => set_active ns pdFALSE) (xIpcNamespaces st)) in
  let st2 := set_entries st1 (map clear_entry (xIpcObjectEntries st1)) 0 in
  let st3 := set_next_id (set_bitmap st2 0) 1 in
  let '(h, st4) := xIpcNamespaceCreate st3 (Some "root"%string) in
  set_root st4 h.

Definition xIpcNamespaceDelete (st : state) (xNs : IpcNamespaceHandle_t)
  : BaseType_t * state :=
  match xNs with
  | None => (pdFAIL, st)
  | Some uxSlot =>
      match xIpcNamespaces st !! uxSlot with
      | None => (pdFAIL, st)
      | Some pxNamespace =>
          if xActive pxNamespace =? pdFALSE then (pdFAIL, st)
          else if bool_decide (xNs = xRootNamespace st) then (pdFAIL, st)
          else if uxObjectCount pxNamespace >? 0 then (pdFAIL, st)
          else
            (pdPASS,
             set_slots
               (set_bitmap st (Z.land (uxNamespaceBitmap st) (Z.lnot (bit uxSlot))))
               (<[uxSlot := set_active pxNamespace pdFALSE]> (xIpcNamespaces st)))
      end
  end.

(** [vListInsert]: the new item goes after the items whose value is not
    greater than its own. *)
Fixpoint vListInsert (ids : nat -> Z) (l : list nat) (item : nat) : list nat :=
  match l with
  | [] => [item]
  | x :: rest =>
      if ids x <=? ids item then x :: vListInsert ids rest item
      else item :: x :: rest
  end.

Definition ulIpcNamespaceRegisterObject (st : state) (xNs : IpcNamespaceHandle_t)
    (pvObj : Z) (xType : IpcObjectType_t) (pcName : option string) : Z * state :=
  match xNs with
  | None => (0, st)
  | Some uxSlot =>
      match xIpcNamespaces st !! uxSlot with
      | None => (0, st)
      | Some pxNamespace =>
          if (pvObj =? NULL) || (xActive pxNamespace =? pdFALSE) then (0, st)
          else if uxObjectCount pxNamespace >=? Z.of_nat configMAX_IPC_OBJECTS_PER_NAMESPACE
          then (0, st)
          else
            match prvFindFreeObjectEntry st with
            | None => (0, st)
            | Some ux =>
                let ulObjectId := ulNextObjectId pxNamespace in
                let name := match pcName with
                            | Some s => prvStrcpy s configMAX_TASK_NAME_LEN
                            | None => EmptyString
                            end in
                let entries := <[ux := mkEntry pvObj xType name ulObjectId xNs]>
                                 (xIpcObjectEntries st) in
                let ids := fun i => match entries !! i with
                                    | Some e => IpcNs.ulObjectId e
                                    | None => 0
                                    end in
                let ns1 := mkIpcNamespace (pcNamespaceName pxNamespace)
                             (ulNamespaceId pxNamespace)
                             (wrapU ubits (ulObjectId + 1))
                             (vListInsert ids (xObjectList pxNamespace) ux)
                             (wrapU ubits (uxObjectCount pxNamespace + 1))
                             (xActive pxNamespace) in
                (ulObjectId,
                 set_slots
                   (set_entries st entries (wrapU ubits (uxObjectEntryCount st + 1)))
                   (<[uxSlot := ns1]> (xIpcNamespaces st)))
            end
      end
  end.

Definition xIpcNamespaceUnregisterObject (st : state) (xNs : IpcNamespaceHandle_t)
    (pvObj : Z) : BaseType_t * state :=
  match xNs with
  | None => (pdFAIL, st)
  | Some uxSlot =>
      match xIpcNamespaces st !! uxSlot with
      | None => (pdFAIL, st)
      | Some pxNamespace =>
          if (pvObj =? NULL) || (xActive pxNamespace =? pdFALSE) then (pdFAIL, st)
          else
            match prvFindObjectEntry st xNs pvObj with
            | None => (pdFAIL, st)
            | Some ux =>
                let ns1 := mkIpcNamespace (pcNamespaceName pxNamespace)
                             (ulNamespaceId pxNamespace) (ulNextObjectId pxNamespace)
                             (filter (fun i => i <> ux) (xObjectList pxNamespace))
                             (wrapU ubits (uxObjectCount pxNamespace - 1))
                             (xActive pxNamespace) in
                (pdPASS,
                 set_slots
                   (set_entries st (alter clear_entry ux (xIpcObjectEntries st))
                      (wrapU ubits (uxObjectEntryCount st - 1)))
                   (<[uxSlot := ns1]> (xIpcNamespaces st)))
            end
      end
  end.

Definition xIpcNamespaceGetTaskNamespace (st : state) (xTask : TaskHandle_t)
  : IpcNamespaceHandle_t := pvTaskGetIpcNamespace st xTask.

Definition xIpcNamespaceSetTaskNamespace (st : state) (xTask : TaskHandle_t)
    (xNs : IpcNamespaceHandle_t) : BaseType_t * state :=
  xTaskSetIpcNamespace st xTask xNs.

(** The scan of [xIpcNamespaceCheckAccess] over the entry table: the first
    entry that holds the object decides. *)
Fixpoint check_entries (entries : list IpcObjectEntry_t) (pvObj : Z)
    (xTaskNamespace xRoot : IpcNamespaceHandle_t) : BaseType_t :=
  match entries with
  | [] => pdTRUE   (* not registered in any namespace: allowed for compatibility *)
  | pxEntry :: rest =>
      if pvIpcObject pxEntry =? pvObj then
        if bool_decide (xNamespace pxEntry = xTaskNamespace) then pdTRUE
        else if bool_decide (xTaskNamespace = xRoot) then pdTRUE
        else pdFALSE
      else check_entries rest pvObj xTaskNamespace xRoot
  end.

Definition xIpcNamespaceCheckAccess (st : state) (xTask : TaskHandle_t) (pvObj : Z)
  : BaseType_t :=
  if pvObj =? NULL then pdFALSE
  else
    let xTaskNamespace :=
      match xIpcNamespaceGetTaskNamespace st xTask with
      | None => xRootNamespace st
      | Some h => Some h
      end in
    check_entries (take uxMaxEntries (xIpcObjectEntries st)) pvObj
      xTaskNamespace (xRootNamespace st).

Definition xIpcNamespaceGetRoot (st : state) : IpcNamespaceHandle_t := xRootNamespace st.

(** The walk of [pvIpcNamespaceFindObject] along the namespace's object
    list: the owner of the first item whose object id is the one looked for. *)
Fixpoint find_in_list (entries : list IpcObjectEntry_t) (items : list nat) (ulId : Z)
  : option IpcObjectEntry_t :=
  match items with
  | [] => None
  | ux :: rest =>
      match entries !! ux with
      | Some pxEntry =>
          if ulObjectId pxEntry =? ulId then Some pxEntry
          else find_in_list entries rest ulId
      | None => find_in_list entries rest ulId
      end
  end.

(** Returns the object and the value stored through [pxObjectType]. *)
Definition pvIpcNamespaceFindObject (st : state) (xNs : IpcNamespaceHandle_t) (ulId : Z)
  : Z * option IpcObjectType_t :=
  match xNs with
  | None => (NULL, None)
  | Some uxSlot =>
      match xIpcNamespaces st !! uxSlot with
      | None => (NULL, None)
      | Some pxNamespace =>
          if (xActive pxNamespace =? pdFALSE) || (ulId =? 0) then (NULL, None)
          else
            match find_in_list (xIpcObjectEntries st) (xObjectList pxNamespace) ulId with
            | Some pxEntry => (pvIpcObject pxEntry, Some (xObjectType pxEntry))
            | None => (NULL, None)
            end
      end
  end.

(** The values stored through [puxObjectCount] and [puxNextObjectId]. *)
Definition xIpcNamespaceGetInfo (st : state) (xNs : IpcNamespaceHandle_t)
  : BaseType_t * option (Z * Z) :=
  match xNs with
  | None => (pdFAIL, None)
  | Some uxSlot =>
      match xIpcNamespaces st !! uxSlot with
      | None => (pdFAIL, None)
      | Some pxNamespace =>
          if xActive pxNamespace =? pdFALSE then (pdFAIL, None)
          else (pdPASS, Some (uxObjectCount pxNamespace, ulNextObjectId pxNamespace))
      end
  end.

(** *** Isolated constructors

    The body shared by [xQueueCreateIsolated], [xSemaphoreCreateBinaryIsolated]
    and [xSemaphoreCreateMutexIsolated].  [xObject] is what the kernel
    constructor returned, [NULL] when it had no memory; the result is the
    handle given back to the caller, [NULL] after the object was deleted
    again. *)
Definition create_isolated (st : state) (xObject : Z) (xType : IpcObjectType_t)
    (pcName : option string) : Z * state :=
  if xObject =? NULL then (NULL, st)
  else
    let xNs := match xIpcNamespaceGetTaskNamespace st NULL with
               | None => xRootNamespace st
               | Some h => Some h
               end in
    let '(ulId, st1) := ulIpcNamespaceRegisterObject st xNs xObject xType pcName in
    if ulId =? 0 then (NULL, st1) else (xObject, st1).

Definition xQueueCreateIsolated (st : state) (xQueue : Z) (pcQueueName : option string)
  : Z * state := create_isolated st xQueue IPC_TYPE_QUEUE pcQueueName.

Definition xSemaphoreCreateBinaryIsolated (st : state) (xSemaphore : Z)
    (pcSemaphoreName : option string) : Z * state :=
  create_isolated st xSemaphore IPC_TYPE_SEMAPHORE pcSemaphoreName.

Definition xSemaphoreCreateMutexIsolated (st : state) (xMutex : Z)
    (pcMutexName : option string) : Z * state :=
  create_isolated st xMutex IPC_TYPE_MUTEX pcMutexName.

(** *** Kernel integration *)

Definition prvIpcNamespaceTaskDelete (st : state) (xTask : TaskHandle_t) : state := st.

Definition prvIpcNamespaceSetTaskNamespace (st : state) (xTask : TaskHandle_t)
    (xNs : IpcNamespaceHandle_t) : BaseType_t * state :=
  xTaskSetIpcNamespace st xTask xNs.

End WithWord.

(** The statics as the C runtime zero-initialises them. *)
Definition zero_namespace : IpcNamespace_t := mkIpcNamespace EmptyString 0 0 [] 0 0.
Definition zero_entry : IpcObjectEntry_t := mkEntry NULL IPC_TYPE_QUEUE EmptyString 0 None.

Definition boot_state (tcbs : gmap Z IpcNamespaceHandle_t) (cur : TaskHandle_t) : state :=
  mkState (replicate configMAX_IPC_NAMESPACES zero_namespace) 0
    (replicate uxMaxEntries zero_entry) 0 None 1 tcbs cur.

End IpcNs.

(** ** CGroup controller (cgroup.c, cgroup.h) *)

Module CGroup.

Definition configMAX_CGROUPS : nat := 8.
Definition configMAX_CGROUP_NAME_LEN : nat := 16.
Definition configCGROUP_CPU_PENALTY_FACTOR : Z := 2.

(** [CGROUP_NO_LIMIT] is [((UBaseType_t) - 1)]. *)
Definition CGROUP_NO_LIMIT (ubits : Z) : Z := 2 ^ ubits - 1.
Definition CGROUP_CPU_QUOTA_MAX : Z := 1000.

Definition CGroupHandle_t := option nat.

#[global] Instance CGroupHandle_eq_dec : EqDecision CGroupHandle_t.
Proof. unfold CGroupHandle_t. apply _. Defined.

Record MemoryLimits_t := mkMem {
  ulMemoryLimit : Z;
  ulMemoryUsed : Z;
  ulMemoryPeak : Z }.

Record CpuLimits_t := mkCpu {
  ulCpuQuota : Z;
  ulTicksUsed : Z;
  ulTicksQuota : Z;
  ulPenaltyTicksLeft : Z;
  xWindowStartTime : Z;
  xWindowDuration : Z }.

(** [xTaskList] is initialised by [xCGroupCreate] and never read or written
    again; membership is kept in [xTaskCGroupMap].  It is not a field here. *)
Record CGroup_t := mkCGroup {
  pcGroupName : string;
  xMemoryLimits : MemoryLimits_t;
  xCpuLimits : CpuLimits_t;
  uxTaskCount : Z;
  xActive : BaseType_t }.

Record TaskCGroupMap_t := mkMap {
  xTask : TaskHandle_t;
  xCGroup : CGroupHandle_t }.

(** The file-scope variables of cgroup.c; [xTaskCGroupMap] holds the first
    [uxMapCount] entries of the array.  [xTickCount] and [xCurrentTask] are
    the kernel's tick counter and running task, read through
    [xTaskGetTickCount] and [xTaskGetCurrentTaskHandle]. *)
Record state := mkState {
  xCGroups : list CGroup_t;
  uxCGroupBitmap : Z;
  xTaskCGroupMap : list TaskCGroupMap_t;
  xTickCount : Z;
  xCurrentTask : TaskHandle_t }.

Definition uxMapCount (st : state) : nat := length (xTaskCGroupMap st).

Definition set_groups (st : state) (l : list CGroup_t) : state :=
  mkState l (uxCGroupBitmap st) (xTaskCGroupMap st) (xTickCount st) (xCurrentTask st).
Definition set_bitmap (st : state) (b : Z) : state :=
  mkState (xCGroups st) b (xTaskCGroupMap st) (xTickCount st) (xCurrentTask st).
Definition set_map (st : state) (m : list TaskCGroupMap_t) : state :=
  mkState (xCGroups st) (uxCGroupBitmap st) m (xTickCount st) (xCurrentTask st).

Definition set_tick (st : state) (t : Z) : state :=
  mkState (xCGroups st) (uxCGroupBitmap st) (xTaskCGroupMap st) t (xCurrentTask st).
Definition set_current (st : state) (t : TaskHandle_t) : state :=
  mkState (xCGroups st) (uxCGroupBitmap st) (xTaskCGroupMap st) (xTickCount st) t.

Definition set_cpu (g : CGroup_t) (c : CpuLimits_t) : CGroup_t :=
  mkCGroup (pcGroupName g) (xMemoryLimits g) c (uxTaskCount g) (xActive g).
Definition set_mem (g : CGroup_t) (m : MemoryLimits_t) : CGroup_t :=
  mkCGroup (pcGroupName g) m (xCpuLimits g) (uxTaskCount g) (xActive g).
Definition set_task_count (g : CGroup_t) (n : Z) : CGroup_t :=
  mkCGroup (pcGroupName g) (xMemoryLimits g) (xCpuLimits g) n (xActive g).
Definition set_active (g : CGroup_t) (a : BaseType_t) : CGroup_t :=
  mkCGroup (pcGroupName g) (xMemoryLimits g) (xCpuLimits g) (uxTaskCount g) a.

Definition set_ticks_used (c : CpuLimits_t) (n : Z) : CpuLimits_t :=
  mkCpu (ulCpuQuota c) n (ulTicksQuota c) (ulPenaltyTicksLeft c)
    (xWindowStartTime c) (xWindowDuration c).
Definition set_penalty (c : CpuLimits_t) (n : Z) : CpuLimits_t :=
  mkCpu (ulCpuQuota c) (ulTicksUsed c) (ulTicksQuota c) n
    (xWindowStartTime c) (xWindowDuration c).
Definition set_window_start (c : CpuLimits_t) (t : Z) : CpuLimits_t :=
  mkCpu (ulCpuQuota c) (ulTicksUsed c) (ulTicksQuota c) (ulPenaltyTicksLeft c)
    t (xWindowDuration c).
Definition set_quota (c : CpuLimits_t) (q tq : Z) : CpuLimits_t :=
  mkCpu q (ulTicksUsed c) tq (ulPenaltyTicksLeft c)
    (xWindowStartTime c) (xWindowDuration c).

Section WithWord.
(** Width of [UBaseType_t] and of [TickType_t] (portmacro.h), and
    [configCGROUP_CPU_WINDOW_DURATION], which is [pdMS_TO_TICKS(1000)] and so
    depends on the tick rate of FreeRTOSConfig.h. *)
Variable ubits : Z.
Variable tbits : Z.
Variable configCGROUP_CPU_WINDOW_DURATION : Z.

(** *** Private functions *)

Fixpoint prvFindFreeCGroupSlot_from (bitmap : Z) (xIndex n : nat) : option nat :=
  match n with
  | O => None
  | S n' =>
      if Z.land bitmap (bit xIndex) =? 0 then Some xIndex
      else prvFindFreeCGroupSlot_from bitmap (S xIndex) n'
  end.

Definition prvFindFreeCGroupSlot (st : state) : option nat :=
  prvFindFreeCGroupSlot_from (uxCGroupBitmap st) 0 configMAX_CGROUPS.

(** [Some i] when the handle is the address of slot [i] of the table. *)
Definition prvGetCGroupIndex (xCGroup : CGroupHandle_t) : option nat :=
  match xCGroup with
  | None => None
  | Some i => if (i <? configMAX_CGROUPS)%nat then Some i else None
  end.

(** The scan of the mapping table. *)
Fixpoint map_lookup (m : list TaskCGroupMap_t) (t : TaskHandle_t) : CGroupHandle_t :=
  match m with
  | [] => None
  | e :: rest => if xTask e =? t then xCGroup e else map_lookup rest t
  end.

Definition prvGetCGroupFromTask (st : state) (t : TaskHandle_t) : CGroupHandle_t :=
  if t =? NULL then None else map_lookup (xTaskCGroupMap st) t.

Definition prvAddTaskToMap (st : state) (t : TaskHandle_t) (h : CGroupHandle_t)
  : BaseType_t * state :=
  if (configMAX_CGROUPS * 8 <=? uxMapCount st)%nat then (pdFAIL, st)
  else
    match prvGetCGroupFromTask st t with
    | Some _ => (pdFAIL, st)
    | None => (pdPASS, set_map st (xTaskCGroupMap st ++ [mkMap t h]))
    end.

(** Index of the first mapping of task [t], counting from [ux]. *)
Fixpoint map_index_from (m : list TaskCGroupMap_t) (t : TaskHandle_t) (ux : nat)
  : option nat :=
  match m with
  | [] => None
  | e :: rest => if xTask e =? t then Some ux else map_index_from rest t (S ux)
  end.

(** The last entry moves into the gap. *)
Definition prvRemoveTaskFromMap (st : state) (t : TaskHandle_t) : BaseType_t * state :=
  let m := xTaskCGroupMap st in
  match map_index_from m t 0 with
  | None => (pdFAIL, st)
  | Some ux =>
      let m1 := match last m with
                | Some e => if (ux <? length m - 1)%nat then <[ux := e]> m else m
                | None => m
                end in
      (pdPASS, set_map st (take (length m - 1) m1))
  end.

(** The product is formed in [UBaseType_t].  The quotient by a zero quota is
    undefined in C (the division traps): the call has no result then, which
    is [None] here and in the callers. *)
Definition prvCalculatePenalty (g : CGroup_t) : option CGroup_t :=
  let c := xCpuLimits g in
  if negb (ulTicksQuota c =? CGROUP_NO_LIMIT ubits) && (ulTicksUsed c >? ulTicksQuota c) then
    let ulExcess := wrapU ubits (ulTicksUsed c - ulTicksQuota c) in
    if ulTicksQuota c =? 0 then None
    else
      Some (set_cpu g
              (set_penalty c
                 (wrapU ubits
                    (ulPenaltyTicksLeft c +
                     wrapU ubits (ulExcess * configCGROUP_CPU_WINDOW_DURATION)
                       / ulTicksQuota c))))
  else Some g.

(** Whether [prvUpdateCpuWindow] starts a new window at time [xCurrentTime]. *)
Definition window_elapsed (xCurrentTime : Z) (g : CGroup_t) : bool :=
  wrapU tbits (xCurrentTime - xWindowStartTime (xCpuLimits g))
    >=? xWindowDuration (xCpuLimits g).

(** The new window of [prvUpdateCpuWindow], entered once the penalty of the
    closing window has been added. *)
Definition start_window (xCurrentTime : Z) (g1 : CGroup_t) : CGroup_t :=
  let c1 := set_ticks_used (set_window_start (xCpuLimits g1) xCurrentTime) 0 in
  let c2 :=
    if ulPenaltyTicksLeft c1 >? 0 then
      set_penalty c1 (if ulPenaltyTicksLeft c1 >? 1 then ulPenaltyTicksLeft c1 - 1 else 0)
    else c1 in
  set_cpu g1 c2.

Definition prvUpdateCpuWindow (xCurrentTime : Z) (g : CGroup_t) : option CGroup_t :=
  if window_elapsed xCurrentTime g then
    match prvCalculatePenalty g with
    | None => None
    | Some g1 => Some (start_window xCurrentTime g1)
    end
  else Some g.

(** *** Public functions *)

(** The name copy of [xCGroupCreate]. *)
Definition copy_name (pcGroupName : string) : string :=
  substring 0 (configMAX_CGROUP_NAME_LEN - 1) pcGroupName.

Definition ticks_quota_of (ulCpuQuota : Z) : Z :=
  if ulCpuQuota =? CGROUP_CPU_QUOTA_MAX then CGROUP_NO_LIMIT ubits else ulCpuQuota.

Definition xCGroupCreate (st : state) (pcGroupName : string) (ulMemoryLimit ulCpuQuota : Z)
  : CGroupHandle_t * state :=
  match prvFindFreeCGroupSlot st with
  | None => (None, st)
  | Some xIndex =>
      let g := mkCGroup (copy_name pcGroupName)
                 (mkMem ulMemoryLimit 0 0)
                 (mkCpu ulCpuQuota 0 (ticks_quota_of ulCpuQuota) 0 (xTickCount st)
                    configCGROUP_CPU_WINDOW_DURATION)
                 0 pdTRUE in
      (Some xIndex,
       set_groups (set_bitmap st (Z.lor (uxCGroupBitmap st) (bit xIndex)))
         (<[xIndex := g]> (xCGroups st)))
  end.

Definition xCGroupDelete (st : state) (xCGroup : CGroupHandle_t) : BaseType_t * state :=
  match prvGetCGroupIndex xCGroup with
  | None => (pdFAIL, st)
  | Some xIndex =>
      match xCGroups st !! xIndex with
      | None => (pdFAIL, st)
      | Some g =>
          if uxTaskCount g >? 0 then (pdFAIL, st)
          else
            (pdPASS,
             set_bitmap
               (set_groups st (<[xIndex := set_active g pdFALSE]> (xCGroups st)))
               (Z.land (uxCGroupBitmap st) (Z.lnot (bit xIndex))))
      end
  end.

Definition xCGroupAddTask (st : state) (xCGroup : CGroupHandle_t) (t : TaskHandle_t)
  : BaseType_t * state :=
  match xCGroup with
  | None => (pdFAIL, st)
  | Some i =>
      match xCGroups st !! i with
      | None => (pdFAIL, st)
      | Some g =>
          if (t =? NULL) || (xActive g =? pdFALSE) then (pdFAIL, st)
          else
            let '(r, st1) := prvAddTaskToMap st t xCGroup in
            if r =? pdPASS then
              (r, set_groups st1
                    (<[i := set_task_count g (wrapU ubits (uxTaskCount g + 1))]>
                       (xCGroups st1)))
            else (r, st1)
      end
  end.

Definition xCGroupRemoveTask (st : state) (xCGroup : CGroupHandle_t) (t : TaskHandle_t)
  : BaseType_t * state :=
  match xCGroup with
  | None => (pdFAIL, st)
  | Some i =>
      if t =? NULL then (pdFAIL, st)
      else if negb (bool_decide (prvGetCGroupFromTask st t = xCGroup)) then (pdFAIL, st)
      else
        let '(r, st1) := prvRemoveTaskFromMap st t in
        if r =? pdPASS then
          match xCGroups st1 !! i with
          | Some g =>
              (r, set_groups st1
                    (<[i := set_task_count g (wrapU ubits (uxTaskCount g - 1))]>
                       (xCGroups st1)))
          | None => (r, st1)
          end
        else (r, st1)
  end.

Definition xCGroupCheckMemoryLimit (st : state) (t : TaskHandle_t) (ulSize : Z)
  : BaseType_t :=
  if t =? NULL then pdTRUE
  else
    match prvGetCGroupFromTask st t with
    | None => pdTRUE
    | Some i =>
        match xCGroups st !! i with
        | None => pdTRUE
        | Some g =>
            let m := xMemoryLimits g in
            if ulMemoryLimit m =? CGROUP_NO_LIMIT ubits then pdTRUE
            else if wrapU ubits (ulMemoryUsed m + ulSize) <=? ulMemoryLimit m then pdTRUE
            else pdFALSE
        end
    end.

(** The parameter [lMemoryDelta] is a signed [BaseType_t]: the argument
    arrives as its value in that type, so a size of [2 ^ (ubits - 1)] or more
    is a negative delta.  A release larger than the usage leaves the usage
    at zero; the negation of the most negative delta is taken in two's
    complement. *)
Definition xCGroupUpdateMemoryUsage (st : state) (t : TaskHandle_t) (lMemoryDelta : Z)
  : BaseType_t * state :=
  if t =? NULL then (pdPASS, st)
  else
    match prvGetCGroupFromTask st t with
    | None => (pdPASS, st)
    | Some i =>
        (pdPASS,
         set_groups st
           (alter (fun g =>
                     let lMemoryDelta := wrapS ubits lMemoryDelta in
                     let m := xMemoryLimits g in
                     if lMemoryDelta >? 0 then
                       let used := wrapU ubits (ulMemoryUsed m + lMemoryDelta) in
                       set_mem g (mkMem (ulMemoryLimit m) used
                                    (if used >? ulMemoryPeak m then used else ulMemoryPeak m))
                     else
                       let ulDealloc := wrapU ubits (- lMemoryDelta) in
                       set_mem g (mkMem (ulMemoryLimit m)
                                    (if ulDealloc >? ulMemoryUsed m then 0
                                     else ulMemoryUsed m - ulDealloc)
                                    (ulMemoryPeak m)))
                  i (xCGroups st)))
    end.

(** Besides copying the statistics out, [xCGroupGetStats] brings the CPU
    window up to date. *)
Definition xCGroupGetStats (st : state) (xCGroup : CGroupHandle_t)
  : option (BaseType_t * option (MemoryLimits_t * CpuLimits_t) * state) :=
  match xCGroup with
  | None => Some (pdFAIL, None, st)
  | Some i =>
      match xCGroups st !! i with
      | None => Some (pdFAIL, None, st)
      | Some g =>
          if xActive g =? pdFALSE then Some (pdFAIL, None, st)
          else
            match prvUpdateCpuWindow (xTickCount st) g with
            | None => None
            | Some g1 =>
                Some (pdPASS, Some (xMemoryLimits g1, xCpuLimits g1),
                      set_groups st (<[i := g1]> (xCGroups st)))
            end
      end
  end.

Definition xCGroupSetMemoryLimit (st : state) (xCGroup : CGroupHandle_t) (ulLimit : Z)
  : BaseType_t * state :=
  match xCGroup with
  | None => (pdFAIL, st)
  | Some i =>
      match xCGroups st !! i with
      | None => (pdFAIL, st)
      | Some g =>
          if xActive g =? pdFALSE then (pdFAIL, st)
          else
            (pdPASS,
             set_groups st
               (<[i := set_mem g (mkMem ulLimit (ulMemoryUsed (xMemoryLimits g))
                                    (ulMemoryPeak (xMemoryLimits g)))]> (xCGroups st)))
      end
  end.

Definition xCGroupResetMemoryStats (st : state) (xCGroup : CGroupHandle_t)
  : BaseType_t * state :=
  match xCGroup with
  | None => (pdFAIL, st)
  | Some i =>
      match xCGroups st !! i with
      | None => (pdFAIL, st)
      | Some g =>
          if xActive g =? pdFALSE then (pdFAIL, st)
          else
            (pdPASS,
             set_groups st
               (<[i := set_mem g (mkMem (ulMemoryLimit (xMemoryLimits g)) 0 0)]>
                  (xCGroups st)))
      end
  end.

Definition xCGroupSetCpuQuota (st : state) (xCGroup : CGroupHandle_t) (ulCpuQuota : Z)
  : BaseType_t * state :=
  match xCGroup with
  | None => (pdFAIL, st)
  | Some i =>
      match xCGroups st !! i with
      | None => (pdFAIL, st)
      | Some g =>
          if xActive g =? pdFALSE then (pdFAIL, st)
          else if ulCpuQuota >? CGROUP_CPU_QUOTA_MAX then (pdFAIL, st)
          else
            (pdPASS,
             set_groups st
               (<[i := set_cpu g (set_quota (xCpuLimits g) ulCpuQuota
                                    (ticks_quota_of ulCpuQuota))]> (xCGroups st)))
      end
  end.

Definition xCGroupGetTaskGroup (st : state) (t : TaskHandle_t) : CGroupHandle_t :=
  if t =? NULL then None else prvGetCGroupFromTask st t.

(** The values stored through [pulMemoryUsed], [pulMemoryLimit] and
    [pulMemoryPeak], all three given. *)
Definition xCGroupGetMemoryInfo (st : state) (xCGroup : CGroupHandle_t)
  : BaseType_t * option (Z * Z * Z) :=
  match xCGroup with
  | None => (pdFAIL, None)
  | Some i =>
      match xCGroups st !! i with
      | None => (pdFAIL, None)
      | Some g =>
          if xActive g =? pdFALSE then (pdFAIL, None)
          else (pdPASS, Some (ulMemoryUsed (xMemoryLimits g),
                              ulMemoryLimit (xMemoryLimits g),
                              ulMemoryPeak (xMemoryLimits g)))
      end
  end.

(** The loop of [xCGroupGetTotalMemoryUsage] over the slots [groups], the
    first of which is slot [xIndex]. *)
Fixpoint total_usage_from (bitmap : Z) (groups : list CGroup_t) (xIndex : nat)
    (ulTotalUsage : Z) : Z :=
  match groups with
  | [] => ulTotalUsage
  | g :: rest =>
      total_usage_from bitmap rest (S xIndex)
        (if negb (Z.land bitmap (bit xIndex) =? 0) && (xActive g =? pdTRUE)
         then wrapU ubits (ulTotalUsage + ulMemoryUsed (xMemoryLimits g))
         else ulTotalUsage)
  end.

Definition xCGroupGetTotalMemoryUsage (st : state) : Z :=
  total_usage_from (uxCGroupBitmap st) (take configMAX_CGROUPS (xCGroups st)) 0 0.

(** *** Integration functions *)

(** Accounting is tick-based; the switch-out hook looks the cgroup up and
    does nothing with it. *)
Definition prvCGroupTaskSwitchOut (st : state) (t : TaskHandle_t) : state :=
  if t =? NULL then st
  else
    match prvGetCGroupFromTask st t with
    | None => st
    | Some _ => st
    end.

Definition prvCGroupCanTaskRun (st : state) (t : TaskHandle_t) : BaseType_t :=
  if t =? NULL then pdTRUE
  else
    match prvGetCGroupFromTask st t with
    | None => pdTRUE
    | Some i =>
        match xCGroups st !! i with
        | None => pdTRUE   (* a mapping never holds a handle outside the table *)
        | Some g =>
            let c := xCpuLimits g in
            if ulPenaltyTicksLeft c >? 0 then pdFALSE
            else if negb (ulTicksQuota c =? CGROUP_NO_LIMIT ubits)
                    && (ulTicksUsed c >=? ulTicksQuota c) then pdFALSE
            else pdTRUE
        end
    end.

(** First half of [prvCGroupUpdateTick]: the running task's cgroup is charged
    one tick. *)
Definition charge_current_task (st : state) : state :=
  if xCurrentTask st =? NULL then st
  else
    match prvGetCGroupFromTask st (xCurrentTask st) with
    | None => st
    | Some i =>
        set_groups st
          (alter (fun g => set_cpu g (set_ticks_used (xCpuLimits g)
                                        (wrapU ubits (ulTicksUsed (xCpuLimits g) + 1))))
                 i (xCGroups st))
    end.

(** The per-tick reduction of the penalty in the loop of
    [prvCGroupUpdateTick]. *)
Definition reduce_penalty (g1 : CGroup_t) : CGroup_t :=
  if ulPenaltyTicksLeft (xCpuLimits g1) >? 0 then
    set_cpu g1 (set_penalty (xCpuLimits g1)
                  (wrapU ubits (ulPenaltyTicksLeft (xCpuLimits g1) - 1)))
  else g1.

(** Body of the loop of [prvCGroupUpdateTick] for the cgroup in slot [xIndex]. *)
Definition update_slot (bitmap : Z) (xCurrentTime : Z) (xIndex : nat) (g : CGroup_t)
  : option CGroup_t :=
  if negb (Z.land bitmap (bit xIndex) =? 0) && (xActive g =? pdTRUE) then
    match prvUpdateCpuWindow xCurrentTime g with
    | None => None
    | Some g1 => Some (reduce_penalty g1)
    end
  else Some g.

(** The loop of [prvCGroupUpdateTick] from slot [xIndex] on, over the slots
    [gs] that are left; it runs up to [configMAX_CGROUPS]. *)
Fixpoint update_slots (bitmap : Z) (xCurrentTime : Z) (xIndex : nat) (gs : list CGroup_t)
  : option (list CGroup_t) :=
  match gs with
  | [] => Some []
  | g :: rest =>
      match (if (xIndex <? configMAX_CGROUPS)%nat
             then update_slot bitmap xCurrentTime xIndex g else Some g) with
      | None => None
      | Some g' =>
          match update_slots bitmap xCurrentTime (S xIndex) rest with
          | None => None
          | Some rest' => Some (g' :: rest')
          end
      end
  end.

Definition prvCGroupUpdateTick (st : state) : option state :=
  let st1 := charge_current_task st in
  match update_slots (uxCGroupBitmap st1) (xTickCount st1) 0 (xCGroups st1) with
  | None => None
  | Some gs => Some (set_groups st1 gs)
  end.

(** Modelled from the spec: the kernel's [xTaskIncrementTick] (tasks.c) is
    not among the sources.  The specification has the scheduler invoke the
    tick hook once per tick; the header says [prvCGroupUpdateTick] is called
    from [xTaskIncrementTick], which advances the tick counter. *)
Definition xTaskIncrementTick (st : state) : option state :=
  prvCGroupUpdateTick (set_tick st (wrapU tbits (xTickCount st + 1))).

(** [n] ticks in a row. *)
Fixpoint ticks (n : nat) (st : state) : option state :=
  match n with
  | O => Some st
  | S n' =>
      match xTaskIncrementTick st with
      | None => None
      | Some st' => ticks n' st'
      end
  end.

End WithWord.

Definition zero_cgroup : CGroup_t :=
  mkCGroup EmptyString (mkMem 0 0 0) (mkCpu 0 0 0 0 0 0) 0 0.

(** The statics as the C runtime zero-initialises them. *)
Definition boot_state (now : Z) (cur : TaskHandle_t) : state :=
  mkState (replicate configMAX_CGROUPS zero_cgroup) 0 [] now cur.

End CGroup.

(** ** Container manager (container.c, container.h): the create path *)

Module Container.

Inductive ContainerState_t :=
| CONTAINER_STATE_STOPPED
| CONTAINER_STATE_RUNNING
| CONTAINER_STATE_PAUSED
| CONTAINER_STATE_ERROR.

(** [pxFunction] is always [container_wrap_function] and [pxNext] is the
    position in [pxContainerList]; neither is a field here. *)
Record Container_t := mkContainer {
  ulContainerID : Z;
  pcContainerName : string;
  eState : ContainerState_t;
  xTaskHandle : TaskHandle_t;
  pvParameters : Z;
  ulStackSize : Z;
  uxPriority : Z;
  pcRootPath : string;
  elfName : string;
  xCGroup : CGroup.CGroupHandle_t;
  xPidNamespace : PidNs.PidNamespaceHandle_t;
  xIpcNamespace : IpcNs.IpcNamespaceHandle_t;
  ulMemoryLimit : Z;
  ulCpuQuota : Z;
  xReadySemaphore : Z }.

(** The manager's statics, the heap blocks that hold container structs
    (address to contents), and the three controllers. *)
Record state := mkState {
  pxContainerList : list Z;
  ulNextContainerID : Z;
  heap : gmap Z Container_t;
  cgroups : CGroup.state;
  pidns : PidNs.state;
  ipcns : IpcNs.state }.

(** Digits of [value], least significant first; [fuel] bounds the loop, and
    a [uint32_t] has at most ten digits. *)
Fixpoint digits_rev (fuel : nat) (value : Z) : list ascii :=
  match fuel with
  | O => []
  | S fuel' =>
      if value >? 0
      then ascii_of_nat (Z.to_nat (48 + value mod 10)) :: digits_rev fuel' (value / 10)
      else []
  end.

Definition uint32_to_string (value : Z) : string :=
  if value =? 0 then "0"%string
  else string_of_list_ascii (rev (digits_rev 11 value)).

Section WithWord.
Variable ubits : Z.
Variable configCGROUP_CPU_WINDOW_DURATION : Z.

(** [strcpy] into the field [char elfName[64]] of the struct: the copy is
    defined when the source is a string, not a null pointer, and its
    characters and the terminator fit the field, that is for at most 63
    characters.  Otherwise the call writes past the field or reads through
    a null pointer, and has no result. *)
Definition strcpy_elfName (elfName : option string) : option string :=
  match elfName with
  | None => None
  | Some elf => if (String.length elf <? 64)%nat then Some elf else None
  end.

(** [pxMalloc] is what [pvPortMalloc] returns ([None] for a null pointer);
    [xTaken] tells whether [xSemaphoreTake] on the list mutex returned
    [pdTRUE].  The result is [None] when the copy of [elfName] is
    undefined; the copy comes after the two checks, before any resource is
    created. *)
Definition xContainerCreateWithLimits (st : state) (pcName : option string)
    (elfName : option string) (ulStack uxPrio ulMemoryLimit ulCpuQuota : Z)
    (pxMalloc : option Z) (xTaken : bool) : option (BaseType_t * state) :=
  match pcName with
  | None => Some (pdFAIL, st)
  | Some name =>
      match pxMalloc with
      | None => Some (pdFAIL, st)
      | Some pxNewContainer =>
        match strcpy_elfName elfName with
        | None => None
        | Some elf =>
          Some (
          let id := ulNextContainerID st in
          let resName := substring 0 31 name in
          (* the cgroup is always created, with defaults for unset limits *)
          let ulMemLimit := if ulMemoryLimit >? 0 then ulMemoryLimit else 8192 in
          let ulCpuLimit := if ulCpuQuota >? 0 then ulCpuQuota else 100 in
          let '(hcg, cg1) :=
            CGroup.xCGroupCreate ubits configCGROUP_CPU_WINDOW_DURATION
              (cgroups st) resName ulMemLimit ulCpuLimit in
          (* a null handle is tolerated: creation continues without the resource *)
          let '(hpid, pid1) := PidNs.xPidNamespaceCreate ubits (pidns st) (Some resName) in
          let '(hipc, ipc1) := IpcNs.xIpcNamespaceCreate ubits (ipcns st) (Some resName) in
          let c := mkContainer id (substring 0 31 name) CONTAINER_STATE_STOPPED NULL NULL
                     ulStack uxPrio
                     ("/var/container/" ++ uint32_to_string id)%string elf
                     hcg hpid hipc ulMemLimit ulCpuLimit NULL in
          let st1 := mkState (pxContainerList st) ((id + 1) mod 2 ^ 32)
                       (<[pxNewContainer := c]> (heap st)) cg1 pid1 ipc1 in
          if xTaken then
            (pdPASS,
             mkState (pxNewContainer :: pxContainerList st1) (ulNextContainerID st1)
               (heap st1) cg1 pid1 ipc1)
          else
            (* failed to add to the list: clean up *)
            let cg2 := match hcg with
                       | Some _ => snd (CGroup.xCGroupDelete cg1 hcg)
                       | None => cg1
                       end in
            let pid2 := match hpid with
                        | Some _ => snd (PidNs.xPidNamespaceDelete pid1 hpid)
                        | None => pid1
                        end in
            let ipc2 := match hipc with
                        | Some _ => snd (IpcNs.xIpcNamespaceDelete ipc1 hipc)
                        | None => ipc1
                        end in
            (pdFAIL,
             mkState (pxContainerList st1) (ulNextContainerID st1)
               (delete pxNewContainer (heap st1)) cg2 pid2 ipc2))
        end
      end
  end.

Definition xContainerCreate (st : state) (pcName : option string)
    (elfName : option string) (ulStack uxPrio : Z) (pxMalloc : option Z) (xTaken : bool)
  : option (BaseType_t * state) :=
  xContainerCreateWithLimits st pcName elfName ulStack uxPrio 0 0 pxMalloc xTaken.

(** *** Lookup *)

(** The walk along [pxNext] from the head of the list; a list node always
    points to an allocated block. *)
Fixpoint get_by_id (h : gmap Z Container_t) (l : list Z) (ulID : Z) : option Z :=
  match l with
  | [] => None
  | pxContainer :: rest =>
      match h !! pxContainer with
      | Some c =>
          if ulContainerID c =? ulID then Some pxContainer else get_by_id h rest ulID
      | None => None
      end
  end.

Definition pxContainerGetByID (st : state) (ulID : Z) : option Z :=
  get_by_id (heap st) (pxContainerList st) ulID.

(** [strncmp (s1, s2, n) == 0] on C strings. *)
Fixpoint strncmp_eq (s1 s2 : string) (n : nat) : bool :=
  match n with
  | O => true
  | S n' =>
      match s1, s2 with
      | EmptyString, EmptyString => true
      | String c1 r1, String c2 r2 => Ascii.eqb c1 c2 && strncmp_eq r1 r2 n'
      | _, _ => false
      end
  end.

Fixpoint get_by_name (h : gmap Z Container_t) (l : list Z) (pcName : string) : option Z :=
  match l with
  | [] => None
  | pxContainer :: rest =>
      match h !! pxContainer with
      | Some c =>
          if strncmp_eq (pcContainerName c) pcName (String.length pcName)
          then Some pxContainer else get_by_name h rest pcName
      | None => None
      end
  end.

Definition pxContainerGetByName (st : state) (pcName : option string) : option Z :=
  match pcName with
  | None => None
  | Some name => get_by_name (heap st) (pxContainerList st) name
  end.

(** The counting loop, in [uint32_t]. *)
Fixpoint count_from (l : list Z) (ulCount : Z) : Z :=
  match l with
  | [] => ulCount
  | _ :: rest => count_from rest ((ulCount + 1) mod 2 ^ 32)
  end.

Definition ulContainerGetCount (st : state) : Z := count_from (pxContainerList st) 0.

Definition pxContainerGetList (st : state) : option Z := head (pxContainerList st).

(** *** Stop and delete *)

Definition set_heap (st : state) (h : gmap Z Container_t) : state :=
  mkState (pxContainerList st) (ulNextContainerID st) h (cgroups st) (pidns st) (ipcns st).
Definition set_cgroups (st : state) (cg : CGroup.state) : state :=
  mkState (pxContainerList st) (ulNextContainerID st) (heap st) cg (pidns st) (ipcns st).
Definition set_pidns (st : state) (ns : PidNs.state) : state :=
  mkState (pxContainerList st) (ulNextContainerID st) (heap st) (cgroups st) ns (ipcns st).

Definition set_run_state (c : Container_t) (s : ContainerState_t) (t : TaskHandle_t)
  : Container_t :=
  mkContainer (ulContainerID c) (pcContainerName c) s t (pvParameters c) (ulStackSize c)
    (uxPriority c) (pcRootPath c) (elfName c) (xCGroup c) (xPidNamespace c)
    (xIpcNamespace c) (ulMemoryLimit c) (ulCpuQuota c) (xReadySemaphore c).
Definition set_memory_limit (c : Container_t) (ulLimit : Z) : Container_t :=
  mkContainer (ulContainerID c) (pcContainerName c) (eState c) (xTaskHandle c)
    (pvParameters c) (ulStackSize c) (uxPriority c) (pcRootPath c) (elfName c) (xCGroup c)
    (xPidNamespace c) (xIpcNamespace c) ulLimit (ulCpuQuota c) (xReadySemaphore c).
Definition set_cpu_quota (c : Container_t) (ulQuota : Z) : Container_t :=
  mkContainer (ulContainerID c) (pcContainerName c) (eState c) (xTaskHandle c)
    (pvParameters c) (ulStackSize c) (uxPriority c) (pcRootPath c) (elfName c) (xCGroup c)
    (xPidNamespace c) (xIpcNamespace c) (ulMemoryLimit c) ulQuota (xReadySemaphore c).

Definition is_running (c : Container_t) : bool :=
  match eState c with
  | CONTAINER_STATE_RUNNING => true
  | _ => false
  end.

(** Modelled from the spec: the scheduler's [vTaskDelete] (tasks.c) is
    missing.  Task-local state is destroyed via the scheduler's task-delete
    hook, which calls the PID-namespace task-delete callback. *)
Definition kernel_vTaskDelete (ns : PidNs.state) (xTask : TaskHandle_t) : PidNs.state :=
  PidNs.vTaskDelete (PidNs.prvPidNamespaceTaskDelete ns xTask) xTask.

(** [xTaken] tells whether [xSemaphoreTake] on the list mutex returned
    [pdTRUE]. *)
Definition xContainerStop (st : state) (ulID : Z) (xTaken : bool) : BaseType_t * state :=
  if xTaken then
    match pxContainerGetByID st ulID with
    | Some pxContainer =>
        match heap st !! pxContainer with
        | Some c =>
            if is_running c then
              (pdPASS,
               set_pidns
                 (set_heap st
                    (<[pxContainer := set_run_state c CONTAINER_STATE_STOPPED NULL]> (heap st)))
                 (kernel_vTaskDelete (pidns st) (xTaskHandle c)))
            else (pdFAIL, st)
        | None => (pdFAIL, st)
        end
    | None => (pdFAIL, st)
    end
  else (pdFAIL, st).

(** Position and address of the first node of the list with the given id. *)
Fixpoint index_of_id (h : gmap Z Container_t) (l : list Z) (ulID : Z) (n : nat)
  : option (nat * Z) :=
  match l with
  | [] => None
  | pxContainer :: rest =>
      match h !! pxContainer with
      | Some c =>
          if ulContainerID c =? ulID then Some (n, pxContainer)
          else index_of_id h rest ulID (S n)
      | None => None
      end
  end.

(** [xTaken] is the outcome of the function's own [xSemaphoreTake],
    [xTakenStop] that of the nested one in [xContainerStop]. *)
Definition xContainerDelete (st : state) (ulID : Z) (xTaken xTakenStop : bool)
  : BaseType_t * state :=
  if xTaken then
    match index_of_id (heap st) (pxContainerList st) ulID 0 with
    | Some (n, pxContainer) =>
        match heap st !! pxContainer with
        | Some c =>
            (* make sure the container is stopped first *)
            let st1 := if is_running c then snd (xContainerStop st ulID xTakenStop) else st in
            (* remove from the list, then release the resources *)
            let cg := match xCGroup c with
                      | Some _ => snd (CGroup.xCGroupDelete (cgroups st1) (xCGroup c))
                      | None => cgroups st1
                      end in
            let pid := match xPidNamespace c with
                       | Some _ => snd (PidNs.xPidNamespaceDelete (pidns st1) (xPidNamespace c))
                       | None => pidns st1
                       end in
            let ipc := match xIpcNamespace c with
                       | Some _ => snd (IpcNs.xIpcNamespaceDelete (ipcns st1) (xIpcNamespace c))
                       | None => ipcns st1
                       end in
            (pdPASS,
             mkState (delete n (pxContainerList st1)) (ulNextContainerID st1)
               (delete pxContainer (heap st1)) cg pid ipc)
        | None => (pdFAIL, st)
        end
    | None => (pdFAIL, st)
    end
  else (pdFAIL, st).

(** *** Resource management *)

Definition xContainerSetMemoryLimit (st : state) (ulID ulLimit : Z) (xTaken : bool)
  : BaseType_t * state :=
  if xTaken then
    match pxContainerGetByID st ulID with
    | Some pxContainer =>
        match heap st !! pxContainer with
        | Some c =>
            let st1 := set_heap st (<[pxContainer := set_memory_limit c ulLimit]> (heap st)) in
            match xCGroup c with
            | Some _ =>
                let '(r, cg) := CGroup.xCGroupSetMemoryLimit (cgroups st1) (xCGroup c) ulLimit in
                (r, set_cgroups st1 cg)
            | None => (pdPASS, st1)
            end
        | None => (pdFAIL, st)
        end
    | None => (pdFAIL, st)
    end
  else (pdFAIL, st).

Definition xContainerSetCpuQuota (st : state) (ulID ulQuota : Z) (xTaken : bool)
  : BaseType_t * state :=
  if xTaken then
    match pxContainerGetByID st ulID with
    | Some pxContainer =>
        match heap st !! pxContainer with
        | Some c =>
            let st1 := set_heap st (<[pxContainer := set_cpu_quota c ulQuota]> (heap st)) in
            match xCGroup c with
            | Some _ =>
                let '(r, cg) := CGroup.xCGroupSetCpuQuota ubits (cgroups st1) (xCGroup c) ulQuota in
                (r, set_cgroups st1 cg)
            | None => (pdPASS, st1)
            end
        | None => (pdFAIL, st)
        end
    | None => (pdFAIL, st)
    end
  else (pdFAIL, st).

End WithWord.

End Container.

(** ** The flash file system seen through [lfs_ops] *)

Module Lfs.

(** Modelled from the spec: the LittleFS implementation behind the
    [LittleFSOps_t] function table is missing.  The specification treats it
    as a key to byte-array store supporting directories, sequential read and
    write, stat, rename and remove; file_system.h documents that removing a
    directory requires it to be empty and that every operation returns a
    negative error code on failure.  Keys are absolute paths; the root
    directory always exists; the operations are those seen by a task whose
    root path is "/", for which the path rewriter uses the path verbatim. *)
Inductive node :=
| NFile (data : list Byte.byte)
| NDir.

Definition LFS_ERR_OK : Z := 0.
Definition LFS_ERR_IO : Z := -5.
Definition LFS_ERR_NOENT : Z := -2.
Definition LFS_ERR_EXIST : Z := -17.
Definition LFS_ERR_NOTDIR : Z := -20.
Definition LFS_ERR_ISDIR : Z := -21.
Definition LFS_ERR_NOTEMPTY : Z := -39.
Definition LFS_ERR_BADF : Z := -9.

Definition LFS_O_RDONLY : Z := 1.
Definition LFS_O_WRONLY : Z := 2.
Definition LFS_O_CREAT : Z := 256.
Definition LFS_O_TRUNC : Z := 1024.

Inductive lfs_type :=
| LFS_TYPE_REG
| LFS_TYPE_DIR.

Record lfs_info := mkInfo {
  type : lfs_type;
  size : Z;
  name : string }.

Record lfs_file_t := mkFile {
  f_path : string;
  f_pos : nat;
  f_flags : Z }.

Record lfs_dir_t := mkDir {
  d_path : string;
  d_pos : nat }.

(** Modelled from the spec: path resolution of LittleFS is missing.
    [split_path "/a/b"] is [Some ("/a", "b")]: the text before and after the
    last slash, that is the directory an entry lies in and its name. *)
Fixpoint split_path (s : string) : option (string * string) :=
  match s with
  | EmptyString => None
  | String c s' =>
      match split_path s' with
      | Some (d, b) => Some (String c d, b)
      | None => if Ascii.eqb c "/" then Some (EmptyString, s') else None
      end
  end.

Definition parent_of (p : string) : string :=
  match split_path p with
  | Some (String c d, _) => String c d
  | _ => "/"%string
  end.

Definition base_of (p : string) : string :=
  match split_path p with
  | Some (_, b) => b
  | None => p
  end.

(** Modelled from the spec: the store maps a path to a file's bytes or to a
    directory; the root directory is always there. *)
Definition lookup_node (fs : gmap string node) (p : string) : option node :=
  if bool_decide (p = "/"%string) then Some NDir else fs !! p.

Definition info_of (p : string) (n : node) : lfs_info :=
  match n with
  | NFile data => mkInfo LFS_TYPE_REG (Z.of_nat (length data)) (base_of p)
  | NDir => mkInfo LFS_TYPE_DIR 0 (base_of p)
  end.

(** Modelled from the spec: the entries directly inside directory [d] of
    the store. *)
Definition children (fs : gmap string node) (d : string) : list (string * node) :=
  filter (fun kn => parent_of kn.1 = d) (map_to_list fs).

(** Modelled from the spec: what [dir_read] of LittleFS enumerates, namely
    ".", "..", which pack skips, and then the entries of the directory. *)
Definition dir_entries (fs : gmap string node) (d : string) : list lfs_info :=
  mkInfo LFS_TYPE_DIR 0 "." :: mkInfo LFS_TYPE_DIR 0 ".." ::
  map (fun kn => info_of kn.1 kn.2) (children fs d).

(** Modelled from the spec: [stat] of the missing LittleFS; it finds info
    about a file or directory. *)
Definition stat (fs : gmap string node) (p : string) : Z * option lfs_info :=
  match lookup_node fs p with
  | Some n => (LFS_ERR_OK, Some (info_of p n))
  | None => (LFS_ERR_NOENT, None)
  end.

(** Modelled from the spec: [mkdir] of the missing LittleFS; the path must
    be new and lie in an existing directory. *)
Definition mkdir (fs : gmap string node) (p : string) : Z * gmap string node :=
  match lookup_node fs p with
  | Some _ => (LFS_ERR_EXIST, fs)
  | None =>
      match lookup_node fs (parent_of p) with
      | Some NDir => (LFS_ERR_OK, <[p := NDir]> fs)
      | Some (NFile _) => (LFS_ERR_NOTDIR, fs)
      | None => (LFS_ERR_NOENT, fs)
      end
  end.

(** Modelled from the spec: [remove] of the missing LittleFS; it removes a
    file or a directory, and a directory must be empty. *)
Definition remove (fs : gmap string node) (p : string) : Z * gmap string node :=
  match fs !! p with
  | None => (LFS_ERR_NOENT, fs)
  | Some (NFile _) => (LFS_ERR_OK, delete p fs)
  | Some NDir =>
      match children fs p with
      | [] => (LFS_ERR_OK, delete p fs)
      | _ :: _ => (LFS_ERR_NOTEMPTY, fs)
      end
  end.

Definition has_flag (flags f : Z) : bool := negb (Z.land flags f =? 0).

(** Modelled from the spec: [file_open] of the missing LittleFS; reading
    needs an existing file, the output flags create or truncate one. *)
Definition file_open (fs : gmap string node) (p : string) (flags : Z)
  : Z * lfs_file_t * gmap string node :=
  let file := mkFile p 0 flags in
  match lookup_node fs p with
  | Some NDir => (LFS_ERR_ISDIR, file, fs)
  | Some (NFile _) =>
      if has_flag flags LFS_O_WRONLY && has_flag flags LFS_O_TRUNC
      then (LFS_ERR_OK, file, <[p := NFile []]> fs)
      else (LFS_ERR_OK, file, fs)
  | None =>
      if has_flag flags LFS_O_CREAT then
        match lookup_node fs (parent_of p) with
        | Some NDir => (LFS_ERR_OK, file, <[p := NFile []]> fs)
        | Some (NFile _) => (LFS_ERR_NOTDIR, file, fs)
        | None => (LFS_ERR_NOENT, file, fs)
        end
      else (LFS_ERR_NOENT, file, fs)
  end.

(** Modelled from the spec: [file_read] of the missing LittleFS, a
    sequential read of up to [n] bytes at the file position; the result is
    the number of bytes read. *)
Definition file_read (fs : gmap string node) (file : lfs_file_t) (n : Z)
  : Z * list Byte.byte * lfs_file_t :=
  if negb (has_flag (f_flags file) LFS_O_RDONLY) then (LFS_ERR_BADF, [], file)
  else
    match fs !! f_path file with
    | Some (NFile data) =>
        let got := take (Z.to_nat n) (drop (f_pos file) data) in
        (Z.of_nat (length got), got,
         mkFile (f_path file) (f_pos file + length got) (f_flags file))
    | _ => (LFS_ERR_IO, [], file)
    end.

(** Modelled from the spec: [file_write] of the missing LittleFS, a
    sequential write at the file position; the result is the number of
    bytes written. *)
Definition file_write (fs : gmap string node) (file : lfs_file_t) (buf : list Byte.byte)
  : Z * lfs_file_t * gmap string node :=
  if negb (has_flag (f_flags file) LFS_O_WRONLY) then (LFS_ERR_BADF, file, fs)
  else
    match fs !! f_path file with
    | Some (NFile data) =>
        let data' := take (f_pos file) data ++ buf
                     ++ drop (f_pos file + length buf) data in
        (Z.of_nat (length buf),
         mkFile (f_path file) (f_pos file + length buf) (f_flags file),
         <[f_path file := NFile data']> fs)
    | _ => (LFS_ERR_IO, file, fs)
    end.

(** Modelled from the spec: [file_close] of the missing LittleFS.  Writes
    reach the store at once, so closing changes nothing. *)
Definition file_close (fs : gmap string node) (file : lfs_file_t) : Z := LFS_ERR_OK.

(** Modelled from the spec: [dir_open] of the missing LittleFS. *)
Definition dir_open (fs : gmap string node) (p : string) : Z * lfs_dir_t :=
  match lookup_node fs p with
  | Some NDir => (LFS_ERR_OK, mkDir p 0)
  | Some (NFile _) => (LFS_ERR_NOTDIR, mkDir p 0)
  | None => (LFS_ERR_NOENT, mkDir p 0)
  end.

(** Modelled from the spec: [dir_read] of the missing LittleFS; result 1
    with the next entry, or 0 at the end of the directory. *)
Definition dir_read (fs : gmap string node) (dir : lfs_dir_t)
  : Z * option lfs_info * lfs_dir_t :=
  match dir_entries fs (d_path dir) !! d_pos dir with
  | Some info => (1, Some info, mkDir (d_path dir) (S (d_pos dir)))
  | None => (0, None, dir)
  end.

(** Modelled from the spec: [dir_rewind] of the missing LittleFS. *)
Definition dir_rewind (dir : lfs_dir_t) : lfs_dir_t := mkDir (d_path dir) 0.

(** The root is not an entry of the store, and every entry lies in a
    directory that exists. *)
Definition well_formed (fs : gmap string node) : Prop :=
  fs !! "/"%string = None /\
  forall p n, fs !! p = Some n -> lookup_node fs (parent_of p) = Some NDir.

End Lfs.

(** ** Container image codec (container_image.c) *)

Module Image.
Import Lfs.

(** [uint32_to_string] with the twelve-byte buffer its callers pass. *)
Fixpoint digits_rev (fuel : nat) (value : Z) : list ascii :=
  match fuel with
  | O => []
  | S fuel' =>
      if value >? 0
      then ascii_of_nat (Z.to_nat (48 + value mod 10)) :: digits_rev fuel' (value / 10)
      else []
  end.

Definition uint32_to_string (value : Z) : string :=
  if value =? 0 then "0"%string
  else string_of_list_ascii (take 11 (rev (digits_rev 11 value))).

(** [acContainerDir]: "/var/container/<id>", cut to the 63 characters the
    buffer holds. *)
Definition container_dir (ulContainerID : Z) : string :=
  substring 0 63 ("/var/container/" ++ uint32_to_string ulContainerID).

Definition prvEnsureDirectoryExists (fs : gmap string node) (pcPath : string)
  : BaseType_t * gmap string node :=
  match stat fs pcPath with
  | (result, info) =>
      if result =? LFS_ERR_OK then
        match info with
        | Some (mkInfo LFS_TYPE_DIR _ _) => (pdPASS, fs)
        | _ => (pdFAIL, fs)
        end
      else if result =? LFS_ERR_NOENT then
        let '(r, fs1) := mkdir fs pcPath in
        if r =? LFS_ERR_OK then (pdPASS, fs1) else (pdFAIL, fs1)
      else (pdFAIL, fs)
  end.

Definition prvDirectoryExists (fs : gmap string node) (pcPath : string) : BaseType_t :=
  match stat fs pcPath with
  | (result, Some (mkInfo LFS_TYPE_DIR _ _)) =>
      if result =? LFS_ERR_OK then pdTRUE else pdFALSE
  | _ => pdFALSE
  end.

Definition byte_to_Z (b : Byte.byte) : Z := Z.of_N (Byte.to_N b).

Definition byte_of_Z (z : Z) : Byte.byte :=
  match Byte.of_N (Z.to_N (z mod 256)) with
  | Some b => b
  | None => Byte.x00
  end.

(** A little-endian integer, as the target stores a [uint64_t]. *)
Definition le_decode (l : list Byte.byte) : Z :=
  fold_right (fun b acc => byte_to_Z b + 256 * acc) 0 l.

Definition le_encode (n : nat) (v : Z) : list Byte.byte :=
  map (fun i => byte_of_Z (v / 256 ^ Z.of_nat i)) (seq 0 n).

(** The C string at the start of a buffer. *)
Fixpoint cstring (buf : list Byte.byte) : string :=
  match buf with
  | [] => EmptyString
  | b :: rest =>
      if Byte.eqb b Byte.x00 then EmptyString
      else String (ascii_of_byte b) (cstring rest)
  end.

(** The 256-byte name field: zero-filled, then [strncpy] of at most 255 bytes. *)
Definition name_field (s : string) : list Byte.byte :=
  let bytes := take 255 (list_byte_of_string s) in
  bytes ++ replicate (256 - length bytes) Byte.x00.

Definition to_u32 (v : Z) : Z := v mod 2 ^ 32.
Definition to_i32 (v : Z) : Z :=
  let m := v mod 2 ^ 32 in if m <? 2 ^ 31 then m else m - 2 ^ 32.

Definition open_for_output : Z := Z.lor (Z.lor LFS_O_WRONLY LFS_O_CREAT) LFS_O_TRUNC.

(** [<dir>/<name>], cut to the [cap] characters the path buffer holds. *)
Definition build_file_path (cap : nat) (dir fname : string) : string :=
  substring 0 cap (dir ++ "/" ++ fname).

(** [pvPortMalloc (n)] returns a block when [0 < n] bytes are available;
    [xFreeHeap] is the room left on the heap. *)
Definition malloc_ok (xFreeHeap n : Z) : bool := (0 <? n) && (n <=? xFreeHeap).

(** The record loop of [xContainerUnpackImage] with [n] records to go.  The
    result is [xReturn] at label [cleanup_file]. *)
Fixpoint unpack_files (xFreeHeap : Z) (dir : string) (n : nat)
    (fs : gmap string node) (image_file : lfs_file_t) : BaseType_t * gmap string node :=
  match n with
  | O => (pdPASS, fs)
  | S n' =>
      let '(r1, size_bytes, f1) := file_read fs image_file 8 in
      if negb (r1 =? 8) then (pdFAIL, fs)
      else
        let ullFileSize := le_decode size_bytes in
        let '(r2, name_bytes, f2) := file_read fs f1 256 in
        if negb (r2 =? 256) then (pdFAIL, fs)
        else
          (* aucFilenameBuf[255] = 0 *)
          let fname := cstring (take 255 name_bytes) in
          let acFilePath := build_file_path 319 dir fname in
          if negb (malloc_ok xFreeHeap ullFileSize) && (ullFileSize >? 0) then (pdFAIL, fs)
          else
            let '(read_ok, pucBuffer, f3) :=
              if ullFileSize >? 0 then
                let '(r3, buf, f3) := file_read fs f2 (to_u32 ullFileSize) in
                (r3 =? to_i32 ullFileSize, buf, f3)
              else (true, [], f2) in
            if negb read_ok then (pdFAIL, fs)
            else
              let '(r4, output_file, fs1) := file_open fs acFilePath open_for_output in
              if r4 <? 0 then (pdFAIL, fs1)
              else
                let '(write_ok, fs2) :=
                  if ullFileSize >? 0 then
                    let '(r5, _, fs2) := file_write fs1 output_file pucBuffer in
                    (r5 =? to_i32 ullFileSize, fs2)
                  else (true, fs1) in
                if negb write_ok then (pdFAIL, fs2)
                else unpack_files xFreeHeap dir n' fs2 f3
  end.

(** [xMounted] tells whether [pxGetFileSystem] returns an instance with
    its function table. *)
Definition xContainerUnpackImage (xMounted : bool) (xFreeHeap : Z)
    (fs : gmap string node) (pcImagePath : option string) (ulContainerID : Z)
  : BaseType_t * gmap string node :=
  match pcImagePath with
  | None => (pdFAIL, fs)
  | Some path =>
      if negb xMounted then (pdFAIL, fs)
      else
        let acContainerDir := container_dir ulContainerID in
        let '(e1, fs1) := prvEnsureDirectoryExists fs "/var" in
        if negb (e1 =? pdPASS) then (pdFAIL, fs1)
        else
          let '(e2, fs2) := prvEnsureDirectoryExists fs1 "/var/container" in
          if negb (e2 =? pdPASS) then (pdFAIL, fs2)
          else if prvDirectoryExists fs2 acContainerDir =? pdTRUE then (pdFAIL, fs2)
          else
            let '(r, fs3) := mkdir fs2 acContainerDir in
            if negb (r =? LFS_ERR_OK) then (pdFAIL, fs3)
            else
              let '(ro, image_file, fs4) := file_open fs3 path LFS_O_RDONLY in
              if ro <? 0 then
                (* cleanup_dir *)
                (pdFAIL, snd (remove fs4 acContainerDir))
              else
                let '(rn, count, f1) := file_read fs4 image_file 1 in
                if negb (rn =? 1) then
                  (* cleanup_file: the file is closed, the directory stays *)
                  (pdFAIL, fs4)
                else
                  let ucNumFiles := match count with
                                    | b :: _ => byte_to_Z b
                                    | [] => 0
                                    end in
                  if ucNumFiles =? 0 then (pdPASS, fs4)
                  else
                    (* cleanup_file: nothing is removed when xReturn is not pdPASS *)
                    unpack_files xFreeHeap acContainerDir (Z.to_nat ucNumFiles) fs4 f1
  end.

Definition is_dot (s : string) : bool :=
  bool_decide (s = "."%string) || bool_decide (s = ".."%string).

(** First pass of [xContainerPackImage] over the entries [dir_read] yields:
    the number of regular files in a [uint8_t], [None] when it overflows. *)
Fixpoint count_files (entries : list lfs_info) (ucNumFiles : Z) : option Z :=
  match entries with
  | [] => Some ucNumFiles
  | info :: rest =>
      if is_dot (name info) then count_files rest ucNumFiles
      else
        match type info with
        | LFS_TYPE_REG =>
            let n := (ucNumFiles + 1) mod 256 in
            if n =? 0 then None else count_files rest n
        | LFS_TYPE_DIR => count_files rest ucNumFiles
        end
  end.

(** Second pass: one iteration per [dir_read], at most [fuel] of them (the
    directory is finite, so the caller's [fuel] is never used up).  The
    result tells whether the loop was left normally, as opposed to a jump to
    [cleanup]. *)
Fixpoint pack_files (fuel : nat) (xFreeHeap : Z) (acContainerDir : string)
    (fs : gmap string node) (dir : lfs_dir_t) (image_file : lfs_file_t)
    (ucFileCount ucNumFiles : Z) : bool * Z * gmap string node :=
  match fuel with
  | O => (false, ucFileCount, fs)
  | S fuel' =>
      if negb (ucFileCount <? ucNumFiles) then (true, ucFileCount, fs)
      else
        match dir_read fs dir with
        | (_, None, _) => (true, ucFileCount, fs)
        | (_, Some info, dir1) =>
            if is_dot (name info) then
              pack_files fuel' xFreeHeap acContainerDir fs dir1 image_file
                ucFileCount ucNumFiles
            else
              match type info with
              | LFS_TYPE_DIR =>
                  pack_files fuel' xFreeHeap acContainerDir fs dir1 image_file
                    ucFileCount ucNumFiles
              | LFS_TYPE_REG =>
                  let ullFileSize := size info in
                  let '(w1, img1, fs1) := file_write fs image_file (le_encode 8 ullFileSize) in
                  if negb (w1 =? 8) then (false, ucFileCount, fs1)
                  else
                    let '(w2, img2, fs2) := file_write fs1 img1 (name_field (name info)) in
                    if negb (w2 =? 256) then (false, ucFileCount, fs2)
                    else
                      let acFilePath := build_file_path 511 acContainerDir (name info) in
                      let '(ro, input_file, fs3) := file_open fs2 acFilePath LFS_O_RDONLY in
                      if ro <? 0 then (false, ucFileCount, fs3)
                      else if ullFileSize >? 0 then
                        if negb (malloc_ok xFreeHeap ullFileSize) then (false, ucFileCount, fs3)
                        else
                          let '(r, buf, _) := file_read fs3 input_file (to_u32 ullFileSize) in
                          if negb (r =? to_i32 ullFileSize) then (false, ucFileCount, fs3)
                          else
                            let '(w3, img3, fs4) := file_write fs3 img2 buf in
                            if negb (w3 =? to_i32 ullFileSize) then (false, ucFileCount, fs4)
                            else
                              pack_files fuel' xFreeHeap acContainerDir fs4 dir1 img3
                                ((ucFileCount + 1) mod 256) ucNumFiles
                      else
                        pack_files fuel' xFreeHeap acContainerDir fs3 dir1 img2
                          ((ucFileCount + 1) mod 256) ucNumFiles
              end
        end
  end.

Definition xContainerPackImage (xMounted : bool) (xFreeHeap : Z)
    (fs : gmap string node) (ulContainerID : Z) (pcImagePath : option string)
  : BaseType_t * gmap string node :=
  match pcImagePath with
  | None => (pdFAIL, fs)
  | Some path =>
      if negb xMounted then (pdFAIL, fs)
      else
        let acContainerDir := container_dir ulContainerID in
        if negb (prvDirectoryExists fs acContainerDir =? pdTRUE) then (pdFAIL, fs)
        else
          let '(rd, dir) := dir_open fs acContainerDir in
          if rd <? 0 then (pdFAIL, fs)
          else
            match count_files (dir_entries fs acContainerDir) 0 with
            | None => (pdFAIL, fs)            (* more than 255 files *)
            | Some ucNumFiles =>
                if ucNumFiles =? 0 then (pdFAIL, fs)   (* no files to pack *)
                else
                  let dir0 := dir_rewind dir in
                  let '(ro, image_file, fs1) := file_open fs path open_for_output in
                  if ro <? 0 then (pdFAIL, fs1)
                  else
                    let '(w, img1, fs2) :=
                      file_write fs1 image_file [byte_of_Z ucNumFiles] in
                    let '(finished, ucFileCount, fs3) :=
                      if negb (w =? 1) then (false, 0, fs2)
                      else pack_files (S (length (dir_entries fs2 acContainerDir)))
                             xFreeHeap acContainerDir fs2 dir0 img1 0 ucNumFiles in
                    if finished && (ucFileCount =? ucNumFiles) then (pdPASS, fs3)
                    else
                      (* cleanup: the failed image file is removed *)
                      (pdFAIL, snd (remove fs3 path))
            end
  end.

End Image.

(** ** Path rewriting of the file system layer (file_system.c) *)

Module FileSystem.

Definition configMAX_PATH_LEN : nat := 256.

(** The two length loops: the length of the C string, counted up to [limit]. *)
Fixpoint bounded_length (s : string) (limit : nat) : nat :=
  match s, limit with
  | String _ s', S limit' => S (bounded_length s' limit')
  | _, _ => O
  end.

(** The copy loop: [n] characters of [src] go into the buffer. *)
Fixpoint copy_chars (src : string) (n : nat) : list ascii :=
  match n, src with
  | S n', String c src' => c :: copy_chars src' n'
  | _, _ => []
  end.

(** The append loop: at most [path_len] characters of [path] go into the
    buffer, as long as there is [room] before its last byte. *)
Fixpoint append_chars (path : string) (path_len room : nat) : list ascii :=
  match path_len, room, path with
  | S n, S r, String c path' => c :: append_chars path' n r
  | _, _, _ => []
  end.

Definition first_is_slash (s : string) : bool :=
  match s with
  | String c _ => Ascii.eqb c "/"
  | EmptyString => false
  end.

Definition is_root (s : string) : bool :=
  match s with
  | String c EmptyString => Ascii.eqb c "/"
  | _ => false
  end.

Definition last_is_slash (l : list ascii) : bool :=
  match last l with
  | Some c => Ascii.eqb c "/"
  | None => false
  end.

(** [root_path] is what [pvTaskGetRootPath] stored for the running task.
    The result is the string the returned pointer designates: [path] itself
    or the contents of [full_path], whose size [max_len] is positive (the
    callers pass [configMAX_PATH_LEN]). *)
Definition fs_build_full_path (root_path : string) (path : option string) (max_len : nat)
  : option string :=
  match path with
  | None => None
  | Some path =>
      if first_is_slash path && is_root root_path then Some path
      else
        let root_len := bounded_length root_path (max_len - 1) in
        let path_len := bounded_length path (max_len - 1) in
        let copied := copy_chars root_path (Nat.min root_len (max_len - 1)) in
        (* a trailing slash of the root gives way to the slash of the path *)
        let kept := if last_is_slash copied && first_is_slash path
                    then removelast copied else copied in
        Some (string_of_list_ascii
                (kept ++ append_chars path path_len (max_len - 1 - length kept)))
  end.

End FileSystem.

(** * Properties *)

#[global] Arguments bit : simpl never.
#[global] Arguments wrapU : simpl never.

(** ** Bitmaps

    [bitmap & (1U << ux)] is zero exactly when bit [ux] is clear. *)
Lemma land_bit_testbit (b : Z) (ux : nat) :
  Z.land b (bit ux) = if Z.testbit b (Z.of_nat ux) then 2 ^ Z.of_nat ux else 0.
Proof.
  unfold bit. rewrite Z.shiftl_1_l.
  apply Z.bits_inj'. intros n Hn.
  rewrite Z.land_spec, Z.pow2_bits_eqb by lia.
  destruct (Z.eqb_spec (Z.of_nat ux) n) as [->|Hne].
  - rewrite andb_true_r.
    destruct (Z.testbit b n) eqn:E.
    + rewrite Z.pow2_bits_true; [done|lia].
    + by rewrite Z.bits_0.
  - rewrite andb_false_r.
    destruct (Z.testbit b (Z.of_nat ux)).
    + rewrite Z.pow2_bits_false; [done|lia].
    + by rewrite Z.bits_0.
Qed.

Lemma land_bit_eqb (b : Z) (ux : nat) :
  (Z.land b (bit ux) =? 0) = negb (Z.testbit b (Z.of_nat ux)).
Proof.
  rewrite land_bit_testbit.
  destruct (Z.testbit b (Z.of_nat ux)); simpl; [|done].
  apply Z.eqb_neq. assert (0 < 2 ^ Z.of_nat ux) by (apply Z.pow_pos_nonneg; lia). lia.
Qed.

Lemma testbit_lor_bit (b : Z) (ux i : nat) :
  Z.testbit (Z.lor b (bit ux)) (Z.of_nat i) =
  Z.testbit b (Z.of_nat i) || bool_decide (ux = i).
Proof.
  unfold bit. rewrite Z.lor_spec, Z.shiftl_1_l, Z.pow2_bits_eqb by lia.
  f_equal. case_bool_decide; [apply Z.eqb_eq|apply Z.eqb_neq]; lia.
Qed.

Lemma testbit_clear_bit (b : Z) (ux i : nat) :
  Z.testbit (Z.land b (Z.lnot (bit ux))) (Z.of_nat i) =
  Z.testbit b (Z.of_nat i) && negb (bool_decide (ux = i)).
Proof.
  unfold bit. rewrite Z.land_spec, Z.lnot_spec, Z.shiftl_1_l, Z.pow2_bits_eqb by lia.
  f_equal. f_equal. case_bool_decide; [apply Z.eqb_eq|apply Z.eqb_neq]; lia.
Qed.

(** ** Properties of the PID namespace controller *)

Module PidNsFacts.
Import PidNs.

Definition exhausted (st : state) (ux : nat) : Prop :=
  exists ns, xPidNamespaces st !! ux = Some ns /\ ulNextPid ns > ulMaxPid ns /\
             Z.testbit (uxNamespaceBitmap st) (Z.of_nat ux) = true.

Lemma find_free_clear bitmap ux n s :
  prvFindFreeNamespaceSlot_from bitmap ux n = Some s ->
  Z.testbit bitmap (Z.of_nat s) = false.
Proof.
  revert ux. induction n as [|n IH]; intros ux; simpl; [done|].
  rewrite land_bit_eqb. destruct (Z.testbit bitmap (Z.of_nat ux)) eqn:E; simpl.
  - apply IH.
  - intros [= <-]. done.
Qed.

Lemma create_keeps_exhausted ubits st name ux :
  exhausted st ux -> exhausted (snd (xPidNamespaceCreate ubits st name)) ux.
Proof.
  intros (ns & Hs & Hp & Hb). unfold xPidNamespaceCreate, prvFindFreeNamespaceSlot.
  destruct (prvFindFreeNamespaceSlot_from _ _ _) as [s|] eqn:E; simpl; [|by exists ns].
  apply find_free_clear in E.
  assert (s <> ux) by (intros ->; congruence).
  exists ns. unfold prvInitializeNamespace. simpl.
  rewrite list_lookup_insert_ne by done.
  rewrite testbit_lor_bit, Hb. done.
Qed.

Lemma add_exhausted ubits st ux ns t :
  xPidNamespaces st !! ux = Some ns -> ulNextPid ns > ulMaxPid ns ->
  xPidNamespaceAddTask ubits st (Some ux) t = (pdFAIL, st).
Proof.
  intros Hs Hp. unfold xPidNamespaceAddTask. rewrite Hs.
  destruct (_ || _); [done|].
  destruct (pvTaskGetPidNamespace st t); [done|].
  unfold prvAllocateVirtualPid.
  destruct (Z.gtb_spec (ulNextPid ns) (ulMaxPid ns)); [done|lia].
Qed.

Lemma add_keeps_exhausted ubits st h t ux :
  exhausted st ux -> exhausted (snd (xPidNamespaceAddTask ubits st h t)) ux.
Proof.
  intros (ns & Hs & Hp & Hb). unfold xPidNamespaceAddTask.
  destruct h as [ux'|]; [|by exists ns].
  destruct (xPidNamespaces st !! ux') as [ns'|] eqn:Hs'; [|by exists ns].
  destruct (_ || _); [by exists ns|].
  destruct (pvTaskGetPidNamespace st t); [by exists ns|].
  destruct (decide (ux' = ux)) as [->|Hne].
  { assert (ns' = ns) as -> by congruence.
    unfold prvAllocateVirtualPid.
    destruct (Z.gtb_spec (ulNextPid ns) (ulMaxPid ns)); [|lia]. by exists ns. }
  destruct (prvAllocateVirtualPid ubits ns') as [pid ns1].
  destruct (pid =? 0); [by exists ns|].
  unfold xTaskSetPidNamespace; simpl.
  destruct (xTcbs st !! t); simpl.
  - exists ns. simpl. rewrite !list_lookup_insert_ne by done. done.
  - exists ns. simpl. rewrite !list_lookup_insert_ne by done. done.
Qed.

Lemma delete_keeps_exhausted st h ux :
  h <> Some ux -> exhausted st ux -> exhausted (snd (xPidNamespaceDelete st h)) ux.
Proof.
  intros Hh (ns & Hs & Hp & Hb). unfold xPidNamespaceDelete.
  destruct h as [ux'|]; [|by exists ns].
  destruct (xPidNamespaces st !! ux') as [ns'|]; [|by exists ns].
  destruct (_ =? _); [by exists ns|].
  destruct (_ >? _); [by exists ns|].
  assert (ux' <> ux) by congruence.
  exists ns. simpl. rewrite list_lookup_insert_ne by done.
  rewrite testbit_clear_bit, Hb. by case_bool_decide.
Qed.

Lemma set_tcb_keeps_exhausted st t h pid ux :
  exhausted st ux -> exhausted (snd (xTaskSetPidNamespace st t h pid)) ux.
Proof.
  intros (ns & Hs & Hp & Hb). unfold xTaskSetPidNamespace.
  destruct (xTcbs st !! t); by exists ns.
Qed.

Lemma remove_keeps_exhausted st h t ux :
  exhausted st ux -> exhausted (snd (xPidNamespaceRemoveTask st h t)) ux.
Proof.
  intros Hex. unfold xPidNamespaceRemoveTask.
  destruct h as [ux'|]; [|done].
  destruct (t =? NULL); [done|].
  case_bool_decide; [|done].
  pose proof (set_tcb_keeps_exhausted st t None 0 ux Hex) as H1.
  destruct (xTaskSetPidNamespace st t None 0) as [r st1]. simpl in H1.
  destruct (r =? pdPASS); [|done].
  destruct (xPidNamespaces st1 !! ux') as [ns'|] eqn:Hs'; [|done].
  destruct (_ >? _); [|done].
  destruct H1 as (ns & Hs & Hp & Hb).
  destruct (decide (ux' = ux)) as [->|Hne].
  - assert (ns' = ns) as -> by congruence.
    exists (set_task_count ns (uxTaskCount ns - 1)). simpl.
    rewrite list_lookup_insert_eq by (by eapply lookup_lt_Some). done.
  - exists ns. simpl. rewrite list_lookup_insert_ne by done. done.
Qed.

Lemma task_create_keeps_exhausted st n ux :
  exhausted st ux -> exhausted (snd (xTaskCreate st n)) ux.
Proof. intros (ns & Hs & Hp & Hb). destruct n; by exists ns. Qed.

Lemma create_in_ns_keeps_exhausted ubits st h n ux :
  exhausted st ux -> exhausted (snd (xTaskCreateInNamespace ubits st h n)) ux.
Proof.
  intros Hex. unfold xTaskCreateInNamespace.
  destruct h as [ux'|]; [|done].
  pose proof (task_create_keeps_exhausted st n ux Hex) as H1.
  destruct (xTaskCreate st n) as [[r t] st1]. simpl in H1.
  destruct (r =? pdPASS); [|done].
  pose proof (add_keeps_exhausted ubits st1 (Some ux') t ux H1) as H2.
  destruct (xPidNamespaceAddTask ubits st1 (Some ux') t) as [r2 st2]. simpl in H2.
  by destruct (negb _).
Qed.

Lemma task_delete_keeps_exhausted st t ux :
  exhausted st ux -> exhausted (vTaskDelete (prvPidNamespaceTaskDelete st t) t) ux.
Proof.
  intros Hex.
  assert (exhausted (prvPidNamespaceTaskDelete st t) ux) as (ns & Hs & Hp & Hb).
  { unfold prvPidNamespaceTaskDelete. destruct (t =? NULL); [done|].
    destruct (pvTaskGetPidNamespace st t); [|done].
    by apply remove_keeps_exhausted. }
  by exists ns.
Qed.

(** An operation that does not delete the namespace in slot [ux]. *)
Definition keeps_alive (ux : nat) (o : op) : Prop :=
  match o with
  | OpDelete h => h <> Some ux
  | _ => True
  end.

Lemma run_op_keeps_exhausted ubits st o ux :
  keeps_alive ux o -> exhausted st ux -> exhausted (run_op ubits st o) ux.
Proof.
  destruct o; simpl; intros Hk Hex.
  - by apply create_keeps_exhausted.
  - by apply delete_keeps_exhausted.
  - by apply add_keeps_exhausted.
  - by apply remove_keeps_exhausted.
  - by apply create_in_ns_keeps_exhausted.
  - by apply task_create_keeps_exhausted.
  - by apply task_delete_keeps_exhausted.
Qed.

Lemma run_ops_keeps_exhausted ubits ops st ux :
  Forall (keeps_alive ux) ops -> exhausted st ux -> exhausted (run_ops ubits st ops) ux.
Proof.
  revert st. induction ops as [|o ops IH]; intros st Hall Hex; [done|].
  inversion Hall; subst. simpl. apply IH; [done|].
  by apply run_op_keeps_exhausted.
Qed.

(** C10.  Once a namespace has handed out all its virtual PIDs
    ([ulNextPid > ulMaxPid]), every later [xPidNamespaceAddTask] on it
    returns [pdFAIL] and leaves the whole state unchanged, whatever
    operations ran in between (adding, removing and deleting tasks, creating
    namespaces, deleting other namespaces): removing tasks never makes a
    virtual PID available again while the namespace lives. *)
Theorem exhausted_namespace_rejects_tasks ubits st ux ns ops t :
  xPidNamespaces st !! ux = Some ns ->
  ulNextPid ns > ulMaxPid ns ->
  Z.testbit (uxNamespaceBitmap st) (Z.of_nat ux) = true ->
  Forall (keeps_alive ux) ops ->
  xPidNamespaceAddTask ubits (run_ops ubits st ops) (Some ux) t
  = (pdFAIL, run_ops ubits st ops).
Proof.
  intros Hs Hp Hb Hall.
  destruct (run_ops_keeps_exhausted ubits ops st ux Hall) as (ns' & Hs' & Hp' & _).
  { by exists ns. }
  by eapply add_exhausted.
Qed.

(** Ten tasks, as many as a namespace has virtual PIDs. *)
Definition ten_tasks : list TaskHandle_t := map Z.of_nat (seq 1 10).

Definition fill_ops (h : PidNamespaceHandle_t) : list op :=
  map (fun t => OpCreateInNamespace h (Some t)) ten_tasks.

Definition drain_ops (h : PidNamespaceHandle_t) : list op :=
  map (fun t => OpRemoveTask h t) ten_tasks.

(** A namespace in slot 1, filled with ten tasks. *)
Definition full_state : state :=
  let st0 := prvPidNamespaceInit 32 (boot_state ∅) in
  let '(h, st1) := xPidNamespaceCreate 32 st0 (Some "A"%string) in
  run_ops 32 st1 (fill_ops h).

Definition full_namespace : PidNamespace_t :=
  mkPidNamespace "A" 2 11 10 (replicate configPID_NAMESPACE_MAX_PID NULL) 10 pdTRUE.

(** The theorem at the full namespace, after all ten tasks were removed
    again: task 1 is not taken back. *)
Lemma exhausted_namespace_rejects_tasks_witness :
  uxTaskCount <$> (xPidNamespaces (run_ops 32 full_state (drain_ops (Some 1%nat))) !! 1%nat)
    = Some 0 /\
  xPidNamespaceAddTask 32 (run_ops 32 full_state (drain_ops (Some 1%nat))) (Some 1%nat) 1
  = (pdFAIL, run_ops 32 full_state (drain_ops (Some 1%nat))).
Proof.
  split; [vm_compute; reflexivity|].
  apply (exhausted_namespace_rejects_tasks 32 full_state 1 full_namespace
           (drain_ops (Some 1%nat)) 1).
  - vm_compute; reflexivity.
  - vm_compute; reflexivity.
  - vm_compute; reflexivity.
  - unfold drain_ops, ten_tasks. simpl. repeat constructor.
Defined.

(** The task arrays are never written after initialisation, so the search of
    [xPidNamespaceFindTaskByVirtualPid] has nothing to find. *)

(** No namespace has a task in its task array. *)
Definition arrays_empty_ns (ns : PidNamespace_t) : Prop :=
  Forall (fun t => t = NULL) (xTasks ns).

Definition arrays_empty (st : state) : Prop :=
  Forall arrays_empty_ns (xPidNamespaces st).

Lemma find_in_null_tasks st l pid :
  Forall (fun t => t = NULL) l -> find_in_tasks st l pid = NULL.
Proof. induction 1 as [|t l -> _ IH]; simpl; [done|]. apply IH. Qed.

Lemma find_in_empty_arrays st h pid :
  arrays_empty st -> xPidNamespaceFindTaskByVirtualPid st h pid = NULL.
Proof.
  intros Hall. unfold xPidNamespaceFindTaskByVirtualPid.
  destruct h as [ux|]; [|done].
  destruct (xPidNamespaces st !! ux) as [ns|] eqn:E; [|done].
  destruct (_ || _); [done|].
  apply find_in_null_tasks, Forall_take.
  unfold arrays_empty in Hall. rewrite Forall_lookup in Hall. by apply (Hall ux).
Qed.

Lemma arrays_empty_update st ux ns ns' :
  arrays_empty st -> xPidNamespaces st !! ux = Some ns -> xTasks ns' = xTasks ns ->
  Forall arrays_empty_ns (<[ux := ns']> (xPidNamespaces st)).
Proof.
  intros Hall Hs Ht. apply Forall_insert; [done|].
  unfold arrays_empty_ns. rewrite Ht.
  unfold arrays_empty in Hall. rewrite Forall_lookup in Hall. by apply (Hall ux).
Qed.

Lemma create_keeps_arrays_empty ubits st name :
  arrays_empty st -> arrays_empty (snd (xPidNamespaceCreate ubits st name)).
Proof.
  intros Hall. unfold xPidNamespaceCreate.
  destruct (prvFindFreeNamespaceSlot st); [|done]. simpl.
  apply Forall_insert; [done|]. apply Forall_replicate; done.
Qed.

Lemma add_keeps_arrays_empty ubits st h t :
  arrays_empty st -> arrays_empty (snd (xPidNamespaceAddTask ubits st h t)).
Proof.
  intros Hall. unfold xPidNamespaceAddTask.
  destruct h as [ux|]; [|done].
  destruct (xPidNamespaces st !! ux) as [ns|] eqn:Hs; [|done].
  destruct (_ || _); [done|].
  destruct (pvTaskGetPidNamespace st t); [done|].
  unfold prvAllocateVirtualPid. destruct (_ >? _); [done|]. simpl.
  destruct (_ =? 0); [done|].
  unfold xTaskSetPidNamespace. simpl.
  destruct (xTcbs st !! t); simpl.
  - apply Forall_insert; [by eapply arrays_empty_update|].
    unfold arrays_empty in Hall. rewrite Forall_lookup in Hall. by apply (Hall ux ns).
  - by eapply arrays_empty_update.
Qed.

Lemma remove_keeps_arrays_empty st h t :
  arrays_empty st -> arrays_empty (snd (xPidNamespaceRemoveTask st h t)).
Proof.
  intros Hall. unfold xPidNamespaceRemoveTask.
  destruct h as [ux|]; [|done].
  destruct (t =? NULL); [done|]. case_bool_decide; [|done].
  unfold xTaskSetPidNamespace. destruct (xTcbs st !! t); simpl; [|done].
  destruct (xPidNamespaces st !! ux) as [ns|] eqn:Hs; [|done].
  destruct (_ >? _); [|done]. simpl. by eapply arrays_empty_update.
Qed.

Lemma delete_keeps_arrays_empty st h :
  arrays_empty st -> arrays_empty (snd (xPidNamespaceDelete st h)).
Proof.
  intros Hall. unfold xPidNamespaceDelete.
  destruct h as [ux|]; [|done].
  destruct (xPidNamespaces st !! ux) as [ns|] eqn:Hs; [|done].
  destruct (_ =? _); [done|]. destruct (_ >? _); [done|].
  simpl. by eapply arrays_empty_update.
Qed.

Lemma run_op_keeps_arrays_empty ubits st o :
  arrays_empty st -> arrays_empty (run_op ubits st o).
Proof.
  intros Hall. destruct o as [name|h|h t|h t|h n|n|t]; simpl.
  - by apply create_keeps_arrays_empty.
  - by apply delete_keeps_arrays_empty.
  - by apply add_keeps_arrays_empty.
  - by apply remove_keeps_arrays_empty.
  - unfold xTaskCreateInNamespace. destruct h as [ux|]; [|done].
    destruct n as [t|]; [|done].
    unfold xTaskCreate. change (pdPASS =? pdPASS) with true. cbv beta iota zeta.
    pose proof (add_keeps_arrays_empty ubits
                  (set_tcbs st (<[t := mkTcb None 0]> (xTcbs st))) (Some ux) t Hall) as H.
    destruct (xPidNamespaceAddTask _ _ _ _) as [r st2]. by destruct (negb _).
  - by destruct n.
  - unfold prvPidNamespaceTaskDelete. destruct (t =? NULL); [done|].
    destruct (pvTaskGetPidNamespace st t) as [ux|]; [|done].
    apply (remove_keeps_arrays_empty st (Some ux) t Hall).
Qed.

Lemma init_arrays_empty ubits tcbs :
  arrays_empty (prvPidNamespaceInit ubits (boot_state tcbs)).
Proof. unfold arrays_empty. cbv -[wrapU]. repeat constructor. Qed.

(** Whatever the public interface is used for after initialisation, a lookup
    by virtual PID finds no task. *)
Lemma find_by_virtual_pid_finds_nothing ubits tcbs ops h pid :
  xPidNamespaceFindTaskByVirtualPid
    (run_ops ubits (prvPidNamespaceInit ubits (boot_state tcbs)) ops) h pid = NULL.
Proof.
  apply find_in_empty_arrays.
  generalize (init_arrays_empty ubits tcbs).
  generalize (prvPidNamespaceInit ubits (boot_state tcbs)).
  induction ops as [|o ops IH]; intros st Hall; [done|].
  simpl. apply IH. by apply run_op_keeps_arrays_empty.
Qed.

Definition two_tasks : gmap Z Tcb := {[ 4096 := mkTcb None 0; 8192 := mkTcb None 0 ]}.

(** C1.  Two namespaces A and B are created and one task is added to each;
    both tasks get virtual PID 1.  The specification expects the lookup of
    PID 1 in A to return task-A and in B task-B; the code returns the null
    handle for both, so the two results are equal. *)
Theorem find_by_virtual_pid_misses_bound_tasks :
  let st0 := prvPidNamespaceInit 32 (boot_state two_tasks) in
  let '(hA, st1) := xPidNamespaceCreate 32 st0 (Some "A"%string) in
  let '(hB, st2) := xPidNamespaceCreate 32 st1 (Some "B"%string) in
  let '(rA, st3) := xPidNamespaceAddTask 32 st2 hA 4096 in
  let '(rB, st4) := xPidNamespaceAddTask 32 st3 hB 8192 in
  hA <> None /\ hB <> None /\ hA <> hB /\ rA = pdPASS /\ rB = pdPASS /\
  xPidNamespaceGetTaskVirtualPid st4 4096 = 1 /\
  xPidNamespaceGetTaskVirtualPid st4 8192 = 1 /\
  xPidNamespaceGetTaskNamespace st4 4096 = hA /\
  xPidNamespaceGetTaskNamespace st4 8192 = hB /\
  xPidNamespaceFindTaskByVirtualPid st4 hA 1 = NULL /\
  xPidNamespaceFindTaskByVirtualPid st4 hB 1 = NULL.
Proof. vm_compute. repeat split; congruence. Qed.

(** C8.  Right after initialisation the root namespace sits in slot 0 and is
    active; [xPidNamespaceDelete] on the root handle returns [pdPASS] and
    leaves the root namespace inactive.  The specification expects failure
    and an unchanged, active root. *)
Theorem root_namespace_can_be_deleted (ubits : Z) (tcbs : gmap Z Tcb) :
  let st0 := prvPidNamespaceInit ubits (boot_state tcbs) in
  let '(r, st1) := xPidNamespaceDelete st0 (xPidNamespaceGetRoot st0) in
  xPidNamespaceGetRoot st0 = Some 0%nat /\
  xActive <$> (xPidNamespaces st0 !! 0%nat) = Some pdTRUE /\
  r = pdPASS /\
  xPidNamespaceGetRoot st1 = Some 0%nat /\
  xActive <$> (xPidNamespaces st1 !! 0%nat) = Some pdFALSE.
Proof. cbv -[wrapU]. done. Qed.

Lemma add_keeps_tasks ubits st h t t' :
  task_exists st t' = true ->
  task_exists (snd (xPidNamespaceAddTask ubits st h t)) t' = true.
Proof.
  intros Ht. unfold xPidNamespaceAddTask.
  destruct h as [ux|]; [|done].
  destruct (xPidNamespaces st !! ux) as [ns|]; [|done].
  destruct (_ || _); [done|].
  destruct (pvTaskGetPidNamespace st t); [done|].
  destruct (prvAllocateVirtualPid ubits ns) as [pid ns1].
  destruct (pid =? 0); [done|].
  unfold xTaskSetPidNamespace. simpl.
  destruct (xTcbs st !! t) eqn:E; simpl; [|done].
  unfold task_exists in *. simpl. apply bool_decide_eq_true.
  apply bool_decide_eq_true in Ht.
  destruct (decide (t = t')) as [->|Hne].
  - rewrite lookup_insert_eq. eauto.
  - by rewrite lookup_insert_ne.
Qed.

(** Whenever the task is created and the bind fails, the task is still there
    when [xTaskCreateInNamespace] returns. *)
Lemma failed_bind_keeps_task ubits st h t :
  let '(r, created, st') := xTaskCreateInNamespace ubits st (Some h) (Some t) in
  r <> pdPASS -> task_exists st' t = true.
Proof.
  unfold xTaskCreateInNamespace, xTaskCreate.
  change (pdPASS =? pdPASS) with true. cbv beta iota zeta.
  pose proof (add_keeps_tasks ubits (set_tcbs st (<[t := mkTcb None 0]> (xTcbs st)))
                (Some h) t t) as H.
  destruct (xPidNamespaceAddTask _ _ _ _) as [r st2]. simpl in H.
  assert (task_exists st2 t = true) as Hex.
  { apply H. unfold task_exists. simpl. apply bool_decide_eq_true.
    rewrite lookup_insert_eq. eauto. }
  by destruct (negb _).
Qed.

(** C9.  In a namespace that already holds ten tasks, creating an eleventh
    through [xTaskCreateInNamespace] creates the task, fails to bind it,
    stores a null handle for the caller and returns [pdFAIL]; the task that
    was created still exists afterwards, bound to no namespace.  The
    specification expects it to be deleted. *)
Theorem task_survives_failed_bind :
  let '(r, created, st') := xTaskCreateInNamespace 32 full_state (Some 1%nat) (Some 11) in
  task_exists full_state 11 = false /\
  r = pdFAIL /\ created = Some NULL /\
  task_exists st' 11 = true /\
  pvTaskGetPidNamespace st' 11 = None.
Proof. vm_compute. repeat split; congruence. Qed.

End PidNsFacts.

(** ** Properties of the IPC namespace controller *)

Module IpcNsFacts.
Import IpcNs.

(** The IPC namespace a task acts in: its own, or the root namespace when it
    is bound to none. *)
Definition task_namespace (st : state) (xTask : TaskHandle_t) : IpcNamespaceHandle_t :=
  match xIpcNamespaceGetTaskNamespace st xTask with
  | None => xRootNamespace st
  | Some h => Some h
  end.

(** The entry table proper. *)
Definition registry (st : state) : list IpcObjectEntry_t :=
  take uxMaxEntries (xIpcObjectEntries st).

(** Entry [e] at index [i] is the first entry of the table that holds [obj]. *)
Definition first_entry_for (l : list IpcObjectEntry_t) (obj : Z) (i : nat)
    (e : IpcObjectEntry_t) : Prop :=
  l !! i = Some e /\ pvIpcObject e = obj /\
  forall j e', (j < i)%nat -> l !! j = Some e' -> pvIpcObject e' <> obj.

Lemma check_entries_registered l obj tns root i e :
  first_entry_for l obj i e ->
  check_entries l obj tns root = pdTRUE <-> (tns = xNamespace e \/ tns = root).
Proof.
  revert i. induction l as [|x l IH]; intros i (Hi & Ho & Hfirst); [done|].
  simpl. destruct i as [|i].
  - simpl in Hi. injection Hi as ->. rewrite Ho, Z.eqb_refl.
    repeat case_bool_decide; split; intros Hx; try done; auto; destruct Hx; congruence.
  - destruct (Z.eqb_spec (pvIpcObject x) obj) as [Heq|Hne].
    + exfalso. eapply (Hfirst 0%nat x); [lia|done|done].
    + apply (IH i). split; [done|]. split; [done|].
      intros j e' Hj He'. apply (Hfirst (S j) e'); [lia|done].
Qed.

Lemma check_entries_unregistered l obj tns root :
  (forall e, e ∈ l -> pvIpcObject e <> obj) ->
  check_entries l obj tns root = pdTRUE.
Proof.
  induction l as [|x l IH]; intros H; [done|]. simpl.
  destruct (Z.eqb_spec (pvIpcObject x) obj) as [Heq|Hne].
  - exfalso. apply (H x); [left|done].
  - apply IH. intros e He. apply H. by right.
Qed.

(** C2 (amended).  An object is a non-null pointer, and it may have more
    than one registry entry.  For an object that has a registry entry,
    [xIpcNamespaceCheckAccess] grants access exactly when the task's IPC
    namespace (the root namespace when the task is bound to none) is the
    owner namespace of the first entry, in table order, that holds the
    object, or is the root namespace; for an object without any entry it
    grants access.  The null pointer, which is no object, is denied. *)
Theorem check_access_by_namespace st T obj :
  (obj <> NULL ->
   forall i e, first_entry_for (registry st) obj i e ->
     xIpcNamespaceCheckAccess st T obj = pdTRUE <->
     (task_namespace st T = xNamespace e \/ task_namespace st T = xRootNamespace st)) /\
  (obj <> NULL ->
   (forall e, e ∈ registry st -> pvIpcObject e <> obj) ->
   xIpcNamespaceCheckAccess st T obj = pdTRUE) /\
  xIpcNamespaceCheckAccess st T NULL = pdFALSE.
Proof.
  unfold xIpcNamespaceCheckAccess, task_namespace, registry. split; [|split].
  - intros Hn i e Hf. destruct (Z.eqb_spec obj NULL); [done|].
    by apply check_entries_registered with i.
  - intros Hn Hall. destruct (Z.eqb_spec obj NULL); [done|].
    by apply check_entries_unregistered.
  - done.
Qed.

(** Namespaces A (slot 1) and B (slot 2) besides the root; task 4096 in A,
    task 8192 in B, task 12288 bound to none; queue 500 registered in A. *)
Definition demo_state : state :=
  let st0 := vIpcNamespaceInit 32 (boot_state ∅ 4096) in
  let '(hA, st1) := xIpcNamespaceCreate 32 st0 (Some "A"%string) in
  let '(hB, st2) := xIpcNamespaceCreate 32 st1 (Some "B"%string) in
  let '(_, st3) := xIpcNamespaceSetTaskNamespace st2 4096 hA in
  let '(_, st4) := xIpcNamespaceSetTaskNamespace st3 8192 hB in
  snd (ulIpcNamespaceRegisterObject 32 16 st4 hA 500 IPC_TYPE_QUEUE (Some "Q_A"%string)).

Definition demo_entry : IpcObjectEntry_t := mkEntry 500 IPC_TYPE_QUEUE "Q_A" 1 (Some 1%nat).

Lemma demo_first_entry : first_entry_for (registry demo_state) 500 0 demo_entry.
Proof. split; [|split]; [vm_compute; reflexivity | reflexivity | intros j e' Hj; lia]. Qed.

(** The theorem at [demo_state]: the owner and an unbound (root) task may
    use the queue, the task of namespace B may not, an unregistered object is
    open to B, and the null pointer is refused. *)
Lemma check_access_by_namespace_witness :
  xIpcNamespaceCheckAccess demo_state 4096 500 = pdTRUE /\
  xIpcNamespaceCheckAccess demo_state 12288 500 = pdTRUE /\
  xIpcNamespaceCheckAccess demo_state 8192 500 <> pdTRUE /\
  xIpcNamespaceCheckAccess demo_state 8192 600 = pdTRUE /\
  xIpcNamespaceCheckAccess demo_state 8192 NULL = pdFALSE.
Proof.
  assert (500 <> NULL) as H500 by (vm_compute; congruence).
  assert (600 <> NULL) as H600 by (vm_compute; congruence).
  split; [|split; [|split; [|split]]].
  - apply (proj1 (check_access_by_namespace demo_state 4096 500) H500 0%nat demo_entry
             demo_first_entry).
    left. vm_compute. reflexivity.
  - apply (proj1 (check_access_by_namespace demo_state 12288 500) H500 0%nat demo_entry
             demo_first_entry).
    right. vm_compute. reflexivity.
  - intros H.
    apply (proj1 (check_access_by_namespace demo_state 8192 500) H500 0%nat demo_entry
             demo_first_entry) in H.
    destruct H as [H|H]; vm_compute in H; congruence.
  - apply (proj1 (proj2 (check_access_by_namespace demo_state 8192 600)) H600).
    intros e He Hobj.
    assert (Forall (fun e => pvIpcObject e <> 600) (registry demo_state)) as Hall.
    { vm_compute. repeat constructor; congruence. }
    rewrite Forall_forall in Hall. by apply (Hall e).
  - apply (proj2 (proj2 (check_access_by_namespace demo_state 8192 500))).
Defined.

(** Queue 500, registered in A, is registered in B as well:
    [ulIpcNamespaceRegisterObject] does not look for an entry that holds the
    object already. *)
Definition twice_registered : state :=
  snd (ulIpcNamespaceRegisterObject 32 16 demo_state (Some 2%nat) 500 IPC_TYPE_QUEUE
         (Some "Q_B"%string)).

Definition second_entry : IpcObjectEntry_t := mkEntry 500 IPC_TYPE_QUEUE "Q_B" 1 (Some 2%nat).

(** C2 as stated fails for an object with two registry entries: queue 500
    has an entry owned by namespace B, the namespace of task 8192, the
    registration in B having succeeded; yet access is denied to the task,
    because the entry of namespace A comes first in the table and is the
    only one that is looked at. *)
Lemma check_access_ignores_later_entries :
  fst (ulIpcNamespaceRegisterObject 32 16 demo_state (Some 2%nat) 500 IPC_TYPE_QUEUE
         (Some "Q_B"%string)) = 1 /\
  registry twice_registered !! 0%nat = Some demo_entry /\
  registry twice_registered !! 1%nat = Some second_entry /\
  pvIpcObject second_entry = 500 /\
  task_namespace twice_registered 8192 = xNamespace second_entry /\
  task_namespace twice_registered 8192 <> xRootNamespace twice_registered /\
  xIpcNamespaceCheckAccess twice_registered 8192 500 = pdFALSE /\
  pdFALSE <> pdTRUE.
Proof. vm_compute. repeat split; congruence. Qed.

End IpcNsFacts.

(** ** Properties of the cgroup controller *)

Module CGroupFacts.
Import CGroup.

(** The state [xCGroupCreate] and [xCGroupSetCpuQuota] leave the CPU fields
    in: the penalty counter is unsigned and the tick quota is the no-limit
    marker when the quota is [CGROUP_CPU_QUOTA_MAX] and the quota itself
    otherwise.  The quota is not the memory sentinel [CGROUP_NO_LIMIT], or
    else the tick counter has not reached the all-ones value. *)
Definition cpu_fields_wf (ubits : Z) (c : CpuLimits_t) : Prop :=
  0 <= ulPenaltyTicksLeft c /\
  ulTicksQuota c = ticks_quota_of ubits (ulCpuQuota c) /\
  (ulCpuQuota c <> CGROUP_NO_LIMIT ubits \/ ulTicksUsed c < CGROUP_NO_LIMIT ubits).

(** The operations on the controller: its public interface, a task switch
    and the tick.  A call that divides by a zero quota has no result and
    does not return: [run_op] leaves the state as it was before such a call,
    so the states of a run are the states reached by the calls that
    return. *)
Inductive op :=
| OpCreate (pcGroupName : string) (ulMemoryLimit ulCpuQuota : Z)
| OpDelete (xCGroup : CGroupHandle_t)
| OpAddTask (xCGroup : CGroupHandle_t) (xTask : TaskHandle_t)
| OpRemoveTask (xCGroup : CGroupHandle_t) (xTask : TaskHandle_t)
| OpSetCpuQuota (xCGroup : CGroupHandle_t) (ulCpuQuota : Z)
| OpUpdateMemoryUsage (xTask : TaskHandle_t) (lMemoryDelta : Z)
| OpGetStats (xCGroup : CGroupHandle_t)
| OpSetMemoryLimit (xCGroup : CGroupHandle_t) (ulMemoryLimit : Z)
| OpResetMemoryStats (xCGroup : CGroupHandle_t)
| OpSwitch (xTask : TaskHandle_t)
| OpTick.

Definition run_op (ubits tbits W : Z) (st : state) (o : op) : state :=
  match o with
  | OpCreate n m q => snd (xCGroupCreate ubits W st n m q)
  | OpDelete h => snd (xCGroupDelete st h)
  | OpAddTask h t => snd (xCGroupAddTask ubits st h t)
  | OpRemoveTask h t => snd (xCGroupRemoveTask ubits st h t)
  | OpSetCpuQuota h q => snd (xCGroupSetCpuQuota ubits st h q)
  | OpUpdateMemoryUsage t d => snd (xCGroupUpdateMemoryUsage ubits st t d)
  | OpGetStats h =>
      match xCGroupGetStats ubits tbits W st h with
      | Some r => snd r
      | None => st
      end
  | OpSetMemoryLimit h m => snd (xCGroupSetMemoryLimit st h m)
  | OpResetMemoryStats h => snd (xCGroupResetMemoryStats st h)
  | OpSwitch t => set_current st t
  | OpTick =>
      match xTaskIncrementTick ubits tbits W st with
      | Some st' => st'
      | None => st
      end
  end.

(** Whether the call of an operation returns. *)
Definition returns (ubits tbits W : Z) (st : state) (o : op) : bool :=
  match o with
  | OpGetStats h =>
      match xCGroupGetStats ubits tbits W st h with Some _ => true | None => false end
  | OpTick =>
      match xTaskIncrementTick ubits tbits W st with Some _ => true | None => false end
  | _ => true
  end.

(** The calls of a run that return, and that every call of a run returns. *)
Fixpoint returning_calls (ubits tbits W : Z) (st : state) (ops : list op) : list op :=
  match ops with
  | [] => []
  | o :: rest =>
      if returns ubits tbits W st o
      then o :: returning_calls ubits tbits W (run_op ubits tbits W st o) rest
      else returning_calls ubits tbits W st rest
  end.

Fixpoint all_return (ubits tbits W : Z) (st : state) (ops : list op) : bool :=
  match ops with
  | [] => true
  | o :: rest =>
      returns ubits tbits W st o && all_return ubits tbits W (run_op ubits tbits W st o) rest
  end.

(** The state a run reaches is reached by a run all of whose calls
    return. *)
Lemma run_of_returning_calls ubits tbits W st ops :
  all_return ubits tbits W st (returning_calls ubits tbits W st ops) = true /\
  fold_left (run_op ubits tbits W) (returning_calls ubits tbits W st ops) st =
  fold_left (run_op ubits tbits W) ops st.
Proof.
  revert st. induction ops as [|o rest IH]; intros st; simpl; [done|].
  destruct (returns ubits tbits W st o) eqn:E; simpl.
  - rewrite E. simpl. apply IH.
  - assert (run_op ubits tbits W st o = st) as ->; [|apply IH].
    revert E. destruct o; simpl; try done.
    + by destruct (xCGroupGetStats _ _ _ _ _).
    + by destruct (xTaskIncrementTick _ _ _ _).
Qed.

(** The CPU quota given to [xCGroupCreate] is a quota or
    [CGROUP_CPU_QUOTA_MAX], not the memory sentinel [CGROUP_NO_LIMIT]. *)
Definition quota_in_domain (ubits : Z) (o : op) : Prop :=
  match o with
  | OpCreate _ _ q => q <> CGROUP_NO_LIMIT ubits
  | _ => True
  end.

Definition slot_ok (ubits : Z) (g : CGroup_t) : Prop :=
  0 <= ulPenaltyTicksLeft (xCpuLimits g) /\
  ulTicksQuota (xCpuLimits g) = ticks_quota_of ubits (ulCpuQuota (xCpuLimits g)) /\
  ulCpuQuota (xCpuLimits g) <> CGROUP_NO_LIMIT ubits.

Lemma slot_ok_wf ubits g : slot_ok ubits g -> cpu_fields_wf ubits (xCpuLimits g).
Proof. intros (H1 & H2 & H3). split; [done|]. split; [done|]. by left. Qed.

Lemma wrapU_nonneg ubits x : 0 <= ubits -> 0 <= wrapU ubits x.
Proof.
  intros Hu. unfold wrapU. apply Z.mod_pos_bound. by apply Z.pow_pos_nonneg.
Qed.

Lemma slots_ok_update ubits (l : list CGroup_t) i g g' :
  Forall (slot_ok ubits) l -> l !! i = Some g ->
  (slot_ok ubits g -> slot_ok ubits g') ->
  Forall (slot_ok ubits) (<[i := g']> l).
Proof.
  intros Hall Hi Himp. apply Forall_insert; [done|]. apply Himp.
  rewrite Forall_lookup in Hall. by apply (Hall i).
Qed.

(** What the loop of [prvCGroupUpdateTick] leaves in each slot, when it
    returns. *)
Definition slot_step (ubits tbits W bitmap now : Z) (xIndex : nat) (g : CGroup_t)
  : option CGroup_t :=
  if (xIndex <? configMAX_CGROUPS)%nat
  then update_slot ubits tbits W bitmap now xIndex g else Some g.

Lemma update_slots_lookup ubits tbits W bitmap now k gs gs' :
  update_slots ubits tbits W bitmap now k gs = Some gs' ->
  forall i, gs' !! i = gs !! i ≫= slot_step ubits tbits W bitmap now (k + i).
Proof.
  revert k gs'. induction gs as [|g rest IH]; intros k gs'; simpl.
  { intros [= <-] i. done. }
  fold (slot_step ubits tbits W bitmap now k g).
  destruct (slot_step ubits tbits W bitmap now k g) as [g'|] eqn:Eg; [|done].
  destruct (update_slots ubits tbits W bitmap now (S k) rest) as [rest'|] eqn:Er; [|done].
  intros [= <-] [|i]; simpl.
  - by rewrite Nat.add_0_r, Eg.
  - rewrite (IH (S k) rest' Er i). by replace (S k + i)%nat with (k + S i)%nat by lia.
Qed.

Lemma update_slots_length ubits tbits W bitmap now k gs gs' :
  update_slots ubits tbits W bitmap now k gs = Some gs' -> length gs' = length gs.
Proof.
  revert k gs'. induction gs as [|g rest IH]; intros k gs'; simpl.
  { by intros [= <-]. }
  destruct (if (k <? configMAX_CGROUPS)%nat then _ else _); [|done].
  destruct (update_slots ubits tbits W bitmap now (S k) rest) as [rest'|] eqn:Er; [|done].
  intros [= <-]. simpl. f_equal. by eapply IH.
Qed.

Lemma update_slots_defined ubits tbits W bitmap now k gs :
  (forall i g, gs !! i = Some g -> is_Some (slot_step ubits tbits W bitmap now (k + i) g)) ->
  is_Some (update_slots ubits tbits W bitmap now k gs).
Proof.
  revert k. induction gs as [|g rest IH]; intros k Hall; simpl; [done|].
  fold (slot_step ubits tbits W bitmap now k g).
  destruct (Hall 0%nat g eq_refl) as [g' Hg']. rewrite Nat.add_0_r in Hg'. rewrite Hg'.
  destruct (IH (S k)) as [rest' ->]; [|done].
  intros i gi Hi. replace (S k + i)%nat with (k + S i)%nat by lia. by apply Hall.
Qed.

(** A property of the slots that one tick keeps in every slot is kept by
    the loop. *)
Lemma update_slots_Forall (P : CGroup_t -> Prop) ubits tbits W bitmap now k gs gs' :
  (forall i g g', update_slot ubits tbits W bitmap now i g = Some g' -> P g -> P g') ->
  update_slots ubits tbits W bitmap now k gs = Some gs' ->
  Forall P gs -> Forall P gs'.
Proof.
  intros Hstep Hrun Hall. apply Forall_lookup. intros i g' Hi.
  rewrite (update_slots_lookup _ _ _ _ _ _ _ _ Hrun) in Hi.
  destruct (gs !! i) as [g|] eqn:E; [|done]. simpl in Hi.
  rewrite Forall_lookup in Hall. specialize (Hall i g E).
  unfold slot_step in Hi. destruct (_ <? _)%nat; [|by injection Hi as <-].
  by eapply Hstep.
Qed.

(** The same for the running task's charge. *)
Lemma charge_Forall (P : CGroup_t -> Prop) ubits st :
  (forall g u, P g -> P (set_cpu g (set_ticks_used (xCpuLimits g) u))) ->
  Forall P (xCGroups st) -> Forall P (xCGroups (charge_current_task ubits st)).
Proof.
  intros Hstep Hall. unfold charge_current_task. destruct (_ =? NULL); [done|].
  destruct (prvGetCGroupFromTask _ _) as [j|]; [|done]. simpl.
  apply Forall_lookup. intros i g. rewrite list_lookup_alter.
  rewrite Forall_lookup in Hall. specialize (Hall i).
  destruct (decide (j = i)) as [->|Hne]; [|by apply Hall].
  destruct (xCGroups st !! i) as [g1|]; [|done]. simpl. intros [= <-].
  by apply Hstep, Hall.
Qed.

Lemma update_window_ok ubits tbits W now g g1 :
  0 <= ubits -> slot_ok ubits g ->
  prvUpdateCpuWindow ubits tbits W now g = Some g1 -> slot_ok ubits g1.
Proof.
  intros Hu (Hp & Hl & Hq).
  unfold prvUpdateCpuWindow. destruct (window_elapsed _ _ _); [|by intros [= <-]].
  destruct (prvCalculatePenalty ubits W g) as [g2|] eqn:E; [|done]. intros [= <-].
  assert (slot_ok ubits g2) as (Hp2 & Hl2 & Hq2).
  { revert E. unfold prvCalculatePenalty. destruct (_ && _); [|by intros [= <-]].
    destruct (_ =? 0); [done|]. intros [= <-].
    unfold slot_ok. simpl. split; [apply wrapU_nonneg; exact Hu|]. split; [exact Hl|exact Hq]. }
  unfold slot_ok, start_window. simpl.
  destruct (Z.gtb_spec (ulPenaltyTicksLeft (xCpuLimits g2)) 0); simpl; [|by split].
  destruct (_ >? 1) eqn:E1; simpl; (split; [|by split]); [|lia].
  apply Z.gtb_lt in E1. lia.
Qed.

Lemma update_slot_ok ubits tbits W bitmap now i g g' :
  0 <= ubits -> update_slot ubits tbits W bitmap now i g = Some g' ->
  slot_ok ubits g -> slot_ok ubits g'.
Proof.
  intros Hu Hrun Hok. revert Hrun. unfold update_slot. destruct (_ && _); [|by intros [= <-]].
  destruct (prvUpdateCpuWindow ubits tbits W now g) as [g1|] eqn:E; [|done]. intros [= <-].
  destruct (update_window_ok ubits tbits W now g g1 Hu Hok E) as (Hp1 & Hl1 & Hq1).
  unfold reduce_penalty.
  destruct (_ >? 0); [|done]. unfold slot_ok. simpl. split; [by apply wrapU_nonneg|by split].
Qed.

Lemma run_op_slots_ok ubits tbits W st o :
  0 <= ubits -> CGROUP_CPU_QUOTA_MAX < CGROUP_NO_LIMIT ubits ->
  quota_in_domain ubits o ->
  Forall (slot_ok ubits) (xCGroups st) ->
  Forall (slot_ok ubits) (xCGroups (run_op ubits tbits W st o)).
Proof.
  intros Hu Hmax Hdom Hall. destruct o as [n m q|h|h t|h t|h q|t d|h|h m|h|t|]; simpl.
  - unfold xCGroupCreate. destruct (prvFindFreeCGroupSlot st); [|done]. simpl.
    apply Forall_insert; [done|]. split; [done|]. split; done.
  - unfold xCGroupDelete. destruct (prvGetCGroupIndex h) as [i|]; [|done].
    destruct (xCGroups st !! i) as [g|] eqn:E; [|done].
    destruct (_ >? 0); [done|]. simpl. by eapply slots_ok_update.
  - unfold xCGroupAddTask. destruct h as [i|]; [|done].
    destruct (xCGroups st !! i) as [g|] eqn:E; [|done].
    destruct (_ || _); [done|].
    unfold prvAddTaskToMap. destruct (_ <=? _)%nat; [done|].
    destruct (prvGetCGroupFromTask st t); [done|]. simpl. by eapply slots_ok_update.
  - unfold xCGroupRemoveTask. destruct h as [i|]; [|done].
    destruct (t =? NULL); [done|]. destruct (negb _); [done|].
    unfold prvRemoveTaskFromMap. destruct (map_index_from _ _ _); [|done]. simpl.
    destruct (xCGroups st !! i) as [g|] eqn:E; [|done]. simpl. by eapply slots_ok_update.
  - unfold xCGroupSetCpuQuota. destruct h as [i|]; [|done].
    destruct (xCGroups st !! i) as [g|] eqn:E; [|done].
    destruct (_ =? _); [done|].
    destruct (Z.gtb_spec q CGROUP_CPU_QUOTA_MAX); [done|]. simpl.
    eapply slots_ok_update; [done|done|]. intros (Hp & _ & _).
    split; [done|]. split; [done|]. simpl. lia.
  - unfold xCGroupUpdateMemoryUsage. destruct (_ =? NULL); [done|].
    destruct (prvGetCGroupFromTask st t) as [i|]; [|done]. simpl.
    apply Forall_lookup. intros j g. rewrite list_lookup_alter.
    rewrite Forall_lookup in Hall. specialize (Hall j).
    destruct (decide (i = j)) as [->|Hne]; [|by apply Hall].
    destruct (xCGroups st !! j) as [g0|]; [|done]. simpl. intros [= <-].
    specialize (Hall g0 eq_refl). by destruct (wrapS ubits d >? 0).
  - unfold xCGroupGetStats. destruct h as [i|]; [|done].
    destruct (xCGroups st !! i) as [g|] eqn:E; [|done].
    destruct (_ =? _); [done|].
    destruct (prvUpdateCpuWindow ubits tbits W (xTickCount st) g) as [g1|] eqn:E1; [|done].
    simpl. eapply slots_ok_update; [done|done|]. intros Hok. by eapply update_window_ok.
  - unfold xCGroupSetMemoryLimit. destruct h as [i|]; [|done].
    destruct (xCGroups st !! i) as [g|] eqn:E; [|done].
    destruct (_ =? _); [done|]. simpl. by eapply slots_ok_update.
  - unfold xCGroupResetMemoryStats. destruct h as [i|]; [|done].
    destruct (xCGroups st !! i) as [g|] eqn:E; [|done].
    destruct (_ =? _); [done|]. simpl. by eapply slots_ok_update.
  - done.
  - unfold xTaskIncrementTick, prvCGroupUpdateTick.
    destruct (update_slots _ _ _ _ _ _ _) as [gs|] eqn:E; [|done]. simpl.
    eapply update_slots_Forall; [|exact E|].
    + intros i g g'. by apply update_slot_ok.
    + apply charge_Forall; [|done]. by intros g u.
Qed.

(** The admission test, for a task whose cgroup has well-formed CPU fields. *)
Lemma can_run_when_fields_wf ubits st T :
  (forall i, prvGetCGroupFromTask st T = Some i ->
     exists g, xCGroups st !! i = Some g /\ cpu_fields_wf ubits (xCpuLimits g)) ->
  prvCGroupCanTaskRun ubits st T = pdTRUE <->
  (prvGetCGroupFromTask st T = None \/
   exists i g, prvGetCGroupFromTask st T = Some i /\ xCGroups st !! i = Some g /\
     ulPenaltyTicksLeft (xCpuLimits g) = 0 /\
     (ulCpuQuota (xCpuLimits g) = CGROUP_CPU_QUOTA_MAX \/
      ulTicksUsed (xCpuLimits g) < ulCpuQuota (xCpuLimits g))).
Proof.
  intros Hwf. unfold prvCGroupCanTaskRun.
  destruct (Z.eqb_spec T NULL) as [->|HT].
  { split; [|done]. intros _. left. unfold prvGetCGroupFromTask. by rewrite Z.eqb_refl. }
  destruct (prvGetCGroupFromTask st T) as [i|] eqn:Hget; [|split; auto].
  destruct (Hwf i eq_refl) as (g & Hg & Hp & Hq & Hu). rewrite Hg.
  unfold ticks_quota_of in Hq.
  destruct (Z.gtb_spec (ulPenaltyTicksLeft (xCpuLimits g)) 0) as [Hpen|Hpen].
  { split; [done|]. intros [?|(i' & g' & Hi' & Hg' & H0 & _)]; [done|].
    injection Hi' as <-. rewrite Hg in Hg'. injection Hg' as <-. lia. }
  assert (ulPenaltyTicksLeft (xCpuLimits g) = 0) as Hp0 by lia.
  destruct (Z.eqb_spec (ulCpuQuota (xCpuLimits g)) CGROUP_CPU_QUOTA_MAX) as [Hmax|Hmax].
  { rewrite Hq, Z.eqb_refl. simpl. split; [|done]. intros _. right.
    exists i, g. auto. }
  destruct (Z.eqb_spec (ulTicksQuota (xCpuLimits g)) (CGROUP_NO_LIMIT ubits)) as [Hnl|Hnl]; simpl.
  { split; [|done]. intros _. right. exists i, g. repeat split; auto. right.
    destruct Hu as [Hu|Hu]; [congruence|lia]. }
  destruct (Z.geb_spec (ulTicksUsed (xCpuLimits g)) (ulTicksQuota (xCpuLimits g)))
    as [Hge|Hlt].
  - split; [done|]. intros [?|(i' & g' & Hi' & Hg' & _ & Hor)]; [done|].
    injection Hi' as <-. rewrite Hg in Hg'. injection Hg' as <-.
    destruct Hor; [done|lia].
  - split; [|done]. intros _. right. exists i, g. repeat split; auto. right. lia.
Qed.

(** Every mapping holds the address of a slot of the table. *)
Definition map_ok (st : state) : Prop :=
  Forall (fun e => exists i, xCGroup e = Some i /\ (i < length (xCGroups st))%nat)
         (xTaskCGroupMap st).

Lemma map_lookup_valid (n : nat) (m : list TaskCGroupMap_t) (t : TaskHandle_t) (i : nat) :
  Forall (fun e => exists i, xCGroup e = Some i /\ (i < n)%nat) m ->
  map_lookup m t = Some i -> (i < n)%nat.
Proof.
  induction 1 as [|e m (j & Hj & Hlt) _ IH]; simpl; [done|].
  destruct (xTask e =? t); [|done]. rewrite Hj. by intros [= <-].
Qed.

Lemma bound_cgroup_exists st t i :
  map_ok st -> prvGetCGroupFromTask st t = Some i -> is_Some (xCGroups st !! i).
Proof.
  intros Hmap. unfold prvGetCGroupFromTask. destruct (t =? NULL); [done|].
  intros H. apply lookup_lt_is_Some. by eapply map_lookup_valid.
Qed.

Lemma run_op_length ubits tbits W st o :
  length (xCGroups (run_op ubits tbits W st o)) = length (xCGroups st).
Proof.
  destruct o as [n m q|h|h t|h t|h q|t d|h|h m|h|t|]; simpl.
  - unfold xCGroupCreate. destruct (prvFindFreeCGroupSlot st); [|done].
    simpl. by rewrite length_insert.
  - unfold xCGroupDelete. destruct (prvGetCGroupIndex h) as [i|]; [|done].
    destruct (xCGroups st !! i); [|done]. destruct (_ >? 0); [done|].
    simpl. by rewrite length_insert.
  - unfold xCGroupAddTask. destruct h as [i|]; [|done].
    destruct (xCGroups st !! i); [|done]. destruct (_ || _); [done|].
    unfold prvAddTaskToMap. destruct (_ <=? _)%nat; [done|].
    destruct (prvGetCGroupFromTask st t); [done|]. simpl. by rewrite length_insert.
  - unfold xCGroupRemoveTask. destruct h as [i|]; [|done].
    destruct (t =? NULL); [done|]. destruct (negb _); [done|].
    unfold prvRemoveTaskFromMap. destruct (map_index_from _ _ _); [|done]. simpl.
    destruct (xCGroups st !! i); [|done]. simpl. by rewrite length_insert.
  - unfold xCGroupSetCpuQuota. destruct h as [i|]; [|done].
    destruct (xCGroups st !! i); [|done]. destruct (_ =? _); [done|].
    destruct (_ >? _); [done|]. simpl. by rewrite length_insert.
  - unfold xCGroupUpdateMemoryUsage. destruct (_ =? NULL); [done|].
    destruct (prvGetCGroupFromTask st t); [|done]. simpl. by rewrite length_alter.
  - unfold xCGroupGetStats. destruct h as [i|]; [|done].
    destruct (xCGroups st !! i); [|done]. destruct (_ =? _); [done|].
    destruct (prvUpdateCpuWindow _ _ _ _ _); [|done].
    simpl. by rewrite length_insert.
  - unfold xCGroupSetMemoryLimit. destruct h as [i|]; [|done].
    destruct (xCGroups st !! i); [|done]. destruct (_ =? _); [done|].
    simpl. by rewrite length_insert.
  - unfold xCGroupResetMemoryStats. destruct h as [i|]; [|done].
    destruct (xCGroups st !! i); [|done]. destruct (_ =? _); [done|].
    simpl. by rewrite length_insert.
  - done.
  - unfold xTaskIncrementTick, prvCGroupUpdateTick.
    destruct (update_slots _ _ _ _ _ _ _) as [gs|] eqn:E; [|done]. simpl.
    rewrite (update_slots_length _ _ _ _ _ _ _ _ E).
    unfold charge_current_task. simpl. destruct (_ =? NULL); [done|].
    destruct (prvGetCGroupFromTask _ _); [|done]. simpl. by rewrite length_alter.
Qed.

Lemma charge_keeps_map ubits st :
  xTaskCGroupMap (charge_current_task ubits st) = xTaskCGroupMap st.
Proof.
  unfold charge_current_task. destruct (_ =? NULL); [done|].
  by destruct (prvGetCGroupFromTask _ _).
Qed.

Lemma run_op_map_ok ubits tbits W st o :
  map_ok st -> map_ok (run_op ubits tbits W st o).
Proof.
  intros Hmap. unfold map_ok. rewrite run_op_length. revert Hmap. unfold map_ok.
  remember (length (xCGroups st)) as n eqn:Hn. intros Hmap.
  destruct o as [nm m q|h|h t|h t|h q|t d|h|h m|h|t|]; simpl.
  - unfold xCGroupCreate. by destruct (prvFindFreeCGroupSlot st).
  - unfold xCGroupDelete. destruct (prvGetCGroupIndex h) as [i|]; [|done].
    destruct (xCGroups st !! i); [|done]. by destruct (_ >? 0).
  - unfold xCGroupAddTask. destruct h as [i|]; [|done].
    destruct (xCGroups st !! i) as [g|] eqn:E; [|done]. destruct (_ || _); [done|].
    unfold prvAddTaskToMap. destruct (_ <=? _)%nat; [done|].
    destruct (prvGetCGroupFromTask st t); [done|]. simpl.
    apply Forall_app. split; [done|]. constructor; [|done].
    exists i. split; [done|]. subst n. by eapply lookup_lt_Some.
  - unfold xCGroupRemoveTask. destruct h as [i|]; [|done].
    destruct (t =? NULL); [done|]. destruct (negb _); [done|].
    unfold prvRemoveTaskFromMap. destruct (map_index_from _ _ _) as [ux|]; [|done]. simpl.
    assert (Forall (fun e => exists i, xCGroup e = Some i /\ (i < n)%nat)
              (take (length (xTaskCGroupMap st) - 1)
                 match last (xTaskCGroupMap st) with
                 | Some e => if (ux <? length (xTaskCGroupMap st) - 1)%nat
                             then <[ux:=e]> (xTaskCGroupMap st) else xTaskCGroupMap st
                 | None => xTaskCGroupMap st
                 end)) as H.
    { apply Forall_take. destruct (last (xTaskCGroupMap st)) as [e|] eqn:El; [|done].
      destruct (_ <? _)%nat; [|done]. apply Forall_insert; [done|].
      rewrite Forall_forall in Hmap. apply Hmap. apply last_Some_elem_of in El. done. }
    by destruct (xCGroups st !! i).
  - unfold xCGroupSetCpuQuota. destruct h as [i|]; [|done].
    destruct (xCGroups st !! i); [|done]. destruct (_ =? _); [done|].
    by destruct (_ >? _).
  - unfold xCGroupUpdateMemoryUsage. destruct (_ =? NULL); [done|].
    by destruct (prvGetCGroupFromTask st t).
  - unfold xCGroupGetStats. destruct h as [i|]; [|done].
    destruct (xCGroups st !! i); [|done]. destruct (_ =? _); [done|].
    by destruct (prvUpdateCpuWindow _ _ _ _ _).
  - unfold xCGroupSetMemoryLimit. destruct h as [i|]; [|done].
    destruct (xCGroups st !! i); [|done]. by destruct (_ =? _).
  - unfold xCGroupResetMemoryStats. destruct h as [i|]; [|done].
    destruct (xCGroups st !! i); [|done]. by destruct (_ =? _).
  - done.
  - unfold xTaskIncrementTick, prvCGroupUpdateTick.
    destruct (update_slots _ _ _ _ _ _ _); [|done]. simpl. by rewrite charge_keeps_map.
Qed.

(** What holds of the controller in every state it reaches. *)
Definition state_ok (ubits : Z) (st : state) : Prop :=
  Forall (slot_ok ubits) (xCGroups st) /\ map_ok st.

Lemma reachable_state_ok ubits tbits W now cur ops :
  0 <= ubits -> CGROUP_CPU_QUOTA_MAX < CGROUP_NO_LIMIT ubits ->
  Forall (quota_in_domain ubits) ops ->
  state_ok ubits (fold_left (run_op ubits tbits W) ops (boot_state now cur)).
Proof.
  intros Hu Hmax Hdom.
  assert (state_ok ubits (boot_state now cur)) as Hboot.
  { split; [|constructor]. simpl.
    repeat constructor; simpl; try done; unfold CGROUP_CPU_QUOTA_MAX in *; lia. }
  revert Hboot. generalize (boot_state now cur).
  induction Hdom as [|o ops Ho _ IH]; intros st [Hall Hmap]; [done|].
  simpl. apply IH. split; [by apply run_op_slots_ok|by apply run_op_map_ok].
Qed.

(** C3.  In every state the controller reaches, [prvCGroupCanTaskRun]
    returns [pdTRUE] exactly when the task is bound to no cgroup, or its
    cgroup has no penalty ticks left and either its CPU quota is
    [CGROUP_CPU_QUOTA_MAX] or the ticks used in the current window are
    strictly below the quota. *)
Theorem can_run_iff ubits tbits W now cur ops T :
  CGROUP_CPU_QUOTA_MAX < CGROUP_NO_LIMIT ubits ->
  Forall (quota_in_domain ubits) ops ->
  let st := fold_left (run_op ubits tbits W) ops (boot_state now cur) in
  prvCGroupCanTaskRun ubits st T = pdTRUE <->
  (prvGetCGroupFromTask st T = None \/
   exists i g, prvGetCGroupFromTask st T = Some i /\ xCGroups st !! i = Some g /\
     ulPenaltyTicksLeft (xCpuLimits g) = 0 /\
     (ulCpuQuota (xCpuLimits g) = CGROUP_CPU_QUOTA_MAX \/
      ulTicksUsed (xCpuLimits g) < ulCpuQuota (xCpuLimits g))).
Proof.
  intros Hmax Hdom st.
  assert (0 <= ubits) as Hu.
  { destruct (Z.lt_ge_cases ubits 0) as [Hneg|]; [|done].
    unfold CGROUP_NO_LIMIT, CGROUP_CPU_QUOTA_MAX in Hmax.
    rewrite Z.pow_neg_r in Hmax by done. lia. }
  destruct (reachable_state_ok ubits tbits W now cur ops Hu Hmax Hdom) as [Hall Hmap].
  apply can_run_when_fields_wf. intros i Hi.
  destruct (bound_cgroup_exists st T i Hmap Hi) as [g Hg]. exists g. split; [done|].
  apply slot_ok_wf. rewrite Forall_lookup in Hall. by apply (Hall i).
Qed.

(** A cgroup with quota 100 in slot 0, holding the running task 4096. *)
Definition demo_state : state :=
  let '(h, st1) := xCGroupCreate 32 1000 (boot_state 0 4096) "Hi" 16384 100 in
  snd (xCGroupAddTask 32 st1 h 4096).

Definition demo_cgroup : CGroup_t :=
  mkCGroup "Hi" (mkMem 16384 0 0) (mkCpu 100 0 100 0 0 1000) 1 pdTRUE.

(** The theorem at a fresh cgroup: its task may run. *)
Lemma can_run_iff_witness :
  prvCGroupCanTaskRun 32
    (fold_left (run_op 32 32 1000)
       [OpCreate "Hi" 16384 100; OpAddTask (Some 0%nat) 4096] (boot_state 0 4096))
    4096 = pdTRUE.
Proof.
  apply (can_run_iff 32 32 1000 0 4096
           [OpCreate "Hi" 16384 100; OpAddTask (Some 0%nat) 4096] 4096).
  - vm_compute. reflexivity.
  - repeat constructor. vm_compute. congruence.
  - right. exists 0%nat, demo_cgroup.
    split; [reflexivity|]. split; [reflexivity|]. split; [reflexivity|].
    right. vm_compute. reflexivity.
Defined.

(** Saturating decrement of a tick count. *)
Definition decr (x : Z) : Z := Z.max 0 (x - 1).

(** The penalty a closing window adds: nothing without a limit. *)
Definition window_penalty (ubits W : Z) (c : CpuLimits_t) : Z :=
  if ulTicksQuota c =? CGROUP_NO_LIMIT ubits then 0
  else (Z.max 0 (ulTicksUsed c - ulTicksQuota c) * W) / ulTicksQuota c.

Lemma charge_keeps_bitmap ubits st :
  uxCGroupBitmap (charge_current_task ubits st) = uxCGroupBitmap st /\
  xTickCount (charge_current_task ubits st) = xTickCount st.
Proof.
  unfold charge_current_task. destruct (_ =? _); [done|].
  by destruct (prvGetCGroupFromTask _ _).
Qed.

Lemma calculate_penalty_value ubits W g :
  let c := xCpuLimits g in
  0 < ulTicksQuota c -> 0 <= W ->
  0 <= ulTicksUsed c < 2 ^ ubits ->
  0 <= ulPenaltyTicksLeft c ->
  Z.max 0 (ulTicksUsed c - ulTicksQuota c) * W < 2 ^ ubits ->
  ulPenaltyTicksLeft c + window_penalty ubits W c < 2 ^ ubits ->
  0 <= window_penalty ubits W c /\
  prvCalculatePenalty ubits W g =
  Some (set_cpu g (set_penalty c (ulPenaltyTicksLeft c + window_penalty ubits W c))).
Proof.
  intros c Hq HW Hu Hp Hmul Hsum. unfold prvCalculatePenalty, window_penalty in *.
  fold c. destruct (Z.eqb_spec (ulTicksQuota c) (CGROUP_NO_LIMIT ubits)) as [Hnl|Hnl]; simpl.
  { split; [lia|]. rewrite Z.add_0_r. by destruct g, xCpuLimits0. }
  assert (0 <= Z.max 0 (ulTicksUsed c - ulTicksQuota c) * W / ulTicksQuota c) as Hnn.
  { apply Z.div_pos; [|lia]. apply Z.mul_nonneg_nonneg; lia. }
  split; [done|].
  destruct (Z.gtb_spec (ulTicksUsed c) (ulTicksQuota c)) as [Hgt|Hle].
  - destruct (Z.eqb_spec (ulTicksQuota c) 0) as [H0|_]; [lia|].
    rewrite Z.max_r in * by lia. unfold wrapU.
    rewrite (Z.mod_small (ulTicksUsed c - ulTicksQuota c)) by lia.
    rewrite (Z.mod_small ((ulTicksUsed c - ulTicksQuota c) * W)).
    2:{ split; [apply Z.mul_nonneg_nonneg; lia|lia]. }
    rewrite Z.mod_small by lia. done.
  - rewrite Z.max_l by lia. rewrite Z.mul_0_l, Z.div_0_l by lia.
    rewrite Z.add_0_r. by destruct g, xCpuLimits0.
Qed.

(** The tick of a slot whose cgroup is inactive, or has a quota other than
    zero, returns. *)
Lemma update_slot_defined ubits tbits W bitmap now i g :
  (xActive g = pdTRUE -> ulTicksQuota (xCpuLimits g) <> 0) ->
  is_Some (update_slot ubits tbits W bitmap now i g).
Proof.
  intros Hq. unfold update_slot.
  destruct (negb _ && (xActive g =? pdTRUE)) eqn:E; [|done].
  apply andb_true_iff in E as [_ Hact]. apply Z.eqb_eq in Hact. specialize (Hq Hact).
  unfold prvUpdateCpuWindow. destruct (window_elapsed _ _ _); [|done].
  unfold prvCalculatePenalty. destruct (_ && _); [|done].
  by destruct (Z.eqb_spec (ulTicksQuota (xCpuLimits g)) 0).
Qed.

(** The tick returns when no active cgroup has the quota zero. *)
Lemma tick_defined ubits tbits W st :
  Forall (fun gj => xActive gj = pdTRUE -> ulTicksQuota (xCpuLimits gj) <> 0) (xCGroups st) ->
  is_Some (prvCGroupUpdateTick ubits tbits W st).
Proof.
  intros Hall. unfold prvCGroupUpdateTick.
  destruct (update_slots_defined ubits tbits W
              (uxCGroupBitmap (charge_current_task ubits st))
              (xTickCount (charge_current_task ubits st)) 0
              (xCGroups (charge_current_task ubits st))) as [gs ->]; [|done].
  intros j gj Hj. unfold slot_step. destruct (_ <? _)%nat; [|done].
  apply update_slot_defined.
  assert (Forall (fun gj => xActive gj = pdTRUE -> ulTicksQuota (xCpuLimits gj) <> 0)
            (xCGroups (charge_current_task ubits st))) as Hall1.
  { apply charge_Forall; [|done]. by intros g u. }
  rewrite Forall_lookup in Hall1. by apply (Hall1 j).
Qed.

(** C4 (amended).  One call of [prvCGroupUpdateTick] when no active cgroup
    has the quota zero, for an active cgroup [g] (its fields taken after the
    running task was charged) with a quota other than zero, when the
    arithmetic does not overflow: the call returns.  On the tick at which
    the window has elapsed, the penalty first grows by
    [(max 0 (used - quota) * window) / quota] (by nothing when the quota is
    the no-limit marker), is then decremented twice, each time stopping at
    zero, and ticks-used and window-start are reset.  On any other tick a
    positive penalty is decremented by exactly one and nothing else
    changes. *)
Theorem tick_window_and_penalty ubits tbits W st i g :
  Forall (fun gj => xActive gj = pdTRUE -> ulTicksQuota (xCpuLimits gj) <> 0) (xCGroups st) ->
  xCGroups (charge_current_task ubits st) !! i = Some g ->
  (i < configMAX_CGROUPS)%nat ->
  Z.testbit (uxCGroupBitmap st) (Z.of_nat i) = true ->
  xActive g = pdTRUE ->
  0 < ulTicksQuota (xCpuLimits g) -> 0 <= W ->
  0 <= ulTicksUsed (xCpuLimits g) < 2 ^ ubits ->
  0 <= ulPenaltyTicksLeft (xCpuLimits g) ->
  Z.max 0 (ulTicksUsed (xCpuLimits g) - ulTicksQuota (xCpuLimits g)) * W < 2 ^ ubits ->
  ulPenaltyTicksLeft (xCpuLimits g) + window_penalty ubits W (xCpuLimits g) < 2 ^ ubits ->
  exists st' g',
    prvCGroupUpdateTick ubits tbits W st = Some st' /\
    xCGroups st' !! i = Some g' /\
    if window_elapsed tbits (xTickCount st) g then
      ulPenaltyTicksLeft (xCpuLimits g') =
        decr (decr (ulPenaltyTicksLeft (xCpuLimits g) + window_penalty ubits W (xCpuLimits g))) /\
      ulTicksUsed (xCpuLimits g') = 0 /\
      xWindowStartTime (xCpuLimits g') = xTickCount st
    else
      ulPenaltyTicksLeft (xCpuLimits g') = decr (ulPenaltyTicksLeft (xCpuLimits g)) /\
      ulTicksUsed (xCpuLimits g') = ulTicksUsed (xCpuLimits g) /\
      xWindowStartTime (xCpuLimits g') = xWindowStartTime (xCpuLimits g).
Proof.
  intros Hall Hg Hi Hbit Hact Hq HW Hu Hp Hmul Hsum.
  destruct (calculate_penalty_value ubits W g Hq HW Hu Hp Hmul Hsum) as [Hnn Hcalc].
  destruct (tick_defined ubits tbits W st Hall) as [st' Hst'].
  exists st'. revert Hst'. unfold prvCGroupUpdateTick.
  destruct (update_slots _ _ _ _ _ _ _) as [gs|] eqn:Hgs; [|done]. intros [= <-].
  pose proof (update_slots_lookup _ _ _ _ _ _ _ _ Hgs i) as Hlook.
  rewrite Hg in Hlook. simpl in Hlook.
  destruct (charge_keeps_bitmap ubits st) as [Hb Ht]. rewrite Hb, Ht in Hlook.
  unfold slot_step in Hlook. apply Nat.ltb_lt in Hi. rewrite Hi in Hlook.
  unfold update_slot in Hlook. rewrite land_bit_eqb, Hbit, Hact in Hlook. simpl in Hlook.
  unfold prvUpdateCpuWindow in Hlook.
  destruct (window_elapsed tbits (xTickCount st) g).
  - rewrite Hcalc in Hlook. eexists. split; [reflexivity|]. split; [exact Hlook|].
    unfold reduce_penalty, start_window. simpl.
    set (p := ulPenaltyTicksLeft (xCpuLimits g) + window_penalty ubits W (xCpuLimits g)) in *.
    unfold decr.
    destruct (Z.gtb_spec p 0) as [Hp0|Hp0]; simpl.
    + destruct (Z.gtb_spec p 1) as [Hp1|Hp1]; simpl.
      * destruct (Z.gtb_spec (p - 1) 0); [|lia]. simpl. unfold wrapU.
        rewrite Z.mod_small by lia. repeat split; lia.
      * simpl. repeat split; lia.
    + destruct (Z.gtb_spec p 0); [lia|]. simpl. repeat split; lia.
  - eexists. split; [reflexivity|]. split; [exact Hlook|].
    unfold reduce_penalty, decr.
    destruct (Z.gtb_spec (ulPenaltyTicksLeft (xCpuLimits g)) 0); simpl.
    + unfold wrapU. rewrite Z.mod_small by lia. repeat split; lia.
    + repeat split; lia.
Qed.

(** Task 4096 runs for a whole window of 1000 ticks and overshoots its quota
    of 100; then the processor idles until the end of the next window. *)
Definition after_busy_window : state :=
  mkState
    [mkCGroup "Hi" (mkMem 16384 0 0) (mkCpu 100 0 100 8998 1000 1000) 1 pdTRUE;
     zero_cgroup; zero_cgroup; zero_cgroup; zero_cgroup; zero_cgroup; zero_cgroup; zero_cgroup]
    1 [mkMap 4096 (Some 0%nat)] 1000 4096.

Definition before_second_rollover : state :=
  mkState
    [mkCGroup "Hi" (mkMem 16384 0 0) (mkCpu 100 0 100 7999 1000 1000) 1 pdTRUE;
     zero_cgroup; zero_cgroup; zero_cgroup; zero_cgroup; zero_cgroup; zero_cgroup; zero_cgroup]
    1 [mkMap 4096 (Some 0%nat)] 1999 NULL.

Definition penalised_cgroup : CGroup_t :=
  mkCGroup "Hi" (mkMem 16384 0 0) (mkCpu 100 0 100 7999 1000 1000) 1 pdTRUE.

(** The two states are reached by ticks that all return. *)
Lemma busy_then_idle_window :
  ticks 32 32 1000 1000 demo_state = Some after_busy_window /\
  ticks 32 32 1000 999 (set_current after_busy_window NULL) = Some before_second_rollover.
Proof. split; vm_compute; reflexivity. Qed.

(** The theorem at the second rollover: 7999 penalty ticks, no new excess,
    7997 left after the tick. *)
Lemma tick_window_and_penalty_witness :
  exists st' g',
    prvCGroupUpdateTick 32 32 1000 (set_tick before_second_rollover 2000) = Some st' /\
    xCGroups st' !! 0%nat = Some g' /\
    ulPenaltyTicksLeft (xCpuLimits g') = 7997 /\
    ulTicksUsed (xCpuLimits g') = 0 /\
    xWindowStartTime (xCpuLimits g') = 2000.
Proof.
  destruct (tick_window_and_penalty 32 32 1000 (set_tick before_second_rollover 2000)
              0 penalised_cgroup) as (st' & g' & Hst' & Hg' & H).
  - repeat constructor; vm_compute; congruence.
  - vm_compute. reflexivity.
  - vm_compute. lia.
  - vm_compute. reflexivity.
  - reflexivity.
  - vm_compute. reflexivity.
  - lia.
  - vm_compute. split; congruence.
  - vm_compute. congruence.
  - vm_compute. reflexivity.
  - vm_compute. reflexivity.
  - exists st', g'. split; [exact Hst'|]. split; [exact Hg'|]. exact H.
Defined.

(** C4 as stated fails on a rollover tick: with 7999 penalty ticks left and
    no excess in the closing window the statement leaves 7999, the code 7997. *)
Lemma rollover_tick_also_decrements :
  xCGroups before_second_rollover !! 0%nat = Some penalised_cgroup /\
  window_elapsed 32 2000 penalised_cgroup = true /\
  (exists st', xTaskIncrementTick 32 32 1000 before_second_rollover = Some st' /\
     (xCpuLimits <$> xCGroups st' !! 0%nat) = Some (mkCpu 100 0 100 7997 2000 1000)) /\
  7997 <> 7999 + (Z.max 0 (0 - 100) * 1000) / 100.
Proof.
  split; [|split; [|split]].
  - vm_compute. reflexivity.
  - vm_compute. reflexivity.
  - eexists. split; vm_compute; reflexivity.
  - vm_compute. congruence.
Qed.

(** A quota of zero is accepted by [xCGroupCreate]; once the task of such a
    cgroup has run, the tick that closes the window divides by zero. *)
Definition zero_quota_state : state :=
  let '(h, st1) := xCGroupCreate 32 1000 (boot_state 0 4096) "Z" 16384 0 in
  snd (xCGroupAddTask 32 st1 h 4096).

Definition zero_quota_before_rollover : state :=
  mkState
    [mkCGroup "Z" (mkMem 16384 0 0) (mkCpu 0 999 0 0 0 1000) 1 pdTRUE;
     zero_cgroup; zero_cgroup; zero_cgroup; zero_cgroup; zero_cgroup; zero_cgroup; zero_cgroup]
    1 [mkMap 4096 (Some 0%nat)] 999 4096.

Lemma zero_quota_rollover_is_undefined :
  ticks 32 32 1000 999 zero_quota_state = Some zero_quota_before_rollover /\
  xTaskIncrementTick 32 32 1000 zero_quota_before_rollover = None /\
  xCGroupGetStats 32 32 1000 (set_tick zero_quota_before_rollover 1000) (Some 0%nat) = None.
Proof. split; [|split]; vm_compute; reflexivity. Qed.

End CGroupFacts.

(** ** Properties of the container manager *)

(** Setting a clear bit and clearing it again restores the bitmap. *)
Lemma set_then_clear_bit (b : Z) (ux : nat) :
  Z.testbit b (Z.of_nat ux) = false ->
  Z.land (Z.lor b (bit ux)) (Z.lnot (bit ux)) = b.
Proof.
  intros Hb. apply Z.bits_inj'. intros n Hn.
  unfold bit. rewrite Z.land_spec, Z.lor_spec, Z.lnot_spec, Z.shiftl_1_l by lia.
  rewrite Z.pow2_bits_eqb by lia.
  destruct (Z.eqb_spec (Z.of_nat ux) n) as [<-|Hne]; simpl.
  - by rewrite andb_false_r.
  - by rewrite orb_false_r, andb_true_r.
Qed.

Module ContainerFacts.
Import Container.

Lemma cgroup_find_free bitmap ux n s :
  CGroup.prvFindFreeCGroupSlot_from bitmap ux n = Some s ->
  Z.testbit bitmap (Z.of_nat s) = false /\ (ux <= s < ux + n)%nat.
Proof.
  revert ux. induction n as [|n IH]; intros ux; simpl; [done|].
  rewrite land_bit_eqb. destruct (Z.testbit bitmap (Z.of_nat ux)) eqn:E; simpl.
  - intros H. apply IH in H. split; [tauto|lia].
  - intros [= <-]. split; [done|lia].
Qed.

Lemma pidns_find_free bitmap ux n s :
  PidNs.prvFindFreeNamespaceSlot_from bitmap ux n = Some s ->
  Z.testbit bitmap (Z.of_nat s) = false /\ (ux <= s < ux + n)%nat.
Proof.
  revert ux. induction n as [|n IH]; intros ux; simpl; [done|].
  rewrite land_bit_eqb. destruct (Z.testbit bitmap (Z.of_nat ux)) eqn:E; simpl.
  - intros H. apply IH in H. split; [tauto|lia].
  - intros [= <-]. split; [done|lia].
Qed.

Lemma ipcns_find_free bitmap ux n s :
  IpcNs.prvFindFreeNamespaceSlot_from bitmap ux n = Some s ->
  Z.testbit bitmap (Z.of_nat s) = false /\ (ux <= s < ux + n)%nat.
Proof.
  revert ux. induction n as [|n IH]; intros ux; simpl; [done|].
  rewrite land_bit_eqb. destruct (Z.testbit bitmap (Z.of_nat ux)) eqn:E; simpl.
  - intros H. apply IH in H. split; [tauto|lia].
  - intros [= <-]. split; [done|lia].
Qed.

(** What is left of a resource that was created and deleted again: the
    allocation bitmap is as before, and the slot that was used is inactive. *)
Definition cgroup_released (cg cg' : CGroup.state) (h : CGroup.CGroupHandle_t) : Prop :=
  CGroup.uxCGroupBitmap cg' = CGroup.uxCGroupBitmap cg /\
  CGroup.xTaskCGroupMap cg' = CGroup.xTaskCGroupMap cg /\
  match h with
  | Some i => CGroup.xActive <$> CGroup.xCGroups cg' !! i = Some pdFALSE
  | None => cg' = cg
  end.

Definition pidns_released (ns ns' : PidNs.state) (h : PidNs.PidNamespaceHandle_t) : Prop :=
  PidNs.uxNamespaceBitmap ns' = PidNs.uxNamespaceBitmap ns /\
  PidNs.xTcbs ns' = PidNs.xTcbs ns /\
  match h with
  | Some i => PidNs.xActive <$> PidNs.xPidNamespaces ns' !! i = Some pdFALSE
  | None => ns' = ns
  end.

Definition ipcns_released (ns ns' : IpcNs.state) (h : IpcNs.IpcNamespaceHandle_t) : Prop :=
  IpcNs.uxNamespaceBitmap ns' = IpcNs.uxNamespaceBitmap ns /\
  IpcNs.xIpcObjectEntries ns' = IpcNs.xIpcObjectEntries ns /\
  match h with
  | Some i => IpcNs.xActive <$> IpcNs.xIpcNamespaces ns' !! i = Some pdFALSE
  | None => ns' = ns
  end.

Lemma cgroup_create_delete ubits W cg name m q :
  length (CGroup.xCGroups cg) = CGroup.configMAX_CGROUPS ->
  let '(h, cg1) := CGroup.xCGroupCreate ubits W cg name m q in
  cgroup_released cg
    (match h with Some _ => snd (CGroup.xCGroupDelete cg1 h) | None => cg1 end) h.
Proof.
  intros Hlen. unfold CGroup.xCGroupCreate, CGroup.prvFindFreeCGroupSlot.
  destruct (CGroup.prvFindFreeCGroupSlot_from _ _ _) as [i|] eqn:E; [|done].
  apply cgroup_find_free in E as [Hclear Hi].
  unfold CGroup.xCGroupDelete, CGroup.prvGetCGroupIndex.
  assert ((i <? CGroup.configMAX_CGROUPS)%nat = true) as -> by (apply Nat.ltb_lt; lia).
  simpl. rewrite list_lookup_insert_eq by lia. simpl.
  split; [|split]; simpl.
  - by apply set_then_clear_bit.
  - done.
  - rewrite list_lookup_insert_eq by (rewrite length_insert; lia). done.
Qed.

Lemma pidns_create_delete ubits ns name :
  length (PidNs.xPidNamespaces ns) = PidNs.configMAX_PID_NAMESPACES ->
  let '(h, ns1) := PidNs.xPidNamespaceCreate ubits ns name in
  pidns_released ns
    (match h with Some _ => snd (PidNs.xPidNamespaceDelete ns1 h) | None => ns1 end) h.
Proof.
  intros Hlen. unfold PidNs.xPidNamespaceCreate, PidNs.prvFindFreeNamespaceSlot.
  destruct (PidNs.prvFindFreeNamespaceSlot_from _ _ _) as [i|] eqn:E; [|done].
  apply pidns_find_free in E as [Hclear Hi].
  unfold PidNs.xPidNamespaceDelete, PidNs.prvInitializeNamespace.
  simpl. rewrite list_lookup_insert_eq by lia. simpl.
  split; [|split]; simpl.
  - by apply set_then_clear_bit.
  - done.
  - rewrite list_lookup_insert_eq by (rewrite length_insert; lia). done.
Qed.

Lemma ipcns_create_delete ubits ns name :
  length (IpcNs.xIpcNamespaces ns) = IpcNs.configMAX_IPC_NAMESPACES ->
  (forall r, IpcNs.xRootNamespace ns = Some r ->
             Z.testbit (IpcNs.uxNamespaceBitmap ns) (Z.of_nat r) = true) ->
  let '(h, ns1) := IpcNs.xIpcNamespaceCreate ubits ns name in
  ipcns_released ns
    (match h with Some _ => snd (IpcNs.xIpcNamespaceDelete ns1 h) | None => ns1 end) h.
Proof.
  intros Hlen Hroot. unfold IpcNs.xIpcNamespaceCreate, IpcNs.prvFindFreeNamespaceSlot.
  destruct name as [name|]; [|done].
  destruct (_ =? _)%nat; [done|].
  destruct (IpcNs.prvFindFreeNamespaceSlot_from _ _ _) as [i|] eqn:E; [|done].
  apply ipcns_find_free in E as [Hclear Hi].
  unfold IpcNs.xIpcNamespaceDelete, IpcNs.prvInitializeNamespace.
  simpl. rewrite list_lookup_insert_eq by lia. simpl.
  case_bool_decide as Hr.
  { symmetry in Hr. apply Hroot in Hr. congruence. }
  simpl. split; [|split]; simpl.
  - by apply set_then_clear_bit.
  - done.
  - rewrite list_lookup_insert_eq by (rewrite length_insert; lia). done.
Qed.

(** C5 (amended).  For an ELF name that fits the 64-byte field of the
    struct, [xContainerCreateWithLimits] returns, and rolls back on exactly
    one failure, that of adding the container to the list (the list mutex
    is not obtained): it then deletes each resource it created, frees the
    container struct and returns [pdFAIL]; the container list and the three
    allocation bitmaps are as before and the slots it used are inactive.
    When the list insertion succeeds it returns [pdPASS] with the container
    at the head of the list, holding whatever handles the three creations
    returned, null ones included.  When the struct cannot be allocated it
    returns [pdFAIL] and changes nothing. *)
Theorem create_rolls_back_only_on_list_failure ubits W st name elf stack prio mem quota p :
  (String.length elf < 64)%nat ->
  length (CGroup.xCGroups (cgroups st)) = CGroup.configMAX_CGROUPS ->
  length (PidNs.xPidNamespaces (pidns st)) = PidNs.configMAX_PID_NAMESPACES ->
  length (IpcNs.xIpcNamespaces (ipcns st)) = IpcNs.configMAX_IPC_NAMESPACES ->
  (forall r, IpcNs.xRootNamespace (ipcns st) = Some r ->
             Z.testbit (IpcNs.uxNamespaceBitmap (ipcns st)) (Z.of_nat r) = true) ->
  let ulMemLimit := if mem >? 0 then mem else 8192 in
  let ulCpuLimit := if quota >? 0 then quota else 100 in
  let hcg := fst (CGroup.xCGroupCreate ubits W (cgroups st) (substring 0 31 name)
                    ulMemLimit ulCpuLimit) in
  let hpid := fst (PidNs.xPidNamespaceCreate ubits (pidns st) (Some (substring 0 31 name))) in
  let hipc := fst (IpcNs.xIpcNamespaceCreate ubits (ipcns st) (Some (substring 0 31 name))) in
  (* the list mutex is not obtained: everything is undone *)
  (exists st',
     xContainerCreateWithLimits ubits W st (Some name) (Some elf) stack prio mem quota
       (Some p) false = Some (pdFAIL, st') /\
     pxContainerList st' = pxContainerList st /\
     heap st' = delete p (heap st) /\
     cgroup_released (cgroups st) (cgroups st') hcg /\
     pidns_released (pidns st) (pidns st') hpid /\
     ipcns_released (ipcns st) (ipcns st') hipc) /\
  (* the list mutex is obtained: success, whatever handles are null *)
  (exists st',
     xContainerCreateWithLimits ubits W st (Some name) (Some elf) stack prio mem quota
       (Some p) true = Some (pdPASS, st') /\
     pxContainerList st' = p :: pxContainerList st /\
     (xCGroup <$> heap st' !! p) = Some hcg /\
     (xPidNamespace <$> heap st' !! p) = Some hpid /\
     (xIpcNamespace <$> heap st' !! p) = Some hipc) /\
  (* no memory for the struct: nothing happens *)
  xContainerCreateWithLimits ubits W st (Some name) (Some elf) stack prio mem quota None false
  = Some (pdFAIL, st).
Proof.
  intros Helf Hcg Hpid Hipc Hroot ulMemLimit ulCpuLimit hcg hpid hipc.
  pose proof (cgroup_create_delete ubits W (cgroups st) (substring 0 31 name)
                ulMemLimit ulCpuLimit Hcg) as H1.
  pose proof (pidns_create_delete ubits (pidns st) (Some (substring 0 31 name)) Hpid) as H2.
  pose proof (ipcns_create_delete ubits (ipcns st) (Some (substring 0 31 name)) Hipc Hroot)
    as H3.
  unfold xContainerCreateWithLimits, strcpy_elfName. subst hcg hpid hipc.
  fold ulMemLimit ulCpuLimit.
  apply Nat.ltb_lt in Helf. rewrite Helf.
  destruct (CGroup.xCGroupCreate _ _ _ _ _ _) as [hcg cg1].
  destruct (PidNs.xPidNamespaceCreate _ _ _) as [hpid pid1].
  destruct (IpcNs.xIpcNamespaceCreate _ _ _) as [hipc ipc1].
  simpl. split; [|split; [|done]].
  - eexists. split; [reflexivity|]. simpl.
    split; [done|]. split; [apply delete_insert_eq|]. done.
  - eexists. split; [reflexivity|]. simpl.
    split; [done|]. rewrite lookup_insert_eq. done.
Qed.

(** The manager after start-up: both namespace controllers initialised, no
    container, no cgroup. *)
Definition booted : state :=
  mkState [] 1 ∅ (CGroup.boot_state 0 NULL)
    (PidNs.prvPidNamespaceInit 32 (PidNs.boot_state ∅))
    (IpcNs.vIpcNamespaceInit 32 (IpcNs.boot_state ∅ NULL)).

(** The same with all eight cgroup slots taken. *)
Definition booted_without_free_cgroup : state :=
  mkState [] 1 ∅
    (Nat.iter 8 (fun cg => snd (CGroup.xCGroupCreate 32 1000 cg "g" 1024 100))
       (CGroup.boot_state 0 NULL))
    (pidns booted) (ipcns booted).

(** The theorem at the freshly started manager. *)
Lemma create_rolls_back_only_on_list_failure_witness :
  (exists st', xContainerCreateWithLimits 32 1000 booted (Some "web"%string)
                 (Some "app.elf"%string) 2048 2 0 0 (Some 20480) false
               = Some (pdFAIL, st')) /\
  (exists st', xContainerCreateWithLimits 32 1000 booted (Some "web"%string)
                 (Some "app.elf"%string) 2048 2 0 0 (Some 20480) true
               = Some (pdPASS, st')).
Proof.
  destruct (create_rolls_back_only_on_list_failure 32 1000 booted "web" "app.elf"
              2048 2 0 0 20480) as (Ha & Hb & _).
  - simpl. lia.
  - vm_compute. reflexivity.
  - vm_compute. reflexivity.
  - vm_compute. reflexivity.
  - intros r Hr. vm_compute in Hr. injection Hr as <-. vm_compute. reflexivity.
  - destruct Ha as (st1 & Ha & _). destruct Hb as (st2 & Hb & _).
    split; [exists st1; exact Ha|exists st2; exact Hb].
Defined.

(** C5 as stated fails when the cgroup table is full: the cgroup creation
    fails, yet the container is created and listed with a null cgroup
    handle, and the PID and IPC namespaces made for it stay active. *)
Lemma create_succeeds_without_cgroup :
  let st := booted_without_free_cgroup in
  exists st',
    xContainerCreateWithLimits 32 1000 st (Some "web"%string) (Some "app.elf"%string)
      2048 2 0 0 (Some 20480) true = Some (pdPASS, st') /\
    fst (CGroup.xCGroupCreate 32 1000 (cgroups st) "web" 8192 100) = None /\
    pdPASS <> pdFAIL /\
    pxContainerList st' = [20480] /\
    (xCGroup <$> heap st' !! 20480) = Some None /\
    (xPidNamespace <$> heap st' !! 20480) = Some (Some 1%nat) /\
    (PidNs.xActive <$> PidNs.xPidNamespaces (pidns st') !! 1%nat) = Some pdTRUE /\
    (IpcNs.xActive <$> IpcNs.xIpcNamespaces (ipcns st') !! 1%nat) = Some pdTRUE.
Proof.
  eexists. split; [vm_compute; reflexivity|]. vm_compute. repeat split; congruence.
Qed.

(** An ELF name of 64 characters does not fit the field: the copy, and with
    it the call, is undefined. *)
Lemma create_with_long_elf_name_is_undefined :
  let elf := String.concat "" (replicate 64 "x")%string in
  String.length elf = 64%nat /\
  xContainerCreateWithLimits 32 1000 booted (Some "web"%string) (Some elf)
    2048 2 0 0 (Some 20480) true = None /\
  xContainerCreateWithLimits 32 1000 booted (Some "web"%string) None
    2048 2 0 0 (Some 20480) true = None.
Proof. vm_compute. repeat split. Qed.

End ContainerFacts.

(** ** Properties of the container image codec *)

Module ImageFacts.
Import Lfs Image.

(** *** Paths *)

Lemma substring_all (n : nat) (s : string) :
  (String.length s <= n)%nat -> substring 0 n s = s.
Proof.
  revert n. induction s as [|c s IH]; intros n Hn.
  - by destruct n.
  - destruct n as [|n]; simpl in *; [lia|]. rewrite IH; [done|lia].
Qed.

Lemma length_string_of_list_ascii (l : list ascii) :
  String.length (string_of_list_ascii l) = length l.
Proof. induction l as [|c l IH]; simpl; [done|]. by rewrite IH. Qed.

Lemma split_path_no_slash (l : list ascii) :
  Forall (fun c => Ascii.eqb c "/" = false) l ->
  split_path (string_of_list_ascii l) = None.
Proof.
  induction 1 as [|c l Hc _ IH]; simpl; [done|]. by rewrite IH, Hc.
Qed.

Lemma digits_rev_no_slash (fuel : nat) (v : Z) :
  Forall (fun c => Ascii.eqb c "/" = false) (digits_rev fuel v).
Proof.
  revert v. induction fuel as [|fuel IH]; intros v; simpl; [constructor|].
  destruct (v >? 0); [|constructor]. constructor; [|apply IH].
  pose proof (Z.mod_pos_bound v 10 ltac:(lia)) as Hd.
  assert (v mod 10 = 0 \/ v mod 10 = 1 \/ v mod 10 = 2 \/ v mod 10 = 3 \/ v mod 10 = 4 \/
          v mod 10 = 5 \/ v mod 10 = 6 \/ v mod 10 = 7 \/ v mod 10 = 8 \/ v mod 10 = 9)
    as Hcases by lia.
  repeat (destruct Hcases as [->|Hcases]; [reflexivity|]). by rewrite Hcases.
Qed.

Lemma length_digits_rev (fuel : nat) (v : Z) : (length (digits_rev fuel v) <= fuel)%nat.
Proof.
  revert v. induction fuel as [|fuel IH]; intros v; simpl; [lia|].
  destruct (v >? 0); simpl; [|lia]. specialize (IH (v / 10)). lia.
Qed.

Lemma uint32_to_string_spec (v : Z) :
  split_path (uint32_to_string v) = None /\ (String.length (uint32_to_string v) <= 11)%nat.
Proof.
  unfold uint32_to_string. destruct (v =? 0); [split; [done|simpl; lia]|].
  split.
  - apply split_path_no_slash. apply Forall_take, Forall_rev, digits_rev_no_slash.
  - rewrite length_string_of_list_ascii, length_take. lia.
Qed.

Lemma container_dir_eq (id : Z) :
  container_dir id = ("/var/container/" ++ uint32_to_string id)%string.
Proof.
  unfold container_dir. apply substring_all.
  destruct (uint32_to_string_spec id) as [_ Hlen]. cbv [String.append]. simpl. lia.
Qed.

Lemma container_dir_parent (id : Z) : parent_of (container_dir id) = "/var/container"%string.
Proof.
  rewrite container_dir_eq. destruct (uint32_to_string_spec id) as [Hs _].
  unfold parent_of. cbv [String.append]. simpl. rewrite Hs. reflexivity.
Qed.

Lemma container_dir_fresh (id : Z) :
  container_dir id <> "/"%string /\ container_dir id <> "/var"%string /\
  container_dir id <> "/var/container"%string.
Proof. rewrite container_dir_eq. cbv [String.append]. repeat split; discriminate. Qed.


(** *** The store *)

Lemma lookup_node_ne_root (fs : gmap string node) (p : string) :
  p <> "/"%string -> lookup_node fs p = fs !! p.
Proof. intros Hp. unfold lookup_node. by case_bool_decide. Qed.

Lemma ensure_directory (fs : gmap string node) (p : string) :
  p <> "/"%string ->
  (forall d, fs !! p <> Some (NFile d)) ->
  lookup_node fs (parent_of p) = Some NDir ->
  exists fs1, prvEnsureDirectoryExists fs p = (pdPASS, fs1) /\
              fs1 !! p = Some NDir /\
              forall q, q <> p -> fs1 !! q = fs !! q.
Proof.
  intros Hp Hnf Hparent. unfold prvEnsureDirectoryExists, stat, mkdir.
  rewrite lookup_node_ne_root by done.
  destruct (fs !! p) as [[d|]|] eqn:E; simpl.
  - by destruct (Hnf d).
  - exists fs. by destruct (base_of p).
  - rewrite Hparent. simpl. exists (<[p := NDir]> fs).
    split; [done|]. split; [apply lookup_insert_eq|].
    intros q Hq. by apply lookup_insert_ne.
Qed.

Lemma children_nil (fs : gmap string node) (d : string) :
  (forall p n, fs !! p = Some n -> parent_of p <> d) -> children fs d = [].
Proof.
  intros H. unfold children.
  destruct (filter _ _) as [|[p n] l] eqn:E; [done|].
  assert ((p, n) ∈ filter (fun kn : string * node => parent_of kn.1 = d) (map_to_list fs))
    as Hin by (rewrite E; left).
  apply list_elem_of_filter in Hin as [Hpar Hin]. apply elem_of_map_to_list in Hin.
  by destruct (H p n Hin).
Qed.

Lemma count_no_files (entries : list lfs_info) (n : Z) :
  Forall (fun info => type info = LFS_TYPE_DIR) entries ->
  count_files entries n = Some n.
Proof.
  induction 1 as [|info l Hd _ IH]; simpl; [done|].
  rewrite Hd. by destruct (is_dot _).
Qed.

Lemma dir_entries_without_files (fs : gmap string node) (d : string) :
  (forall p data, fs !! p = Some (NFile data) -> parent_of p <> d) ->
  Forall (fun info => type info = LFS_TYPE_DIR) (dir_entries fs d).
Proof.
  intros H. unfold dir_entries. repeat constructor.
  apply Forall_forall. intros info Hin.
  apply list_elem_of_fmap in Hin as ([p n] & -> & Hin).
  apply list_elem_of_filter in Hin as [Hpar Hin]. apply elem_of_map_to_list in Hin.
  destruct n as [data|]; [|done]. by destruct (H p data Hin).
Qed.

(** C7 (amended).  The one-byte image 0x00 unpacks: on a well-formed store
    where the container directory does not exist yet and neither "/var" nor
    "/var/container" is a file, [xContainerUnpackImage] succeeds, the
    container directory exists afterwards and is empty, and the image is
    untouched.  The reverse direction does not hold: for a container
    directory without a regular file, [xContainerPackImage] returns
    [pdFAIL] and leaves the store as it was, so no image is written. *)
Theorem zero_file_image_unpacks_but_is_never_packed
    (xFreeHeap : Z) (fs : gmap string node) (img : string) (id : Z) :
  (well_formed fs ->
   fs !! img = Some (NFile [Byte.x00]) ->
   fs !! container_dir id = None ->
   (forall d, fs !! "/var"%string <> Some (NFile d)) ->
   (forall d, fs !! "/var/container"%string <> Some (NFile d)) ->
   exists fs',
     xContainerUnpackImage true xFreeHeap fs (Some img) id = (pdPASS, fs') /\
     fs' !! container_dir id = Some NDir /\
     children fs' (container_dir id) = [] /\
     fs' !! img = Some (NFile [Byte.x00]))
  /\
  ((forall p data, fs !! p = Some (NFile data) -> parent_of p <> container_dir id) ->
   forall xMounted pcImagePath,
     xContainerPackImage xMounted xFreeHeap fs id pcImagePath = (pdFAIL, fs)).
Proof.
  split.
  - intros [Hroot Hwf] Himg Hdir Hvar Hvc.
    destruct (container_dir_fresh id) as (Hd1 & Hd2 & Hd3).
    pose proof (container_dir_parent id) as Hdp.
    set (dir := container_dir id) in *.
    assert (img <> "/"%string) as Hi0 by congruence.
    assert (img <> "/var"%string) as Hi1 by (intros ->; by destruct (Hvar [Byte.x00])).
    assert (img <> "/var/container"%string) as Hi2
      by (intros ->; by destruct (Hvc [Byte.x00])).
    assert (dir <> img) as Hi3 by congruence.
    destruct (ensure_directory fs "/var") as (fs1 & E1 & Hv1 & Ho1); [done|done|done|].
    destruct (ensure_directory fs1 "/var/container") as (fs2 & E2 & Hv2 & Ho2).
    { done. }
    { intros d. rewrite Ho1 by done. apply Hvc. }
    { change (parent_of "/var/container") with "/var"%string.
      by rewrite lookup_node_ne_root. }
    assert (fs2 !! dir = None) as Hdir2 by (rewrite Ho2, Ho1 by done; done).
    assert (fs2 !! img = Some (NFile [Byte.x00])) as Himg2
      by (rewrite Ho2, Ho1 by done; done).
    exists (<[dir := NDir]> fs2).
    unfold xContainerUnpackImage. simpl. fold dir. rewrite E1. simpl. rewrite E2. simpl.
    unfold prvDirectoryExists, stat, mkdir. rewrite !lookup_node_ne_root by done.
    rewrite Hdir2. simpl. rewrite Hdp, lookup_node_ne_root by done. rewrite Hv2. simpl.
    unfold file_open. rewrite lookup_node_ne_root by done.
    rewrite (lookup_insert_ne fs2 dir img NDir Hi3). rewrite Himg2. simpl.
    unfold file_read. simpl. rewrite lookup_insert_ne by done. rewrite Himg2. simpl.
    split; [done|]. split; [apply lookup_insert_eq|].
    split; [|done].
    apply children_nil. intros p n Hp Hpar.
    destruct (decide (p = dir)) as [->|Hne1]; [congruence|].
    rewrite lookup_insert_ne in Hp by done.
    destruct (decide (p = "/var/container"%string)) as [->|Hne2]; [done|].
    rewrite Ho2 in Hp by done.
    destruct (decide (p = "/var"%string)) as [->|Hne3]; [done|].
    rewrite Ho1 in Hp by done.
    apply Hwf in Hp. rewrite Hpar, lookup_node_ne_root in Hp by done. congruence.
  - intros Hnofiles xMounted pcImagePath. unfold xContainerPackImage.
    destruct pcImagePath as [path|]; [|done].
    destruct (negb xMounted); [done|].
    destruct (negb _); [done|].
    destruct (dir_open fs (container_dir id)) as [rd dir].
    destruct (rd <? 0); [done|].
    rewrite count_no_files by (by apply dir_entries_without_files). done.
Qed.


(** A store that holds nothing but the zero-file image, and what unpacking
    it into container 7 leaves. *)
Definition zero_image_store : gmap string node := {[ "/img.bin"%string := NFile [Byte.x00] ]}.

Definition empty_container_store : gmap string node :=
  snd (xContainerUnpackImage true 65536 zero_image_store (Some "/img.bin"%string) 7).

Lemma zero_image_store_well_formed : well_formed zero_image_store.
Proof.
  split; [reflexivity|]. intros p n Hp. unfold zero_image_store in Hp.
  apply lookup_singleton_Some in Hp as [<- _]. reflexivity.
Qed.

Lemma empty_container_store_no_files (p : string) (data : list Byte.byte) :
  empty_container_store !! p = Some (NFile data) -> parent_of p <> container_dir 7.
Proof.
  intros Hp Hpar. apply elem_of_map_to_list in Hp. vm_compute in Hp.
  repeat (apply elem_of_cons in Hp as [Hp|Hp];
          [injection Hp as -> ?; try discriminate; vm_compute in Hpar; discriminate|]).
  by apply elem_of_nil in Hp.
Qed.

(** The theorem at the store with the single image, and at the store its
    unpacking produces. *)
Lemma zero_file_image_unpacks_but_is_never_packed_witness :
  (exists fs',
     xContainerUnpackImage true 65536 zero_image_store (Some "/img.bin"%string) 7
       = (pdPASS, fs') /\
     fs' !! container_dir 7 = Some NDir /\
     children fs' (container_dir 7) = [] /\
     fs' !! "/img.bin"%string = Some (NFile [Byte.x00])) /\
  xContainerPackImage true 65536 empty_container_store 7 (Some "/out.bin"%string)
  = (pdFAIL, empty_container_store).
Proof.
  split.
  - apply (proj1 (zero_file_image_unpacks_but_is_never_packed 65536 zero_image_store
                    "/img.bin" 7)).
    + exact zero_image_store_well_formed.
    + reflexivity.
    + reflexivity.
    + intros d. vm_compute. discriminate.
    + intros d. vm_compute. discriminate.
  - apply (proj2 (zero_file_image_unpacks_but_is_never_packed 65536 empty_container_store
                    "/img.bin" 7)).
    exact empty_container_store_no_files.
Defined.

(** C7 as stated fails in the pack direction: the container directory
    exists and is empty, packing it does not succeed and no image file
    appears at the given path. *)
Lemma packing_an_empty_directory_fails :
  lookup_node empty_container_store (container_dir 7) = Some NDir /\
  children empty_container_store (container_dir 7) = [] /\
  fst (xContainerPackImage true 65536 empty_container_store 7 (Some "/out.bin"%string))
    = pdFAIL /\
  fst (xContainerPackImage true 65536 empty_container_store 7 (Some "/out.bin"%string))
    <> pdPASS /\
  snd (xContainerPackImage true 65536 empty_container_store 7 (Some "/out.bin"%string))
    !! "/out.bin"%string = None.
Proof.
  split; [|split; [|split; [|split]]]; vm_compute; congruence.
Qed.

(** *** Directories survive the record loop *)

Lemma file_open_keeps_directory (fs : gmap string node) (p d : string) (flags : Z) :
  fs !! d = Some NDir -> (file_open fs p flags).2 !! d = Some NDir.
Proof.
  intros Hd. unfold file_open, lookup_node.
  case_bool_decide; [done|].
  destruct (fs !! p) as [[data|]|] eqn:E.
  - assert (p <> d) by congruence.
    destruct (_ && _); simpl; [by rewrite lookup_insert_ne|done].
  - done.
  - assert (p <> d) by congruence.
    destruct (has_flag _ _); [|done].
    case_bool_decide; simpl; [by rewrite lookup_insert_ne|].
    destruct (fs !! parent_of p) as [[|]|]; simpl; [done| |done].
    by rewrite lookup_insert_ne.
Qed.

Lemma file_write_keeps_directory (fs : gmap string node) (f : lfs_file_t)
    (buf : list Byte.byte) (d : string) :
  fs !! d = Some NDir -> (file_write fs f buf).2 !! d = Some NDir.
Proof.
  intros Hd. unfold file_write. destruct (negb _); [done|].
  destruct (fs !! f_path f) as [[data|]|] eqn:E; [|done|done].
  assert (f_path f <> d) by congruence. simpl. by rewrite lookup_insert_ne.
Qed.

(** Once the record loop runs, the container directory is there to stay,
    however the loop ends. *)
Lemma unpack_files_keeps_directory xFreeHeap dir n fs image_file d :
  fs !! d = Some NDir ->
  (unpack_files xFreeHeap dir n fs image_file).2 !! d = Some NDir.
Proof.
  revert fs image_file. induction n as [|n IH]; intros fs image_file Hd; [done|].
  simpl.
  destruct (file_read fs image_file 8) as [[r1 size_bytes] f1].
  destruct (negb (r1 =? 8)); [done|].
  destruct (file_read fs f1 256) as [[r2 name_bytes] f2].
  destruct (negb (r2 =? 256)); [done|].
  destruct (_ && _); [done|].
  destruct (le_decode size_bytes >? 0).
  - destruct (file_read fs f2 _) as [[r3 buf] f3].
    destruct (negb (r3 =? _)); [done|].
    pose proof (file_open_keeps_directory fs
                  (build_file_path 319 dir (cstring (take 255 name_bytes))) d
                  open_for_output Hd) as Ho.
    destruct (file_open fs _ open_for_output) as [[r4 out] fs1]. simpl in Ho.
    destruct (r4 <? 0); [done|].
    pose proof (file_write_keeps_directory fs1 out buf d Ho) as Hw.
    destruct (file_write fs1 out buf) as [[r5 out'] fs2]. simpl in Hw.
    destruct (negb (r5 =? _)); [done|]. by apply IH.
  - simpl.
    pose proof (file_open_keeps_directory fs
                  (build_file_path 319 dir (cstring (take 255 name_bytes))) d
                  open_for_output Hd) as Ho.
    destruct (file_open fs _ open_for_output) as [[r4 out] fs1]. simpl in Ho.
    destruct (r4 <? 0); [done|]. simpl. by apply IH.
Qed.
(** Images that break off: an empty file; a count of one and nothing else;
    one record that announces five payload bytes and brings two. *)
Definition empty_image : gmap string node := {[ "/img.bin"%string := NFile [] ]}.

Definition headless_image : gmap string node := {[ "/img.bin"%string := NFile [Byte.x01] ]}.

Definition short_payload_image : gmap string node :=
  {[ "/img.bin"%string :=
       NFile (Byte.x01 :: le_encode 8 5 ++ name_field "a" ++ [Byte.x78; Byte.x78]) ]}.

(** C6.  In each of the three cases the container directory has been
    created, a read of the image then fails and [xContainerUnpackImage]
    returns [pdFAIL]; the specification expects the directory to be removed, but it
    is still there.  The directory is removed only on the path taken when
    the image cannot be opened. *)
Theorem failed_unpack_leaves_container_directory :
  let unpack fs := xContainerUnpackImage true 65536 fs (Some "/img.bin"%string) 1 in
  (* the file count cannot be read *)
  fst (unpack empty_image) = pdFAIL /\
  snd (unpack empty_image) !! container_dir 1 = Some NDir /\
  (* the size of the first record cannot be read *)
  fst (unpack headless_image) = pdFAIL /\
  snd (unpack headless_image) !! container_dir 1 = Some NDir /\
  (* the payload is short *)
  fst (unpack short_payload_image) = pdFAIL /\
  snd (unpack short_payload_image) !! container_dir 1 = Some NDir /\
  (* only when the image cannot be opened is the directory removed *)
  fst (xContainerUnpackImage true 65536 empty_image (Some "/missing.bin"%string) 1) = pdFAIL /\
  snd (xContainerUnpackImage true 65536 empty_image (Some "/missing.bin"%string) 1)
    !! container_dir 1 = None.
Proof. vm_compute. repeat split; congruence. Qed.

End ImageFacts.

(** ** Laws of the cgroup controller *)

Module CGroupLaws.
Import CGroup CGroupFacts.

(** *** Memory accounting *)

Definition memory_ok (g : CGroup_t) : Prop :=
  0 <= ulMemoryUsed (xMemoryLimits g) <= ulMemoryPeak (xMemoryLimits g).

(** The CPU window and the tick touch the CPU fields only, and among them
    neither quota. *)
Definition same_frame (g g' : CGroup_t) : Prop :=
  pcGroupName g' = pcGroupName g /\
  xMemoryLimits g' = xMemoryLimits g /\
  uxTaskCount g' = uxTaskCount g /\
  xActive g' = xActive g /\
  ulCpuQuota (xCpuLimits g') = ulCpuQuota (xCpuLimits g) /\
  ulTicksQuota (xCpuLimits g') = ulTicksQuota (xCpuLimits g).

Lemma update_window_frame ubits tbits W now g g1 :
  prvUpdateCpuWindow ubits tbits W now g = Some g1 -> same_frame g g1.
Proof.
  unfold prvUpdateCpuWindow. destruct (window_elapsed _ _ _); [|by intros [= <-]].
  unfold prvCalculatePenalty. destruct (_ && _).
  - destruct (_ =? 0); [done|]. intros [= <-]. unfold start_window. simpl.
    by destruct (_ >? 0).
  - intros [= <-]. unfold start_window. simpl. by destruct (_ >? 0).
Qed.

Lemma update_slot_frame ubits tbits W bitmap now i g g' :
  update_slot ubits tbits W bitmap now i g = Some g' -> same_frame g g'.
Proof.
  unfold update_slot. destruct (_ && _); [|by intros [= <-]].
  destruct (prvUpdateCpuWindow ubits tbits W now g) as [g1|] eqn:E; [|done]. intros [= <-].
  apply update_window_frame in E as (H1 & H2 & H3 & H4 & H5 & H6).
  unfold reduce_penalty. by destruct (_ >? 0).
Qed.

Lemma update_slot_memory ubits tbits W bitmap now i g g' :
  update_slot ubits tbits W bitmap now i g = Some g' -> xMemoryLimits g' = xMemoryLimits g.
Proof. intros H. by apply update_slot_frame in H as (_ & H & _). Qed.

Lemma run_op_memory_ok ubits tbits W st o :
  0 <= ubits ->
  Forall memory_ok (xCGroups st) ->
  Forall memory_ok (xCGroups (run_op ubits tbits W st o)).
Proof.
  intros Hu Hall.
  assert (forall i g g', xCGroups st !! i = Some g ->
            xMemoryLimits g' = xMemoryLimits g ->
            Forall memory_ok (<[i := g']> (xCGroups st))) as Hsame.
  { intros i g g' Hi Hm. apply Forall_insert; [done|]. unfold memory_ok. rewrite Hm.
    rewrite Forall_lookup in Hall. by apply (Hall i g). }
  destruct o as [n m q|h|h t|h t|h q|t d|h|h m|h|t|]; simpl.
  - unfold xCGroupCreate. destruct (prvFindFreeCGroupSlot st); [|done]. simpl.
    apply Forall_insert; [done|]. unfold memory_ok. simpl. lia.
  - unfold xCGroupDelete. destruct (prvGetCGroupIndex h) as [i|]; [|done].
    destruct (xCGroups st !! i) as [g|] eqn:E; [|done].
    destruct (_ >? 0); [done|]. simpl. by eapply Hsame.
  - unfold xCGroupAddTask. destruct h as [i|]; [|done].
    destruct (xCGroups st !! i) as [g|] eqn:E; [|done].
    destruct (_ || _); [done|].
    unfold prvAddTaskToMap. destruct (_ <=? _)%nat; [done|].
    destruct (prvGetCGroupFromTask st t); [done|]. simpl. by eapply Hsame.
  - unfold xCGroupRemoveTask. destruct h as [i|]; [|done].
    destruct (t =? NULL); [done|]. destruct (negb _); [done|].
    unfold prvRemoveTaskFromMap. destruct (map_index_from _ _ _); [|done]. simpl.
    destruct (xCGroups st !! i) as [g|] eqn:E; [|done]. simpl. by eapply Hsame.
  - unfold xCGroupSetCpuQuota. destruct h as [i|]; [|done].
    destruct (xCGroups st !! i) as [g|] eqn:E; [|done].
    destruct (_ =? _); [done|]. destruct (_ >? _); [done|]. simpl. by eapply Hsame.
  - unfold xCGroupUpdateMemoryUsage. destruct (_ =? NULL); [done|].
    destruct (prvGetCGroupFromTask st t) as [i|]; [|done]. simpl.
    apply Forall_lookup. intros j g. rewrite list_lookup_alter.
    rewrite Forall_lookup in Hall. specialize (Hall j).
    destruct (decide (i = j)) as [->|Hne]; [|by apply Hall].
    destruct (xCGroups st !! j) as [g0|]; [|done]. simpl. intros [= <-].
    destruct (Hall g0 eq_refl) as [H0 Hp]. unfold memory_ok.
    generalize (wrapS ubits d). clear d. intros d.
    destruct (Z.gtb_spec d 0) as [Hd|Hd]; simpl.
    + pose proof (wrapU_nonneg ubits (ulMemoryUsed (xMemoryLimits g0) + d) Hu) as Hw.
      destruct (Z.gtb_spec (wrapU ubits (ulMemoryUsed (xMemoryLimits g0) + d))
                  (ulMemoryPeak (xMemoryLimits g0))); lia.
    + pose proof (wrapU_nonneg ubits (- d) Hu) as Hw.
      destruct (Z.gtb_spec (wrapU ubits (- d)) (ulMemoryUsed (xMemoryLimits g0))); lia.
  - unfold xCGroupGetStats. destruct h as [i|]; [|done].
    destruct (xCGroups st !! i) as [g|] eqn:E; [|done].
    destruct (_ =? _); [done|].
    destruct (prvUpdateCpuWindow ubits tbits W (xTickCount st) g) as [g1|] eqn:E1; [|done].
    simpl. eapply Hsame; [done|]. by apply update_window_frame in E1 as (_ & H & _).
  - unfold xCGroupSetMemoryLimit. destruct h as [i|]; [|done].
    destruct (xCGroups st !! i) as [g|] eqn:E; [|done].
    destruct (_ =? _); [done|]. simpl. apply Forall_insert; [done|].
    rewrite Forall_lookup in Hall. apply (Hall i g E).
  - unfold xCGroupResetMemoryStats. destruct h as [i|]; [|done].
    destruct (xCGroups st !! i) as [g|] eqn:E; [|done].
    destruct (_ =? _); [done|]. simpl. apply Forall_insert; [done|].
    unfold memory_ok. simpl. lia.
  - done.
  - unfold xTaskIncrementTick, prvCGroupUpdateTick.
    destruct (update_slots _ _ _ _ _ _ _) as [gs|] eqn:E; [|done]. simpl.
    eapply update_slots_Forall; [|exact E|].
    + intros i g g' Hg Hok. unfold memory_ok. by rewrite (update_slot_memory _ _ _ _ _ _ _ _ Hg).
    + apply charge_Forall; [|done]. by intros g u.
Qed.

(** X1.  In every state the controller reaches from boot, the memory a
    cgroup has in use is non-negative and never above its recorded peak. *)
Theorem memory_peak_bounds_usage ubits tbits W now cur ops :
  0 <= ubits ->
  Forall (fun g => 0 <= ulMemoryUsed (xMemoryLimits g) <= ulMemoryPeak (xMemoryLimits g))
    (xCGroups (fold_left (run_op ubits tbits W) ops (boot_state now cur))).
Proof.
  intros Hu.
  assert (Forall memory_ok (xCGroups (boot_state now cur))) as Hboot.
  { simpl. repeat constructor; simpl; lia. }
  revert Hboot. generalize (boot_state now cur).
  induction ops as [|o ops IH]; intros st Hall; [done|].
  simpl. apply IH. by apply run_op_memory_ok.
Qed.

Lemma memory_peak_bounds_usage_witness :
  Forall (fun g => 0 <= ulMemoryUsed (xMemoryLimits g) <= ulMemoryPeak (xMemoryLimits g))
    (xCGroups (fold_left (run_op 32 32 1000)
       [OpCreate "Hi" 16384 100; OpAddTask (Some 0%nat) 4096;
        OpUpdateMemoryUsage 4096 512; OpUpdateMemoryUsage 4096 (-128)]
       (boot_state 0 4096))).
Proof.
  apply (memory_peak_bounds_usage 32 32 1000 0 4096). lia.
Defined.

Lemma task_of_bound_not_null st t i : prvGetCGroupFromTask st t = Some i -> (t =? NULL) = false.
Proof. unfold prvGetCGroupFromTask. by destruct (t =? NULL). Qed.

(** A delta within the range of a signed word is passed unchanged. *)
Lemma wrapS_small ubits x :
  - 2 ^ (ubits - 1) <= x < 2 ^ (ubits - 1) -> wrapS ubits x = x.
Proof.
  intros Hx. unfold wrapS.
  assert (0 < ubits) as Hpos.
  { destruct (Z.ltb_spec 0 ubits) as [|Hle]; [done|].
    rewrite (Z.pow_neg_r 2 (ubits - 1)) in Hx by lia. lia. }
  replace (2 ^ ubits) with (2 * 2 ^ (ubits - 1)).
  2:{ rewrite <- Z.pow_succ_r by lia. f_equal. lia. }
  rewrite Z.mod_small by lia. lia.
Qed.

(** X2.  An allocation of a size that fits a signed word and that
    [xCGroupCheckMemoryLimit] lets in keeps the cgroup within its limit once
    it is charged with [xCGroupUpdateMemoryUsage]; one that it refuses would
    not. *)
Theorem checked_allocation_stays_within_limit ubits st t ulSize i g :
  0 < ulSize < 2 ^ (ubits - 1) ->
  prvGetCGroupFromTask st t = Some i ->
  xCGroups st !! i = Some g ->
  ulMemoryLimit (xMemoryLimits g) <> CGROUP_NO_LIMIT ubits ->
  exists g',
    xCGroups (snd (xCGroupUpdateMemoryUsage ubits st t ulSize)) !! i = Some g' /\
    ulMemoryLimit (xMemoryLimits g') = ulMemoryLimit (xMemoryLimits g) /\
    (xCGroupCheckMemoryLimit ubits st t ulSize = pdTRUE <->
     ulMemoryUsed (xMemoryLimits g') <= ulMemoryLimit (xMemoryLimits g')).
Proof.
  intros Hsz Hget Hg Hlim.
  unfold xCGroupUpdateMemoryUsage, xCGroupCheckMemoryLimit.
  rewrite (task_of_bound_not_null st t i Hget), Hget, Hg. simpl.
  rewrite list_lookup_alter, decide_True by done. rewrite Hg. simpl.
  rewrite wrapS_small by lia.
  destruct (Z.gtb_spec ulSize 0) as [_|]; [|lia].
  eexists. split; [reflexivity|]. simpl. split; [done|].
  destruct (Z.eqb_spec (ulMemoryLimit (xMemoryLimits g)) (CGROUP_NO_LIMIT ubits)); [done|].
  destruct (Z.leb_spec (wrapU ubits (ulMemoryUsed (xMemoryLimits g) + ulSize))
              (ulMemoryLimit (xMemoryLimits g))); split; try done; unfold pdTRUE, pdFALSE; lia.
Qed.

Lemma checked_allocation_stays_within_limit_witness :
  exists g',
    xCGroups (snd (xCGroupUpdateMemoryUsage 32 demo_state 4096 512)) !! 0%nat = Some g' /\
    ulMemoryLimit (xMemoryLimits g') = 16384 /\
    (xCGroupCheckMemoryLimit 32 demo_state 4096 512 = pdTRUE <->
     ulMemoryUsed (xMemoryLimits g') <= ulMemoryLimit (xMemoryLimits g')).
Proof.
  apply (checked_allocation_stays_within_limit 32 demo_state 4096 512 0%nat demo_cgroup).
  - simpl. lia.
  - reflexivity.
  - reflexivity.
  - vm_compute. congruence.
Defined.

(** A size of half the word range or more arrives as a negative delta: the
    allocation is let in by the check and yet the usage is not raised. *)
Lemma oversized_allocation_is_a_release :
  let ulSize := 2 ^ 31 in
  let st := snd (xCGroupSetMemoryLimit demo_state (Some 0%nat) (2 ^ 31 + 4096)) in
  let st1 := snd (xCGroupUpdateMemoryUsage 32 st 4096 1024) in
  xCGroupCheckMemoryLimit 32 st1 4096 ulSize = pdTRUE /\
  ulMemoryUsed <$> (xMemoryLimits <$> xCGroups st1 !! 0%nat) = Some 1024 /\
  ulMemoryUsed <$> (xMemoryLimits <$>
    xCGroups (snd (xCGroupUpdateMemoryUsage 32 st1 4096 ulSize)) !! 0%nat) = Some 0.
Proof. vm_compute. repeat split; reflexivity. Qed.

(** X3.  Releasing what was just allocated, of a size that fits a signed
    word, restores the usage of the cgroup; the peak keeps the high-water
    mark. *)
Theorem release_undoes_allocation ubits st t n i g :
  0 < n < 2 ^ (ubits - 1) ->
  prvGetCGroupFromTask st t = Some i ->
  xCGroups st !! i = Some g ->
  0 <= ulMemoryUsed (xMemoryLimits g) ->
  ulMemoryUsed (xMemoryLimits g) + n < 2 ^ ubits ->
  let st1 := snd (xCGroupUpdateMemoryUsage ubits st t n) in
  snd (xCGroupUpdateMemoryUsage ubits st1 t (- n)) =
  set_groups st
    (<[i := set_mem g
              (mkMem (ulMemoryLimit (xMemoryLimits g)) (ulMemoryUsed (xMemoryLimits g))
                 (Z.max (ulMemoryPeak (xMemoryLimits g))
                    (ulMemoryUsed (xMemoryLimits g) + n)))]> (xCGroups st)).
Proof.
  intros Hn Hget Hg H0 Hfit st1. subst st1.
  unfold xCGroupUpdateMemoryUsage.
  rewrite (task_of_bound_not_null st t i Hget), Hget. simpl.
  assert (prvGetCGroupFromTask
            (set_groups st (alter (fun g0 => _) i (xCGroups st))) t = Some i) as ->.
  { exact Hget. }
  simpl. unfold set_groups. simpl. f_equal.
  apply list_eq. intros j. rewrite !list_lookup_alter.
  destruct (decide (i = j)) as [<-|Hne].
  2:{ by rewrite list_lookup_insert_ne. }
  rewrite Hg. rewrite list_lookup_insert_eq by (by eapply lookup_lt_Some).
  simpl. f_equal.
  rewrite !wrapS_small by lia.
  destruct (Z.gtb_spec n 0) as [_|]; [|lia].
  destruct (Z.gtb_spec (- n) 0) as [|_]; [lia|].
  assert (wrapU ubits (ulMemoryUsed (xMemoryLimits g) + n) = ulMemoryUsed (xMemoryLimits g) + n)
    as Hw1 by (unfold wrapU; apply Z.mod_small; lia).
  assert (wrapU ubits (- - n) = n) as Hw2.
  { unfold wrapU. rewrite Z.opp_involutive. apply Z.mod_small. lia. }
  unfold set_mem. simpl. rewrite Hw1, Hw2.
  rewrite decide_True by done. simpl. f_equal. f_equal. f_equal.
  - destruct (Z.gtb_spec n (ulMemoryUsed (xMemoryLimits g) + n)); lia.
  - destruct (Z.gtb_spec (ulMemoryUsed (xMemoryLimits g) + n) (ulMemoryPeak (xMemoryLimits g)));
      lia.
Qed.

Lemma release_undoes_allocation_witness :
  snd (xCGroupUpdateMemoryUsage 32 (snd (xCGroupUpdateMemoryUsage 32 demo_state 4096 512))
         4096 (- 512)) =
  set_groups demo_state
    (<[0%nat := set_mem demo_cgroup (mkMem 16384 0 512)]> (xCGroups demo_state)).
Proof.
  apply (release_undoes_allocation 32 demo_state 4096 512 0%nat demo_cgroup).
  - simpl. lia.
  - reflexivity.
  - reflexivity.
  - simpl. lia.
  - simpl. lia.
Defined.

(** *** The task mapping table *)

(** The mappings that bind a task to the cgroup in slot [i]. *)
Definition bound_to (i : nat) (m : list TaskCGroupMap_t) : list TaskCGroupMap_t :=
  filter (fun e => xCGroup e = Some i) m.

#[local] Arguments bound_to : simpl never.

(** What the controller keeps true of its tables: every mapping holds a task
    and a slot of the table, no task is mapped twice, the table is not
    overfull, a cgroup's task count is the number of tasks mapped to it, and
    a slot that is active or has tasks is marked in the bitmap. *)
Record registry_ok (st : state) : Prop := mkRegistryOk {
  ok_length : length (xCGroups st) = configMAX_CGROUPS;
  ok_entries :
    Forall (fun e => xTask e <> NULL /\
                     exists i, xCGroup e = Some i /\ (i < configMAX_CGROUPS)%nat)
           (xTaskCGroupMap st);
  ok_nodup : NoDup (xTask <$> xTaskCGroupMap st);
  ok_room : (length (xTaskCGroupMap st) <= configMAX_CGROUPS * 8)%nat;
  ok_slots : forall i g, xCGroups st !! i = Some g ->
    uxTaskCount g = Z.of_nat (length (bound_to i (xTaskCGroupMap st))) /\
    (xActive g <> pdFALSE -> Z.testbit (uxCGroupBitmap st) (Z.of_nat i) = true) /\
    (bound_to i (xTaskCGroupMap st) <> [] ->
     Z.testbit (uxCGroupBitmap st) (Z.of_nat i) = true) }.

Lemma map_lookup_absent (m : list TaskCGroupMap_t) (t : TaskHandle_t) :
  t ∉ xTask <$> m -> map_lookup m t = None.
Proof.
  induction m as [|e m IH]; simpl; [done|]. intros Hn.
  rewrite not_elem_of_cons in Hn. destruct Hn as [Hne Hn].
  destruct (Z.eqb_spec (xTask e) t); [congruence|]. by apply IH.
Qed.

Lemma map_lookup_present (m : list TaskCGroupMap_t) (e : TaskCGroupMap_t) :
  NoDup (xTask <$> m) -> e ∈ m -> map_lookup m (xTask e) = xCGroup e.
Proof.
  induction m as [|e0 m IH]; simpl; [by intros _ ?%elem_of_nil|].
  intros [Hn Hnd]%NoDup_cons [->|Hin]%elem_of_cons.
  - by rewrite Z.eqb_refl.
  - destruct (Z.eqb_spec (xTask e0) (xTask e)) as [Heq|_]; [|by apply IH].
    exfalso. apply Hn. rewrite Heq. by apply list_elem_of_fmap_2.
Qed.

Lemma map_lookup_Permutation (m m' : list TaskCGroupMap_t) (t : TaskHandle_t) :
  NoDup (xTask <$> m) -> m ≡ₚ m' -> map_lookup m t = map_lookup m' t.
Proof.
  intros Hnd Hp.
  assert (NoDup (xTask <$> m')) as Hnd' by (by rewrite <- Hp).
  destruct (decide (t ∈ xTask <$> m)) as [Hin|Hout].
  - apply list_elem_of_fmap in Hin. destruct Hin as (e & -> & He).
    rewrite (map_lookup_present m e Hnd He).
    rewrite (map_lookup_present m' e Hnd'); [done|]. by rewrite <- Hp.
  - rewrite (map_lookup_absent m t Hout). symmetry. apply map_lookup_absent.
    by rewrite <- Hp.
Qed.

Lemma map_lookup_some_elem (m : list TaskCGroupMap_t) (t : TaskHandle_t) (i : nat) :
  map_lookup m t = Some i -> mkMap t (Some i) ∈ m.
Proof.
  induction m as [|e m IH]; simpl; [done|].
  destruct (Z.eqb_spec (xTask e) t) as [<-|_].
  - intros <-. destruct e. apply elem_of_cons. by left.
  - intros H. apply elem_of_cons. right. by apply IH.
Qed.

Lemma map_lookup_none_absent (m : list TaskCGroupMap_t) (t : TaskHandle_t) :
  Forall (fun e => xTask e <> NULL /\
                   exists i, xCGroup e = Some i /\ (i < configMAX_CGROUPS)%nat) m ->
  map_lookup m t = None -> t ∉ xTask <$> m.
Proof.
  induction 1 as [|e m (_ & i & Hi & _) _ IH]; simpl; [by intros _ ?%elem_of_nil|].
  destruct (Z.eqb_spec (xTask e) t) as [_|Hne]; [congruence|].
  intros H. apply not_elem_of_cons. split; [done|]. by apply IH.
Qed.

Lemma map_index_from_spec (m : list TaskCGroupMap_t) (t : TaskHandle_t) (n ux : nat) :
  map_index_from m t n = Some ux ->
  exists e, m !! (ux - n)%nat = Some e /\ xTask e = t /\ (n <= ux)%nat.
Proof.
  revert n. induction m as [|e m IH]; intros n; simpl; [done|].
  destruct (Z.eqb_spec (xTask e) t) as [Heq|_].
  - intros [= <-]. exists e. rewrite Nat.sub_diag. by split; [|split].
  - intros H. destruct (IH _ H) as (e' & He' & Ht & Hle). exists e'.
    split; [|split; [done|lia]].
    replace (ux - n)%nat with (S (ux - S n)) by lia. done.
Qed.

Lemma map_index_from_absent (m : list TaskCGroupMap_t) (t : TaskHandle_t) (n : nat) :
  t ∉ xTask <$> m -> map_index_from m t n = None.
Proof.
  revert n. induction m as [|e m IH]; intros n; simpl; [done|]. intros Hn.
  rewrite not_elem_of_cons in Hn. destruct Hn as [Hne Hn].
  destruct (Z.eqb_spec (xTask e) t); [congruence|]. by apply IH.
Qed.

(** The table after [prvRemoveTaskFromMap] took the entry at [ux] out: the
    same entries, in some order. *)
Lemma remove_Permutation {A} (m : list A) (ux : nat) (e : A) :
  last m = Some e -> (ux < length m)%nat ->
  take (length m - 1) (if (ux <? length m - 1)%nat then <[ux := e]> m else m)
  ≡ₚ delete ux m.
Proof.
  intros Hlast Hux.
  destruct (last_Some m e) as [[m' ->] _]; [done|].
  rewrite length_app in *. simpl in *.
  replace (length m' + 1 - 1)%nat with (length m') by lia.
  destruct (Nat.ltb_spec ux (length m')) as [Hlt|Hge].
  - rewrite insert_app_l by done. rewrite take_app_length' by (by rewrite length_insert).
    rewrite delete_take_drop. rewrite take_app_le by lia.
    replace (drop (S ux) (m' ++ [e])) with (drop (S ux) m' ++ [e])
      by (rewrite drop_app_le by lia; done).
    rewrite insert_take_drop by done.
    rewrite app_assoc. rewrite (Permutation_app_comm _ [e]). simpl.
    by rewrite Permutation_middle.
  - assert (ux = length m') as -> by lia.
    rewrite take_app_length. rewrite delete_take_drop.
    rewrite take_app_length. rewrite drop_ge by (rewrite length_app; simpl; lia).
    by rewrite app_nil_r.
Qed.


Lemma registry_ok_same st st' :
  registry_ok st ->
  xTaskCGroupMap st' = xTaskCGroupMap st ->
  uxCGroupBitmap st' = uxCGroupBitmap st ->
  length (xCGroups st') = length (xCGroups st) ->
  (forall i g', xCGroups st' !! i = Some g' ->
     exists g, xCGroups st !! i = Some g /\
               uxTaskCount g' = uxTaskCount g /\ xActive g' = xActive g) ->
  registry_ok st'.
Proof.
  intros [Hlen Hent Hnd Hroom Hslots] Hm Hb Hl Hg.
  split; rewrite ?Hm, ?Hb; try done; [congruence|].
  intros i g' Hi. destruct (Hg i g' Hi) as (g & Hgi & -> & ->). by apply Hslots.
Qed.

Lemma insert_same_membership (l : list CGroup_t) (i : nat) (g g' : CGroup_t) :
  l !! i = Some g -> uxTaskCount g' = uxTaskCount g -> xActive g' = xActive g ->
  forall j h', <[i := g']> l !! j = Some h' ->
    exists h, l !! j = Some h /\ uxTaskCount h' = uxTaskCount h /\ xActive h' = xActive h.
Proof.
  intros Hi Hc Ha j h'. destruct (decide (i = j)) as [<-|Hne].
  - rewrite list_lookup_insert_eq by (by eapply lookup_lt_Some). intros [= <-]. by exists g.
  - rewrite list_lookup_insert_ne by done. intros H. by exists h'.
Qed.

Lemma alter_same_membership (l : list CGroup_t) (i : nat) (f : CGroup_t -> CGroup_t) :
  (forall g, uxTaskCount (f g) = uxTaskCount g /\ xActive (f g) = xActive g) ->
  forall j h', alter f i l !! j = Some h' ->
    exists h, l !! j = Some h /\ uxTaskCount h' = uxTaskCount h /\ xActive h' = xActive h.
Proof.
  intros Hf j h'. rewrite list_lookup_alter. destruct (decide (i = j)) as [<-|Hne].
  - destruct (l !! i) as [g|]; [|done]. simpl. intros [= <-]. exists g.
    destruct (Hf g). by split.
  - intros H. by exists h'.
Qed.

Lemma update_window_membership ubits tbits W now g g1 :
  prvUpdateCpuWindow ubits tbits W now g = Some g1 ->
  uxTaskCount g1 = uxTaskCount g /\ xActive g1 = xActive g.
Proof. intros H. by apply update_window_frame in H as (_ & _ & Hc & Ha & _). Qed.

Lemma update_slot_membership ubits tbits W bitmap now i g g' :
  update_slot ubits tbits W bitmap now i g = Some g' ->
  uxTaskCount g' = uxTaskCount g /\ xActive g' = xActive g.
Proof. intros H. by apply update_slot_frame in H as (_ & _ & Hc & Ha & _). Qed.

Lemma bound_to_le (i : nat) (m : list TaskCGroupMap_t) :
  (length (bound_to i m) <= length m)%nat.
Proof. apply length_filter. Qed.

Lemma create_registry_ok ubits W st name mem q :
  registry_ok st -> registry_ok (snd (xCGroupCreate ubits W st name mem q)).
Proof.
  intros Hok. destruct Hok as [Hlen Hent Hnd Hroom Hslots] eqn:Hrec. clear Hrec.
  unfold xCGroupCreate, prvFindFreeCGroupSlot.
  destruct (prvFindFreeCGroupSlot_from _ _ _) as [x|] eqn:Hfind; [|by split].
  apply ContainerFacts.cgroup_find_free in Hfind. destruct Hfind as [Hclear Hx].
  assert (x < length (xCGroups st))%nat as Hxl by (rewrite Hlen; lia).
  split; simpl; try done.
  { by rewrite length_insert. }
  intros i g. destruct (decide (x = i)) as [<-|Hne].
  - rewrite list_lookup_insert_eq by done. intros [= <-]. simpl.
    destruct (lookup_lt_is_Some_2 _ _ Hxl) as [g0 Hg0].
    destruct (Hslots x g0 Hg0) as (_ & _ & Hb).
    assert (bound_to x (xTaskCGroupMap st) = []) as ->.
    { destruct (bound_to x (xTaskCGroupMap st)) eqn:E; [done|].
      rewrite Hb in Hclear; done. }
    split; [done|]. split; [|done]. intros _.
    rewrite testbit_lor_bit. rewrite bool_decide_eq_true_2 by done. apply orb_true_r.
  - rewrite list_lookup_insert_ne by done. intros Hi.
    destruct (Hslots i g Hi) as (Hc & Ha & Hb). split; [done|].
    rewrite testbit_lor_bit.
    split; intros H; [rewrite Ha by done|rewrite Hb by done]; done.
Qed.

Lemma delete_registry_ok st h :
  registry_ok st -> registry_ok (snd (xCGroupDelete st h)).
Proof.
  intros Hok. destruct Hok as [Hlen Hent Hnd Hroom Hslots] eqn:Hrec. clear Hrec.
  unfold xCGroupDelete. destruct (prvGetCGroupIndex h) as [x|]; [|by split].
  destruct (xCGroups st !! x) as [g0|] eqn:Hg0; [|by split].
  destruct (Z.gtb_spec (uxTaskCount g0) 0) as [|Hz]; [by split|].
  destruct (Hslots x g0 Hg0) as (Hc0 & _ & _).
  assert (bound_to x (xTaskCGroupMap st) = []) as Hnone.
  { destruct (bound_to x (xTaskCGroupMap st)) eqn:E; [done|]. simpl in Hc0. lia. }
  split; simpl; try done.
  { by rewrite length_insert. }
  intros i g. destruct (decide (x = i)) as [<-|Hne].
  - rewrite list_lookup_insert_eq by (by eapply lookup_lt_Some). intros [= <-]. simpl.
    split; [done|]. split; [done|]. by rewrite Hnone.
  - rewrite list_lookup_insert_ne by done. intros Hi.
    destruct (Hslots i g Hi) as (Hc & Ha & Hb). split; [done|].
    rewrite testbit_clear_bit. rewrite bool_decide_eq_false_2 by done. simpl.
    rewrite andb_true_r. by split.
Qed.

Lemma add_registry_ok ubits st h t :
  Z.of_nat (configMAX_CGROUPS * 8) < 2 ^ ubits ->
  registry_ok st -> registry_ok (snd (xCGroupAddTask ubits st h t)).
Proof.
  intros Hbits Hok. destruct Hok as [Hlen Hent Hnd Hroom Hslots] eqn:Hrec. clear Hrec.
  unfold xCGroupAddTask. destruct h as [x|]; [|by split].
  destruct (xCGroups st !! x) as [g0|] eqn:Hg0; [|by split].
  destruct (Z.eqb_spec t NULL) as [|Ht]; simpl; [by split|].
  destruct (Z.eqb_spec (xActive g0) pdFALSE) as [|Hact]; simpl; [by split|].
  unfold prvAddTaskToMap, uxMapCount.
  destruct (Nat.leb_spec (configMAX_CGROUPS * 8) (length (xTaskCGroupMap st))) as [|Hfree];
    [by split|].
  unfold prvGetCGroupFromTask. destruct (Z.eqb_spec t NULL) as [|_]; [done|].
  destruct (map_lookup (xTaskCGroupMap st) t) eqn:Hlk; [by split|]. simpl.
  pose proof (map_lookup_none_absent _ _ Hent Hlk) as Habs.
  assert (x < configMAX_CGROUPS)%nat as Hx by (rewrite <- Hlen; by eapply lookup_lt_Some).
  destruct (Hslots x g0 Hg0) as (Hc0 & Ha0 & _).
  split; simpl.
  - by rewrite length_insert.
  - apply Forall_app. split; [done|]. constructor; [|done]. simpl. split; [done|]. by exists x.
  - rewrite fmap_app. simpl. apply NoDup_app. split; [done|]. split.
    + intros y Hy ?%list_elem_of_singleton. by subst.
    + apply NoDup_singleton.
  - rewrite length_app. unfold configMAX_CGROUPS in *. simpl in *. lia.
  - intros i g. unfold bound_to. rewrite filter_app. rewrite length_app.
    destruct (decide (x = i)) as [<-|Hne].
    + rewrite list_lookup_insert_eq by (by eapply lookup_lt_Some). intros [= <-]. simpl.
      rewrite filter_cons_True by done. simpl.
      pose proof (bound_to_le x (xTaskCGroupMap st)) as Hle. unfold bound_to in *.
      split.
      { rewrite Hc0. unfold wrapU. rewrite Z.mod_small; lia. }
      split; intros _; by apply Ha0.
    + rewrite list_lookup_insert_ne by done. intros Hi.
      destruct (Hslots i g Hi) as (Hc & Ha & Hb). unfold bound_to in *.
      rewrite filter_cons_False by (simpl; congruence). simpl.
      rewrite Nat.add_0_r, app_nil_r. by split.
Qed.

Lemma remove_from_map_spec st t st1 :
  registry_ok st ->
  prvRemoveTaskFromMap st t = (pdPASS, st1) ->
  exists e, xTask e = t /\ xTaskCGroupMap st ≡ₚ e :: xTaskCGroupMap st1 /\
            xCGroups st1 = xCGroups st /\ uxCGroupBitmap st1 = uxCGroupBitmap st.
Proof.
  intros Hok. unfold prvRemoveTaskFromMap.
  destruct (map_index_from _ _ _) as [ux|] eqn:Hidx; [|done].
  apply map_index_from_spec in Hidx. destruct Hidx as (e & He & Ht & _).
  rewrite Nat.sub_0_r in He. intros [= <-]. simpl. exists e. split; [done|].
  split; [|done].
  pose proof (lookup_lt_Some _ _ _ He) as Hlt.
  destruct (last (xTaskCGroupMap st)) as [el|] eqn:El.
  - etrans; [apply (delete_Permutation _ _ _ He)|]. constructor.
    symmetry. by apply remove_Permutation.
  - apply last_None in El. rewrite El in He. done.
Qed.

Lemma remove_registry_ok ubits st h t :
  0 <= ubits ->
  Z.of_nat (configMAX_CGROUPS * 8) < 2 ^ ubits ->
  registry_ok st -> registry_ok (snd (xCGroupRemoveTask ubits st h t)).
Proof.
  intros Hu Hbits Hok. pose proof Hok as [Hlen Hent Hnd Hroom Hslots].
  unfold xCGroupRemoveTask. destruct h as [x|]; [|done].
  destruct (Z.eqb_spec t NULL) as [|Ht]; [done|].
  case_bool_decide as Hget; simpl; [|done].
  destruct (prvRemoveTaskFromMap st t) as [r st1] eqn:Hrem.
  destruct (Z.eqb_spec r pdPASS) as [->|Hr].
  2:{ revert Hrem. unfold prvRemoveTaskFromMap.
      destruct (map_index_from _ _ _); [|by intros [= <- <-]]. intros [= <- _]. done. }
  destruct (remove_from_map_spec st t st1 Hok Hrem) as (e & Hte & Hperm & Hgr & Hbm).
  revert Hget. unfold prvGetCGroupFromTask. destruct (Z.eqb_spec t NULL) as [|_]; [done|].
  intros Hlk.
  assert (e ∈ xTaskCGroupMap st) as Hein by (rewrite Hperm; apply elem_of_cons; by left).
  assert (xCGroup e = Some x) as Hex.
  { rewrite <- (map_lookup_present _ e Hnd Hein). by rewrite Hte. }
  assert (Forall (fun e => xTask e <> NULL /\
                     exists i, xCGroup e = Some i /\ (i < configMAX_CGROUPS)%nat)
            (e :: xTaskCGroupMap st1)) as Hent1 by (by rewrite <- Hperm).
  assert (NoDup (xTask <$> e :: xTaskCGroupMap st1)) as Hnd1 by (by rewrite <- Hperm).
  assert (length (xTaskCGroupMap st) = S (length (xTaskCGroupMap st1))) as Hl1
    by (by rewrite Hperm).
  assert (forall i, length (bound_to i (xTaskCGroupMap st)) =
                    ((if decide (x = i) then 1 else 0) +
                     length (bound_to i (xTaskCGroupMap st1)))%nat) as Hcount.
  { intros i. unfold bound_to. rewrite Hperm.
    destruct (decide (x = i)) as [<-|Hne].
    - by rewrite filter_cons_True.
    - rewrite filter_cons_False; [done|]. rewrite Hex. congruence. }
  assert (x < length (xCGroups st1))%nat as Hxl.
  { rewrite Hgr, Hlen. apply Forall_cons in Hent1. destruct Hent1 as [(_ & i & Hi & Hlt) _].
    rewrite Hex in Hi. by injection Hi as <-. }
  destruct (lookup_lt_is_Some_2 _ _ Hxl) as [g0 Hg0]. rewrite Hg0. simpl.
  apply Forall_cons in Hent1. destruct Hent1 as [_ Hent1].
  apply NoDup_cons in Hnd1. destruct Hnd1 as [_ Hnd1].
  split; simpl; try done.
  - rewrite length_insert. by rewrite Hgr.
  - change (configMAX_CGROUPS * 8)%nat with 64%nat in *. lia.
  - intros i g. rewrite Hbm. destruct (decide (x = i)) as [<-|Hne].
    + rewrite list_lookup_insert_eq by done. intros [= <-]. simpl.
      rewrite Hgr in Hg0. destruct (Hslots x g0 Hg0) as (Hc & Ha & Hb).
      rewrite Hcount in Hc. rewrite decide_True in Hc by done.
      pose proof (bound_to_le x (xTaskCGroupMap st1)) as Hle.
      split.
      { rewrite Hc. unfold wrapU. rewrite Z.mod_small; lia. }
      split; [done|]. intros _. apply Hb.
      intros Hnil. apply (f_equal length) in Hnil. rewrite Hcount in Hnil.
      rewrite decide_True in Hnil by done. simpl in Hnil. lia.
    + rewrite list_lookup_insert_ne by done. rewrite Hgr. intros Hi.
      destruct (Hslots i g Hi) as (Hc & Ha & Hb).
      assert (bound_to i (xTaskCGroupMap st) ≡ₚ bound_to i (xTaskCGroupMap st1)) as Hp.
      { unfold bound_to. rewrite Hperm. rewrite filter_cons_False; [done|].
        rewrite Hex. congruence. }
      split; [by rewrite Hc, Hp|]. split; [done|]. intros Hn. apply Hb.
      intros Hnil. rewrite Hnil in Hp. apply Permutation_nil_l in Hp. done.
Qed.

Lemma run_op_registry_ok ubits tbits W st o :
  0 <= ubits ->
  Z.of_nat (configMAX_CGROUPS * 8) < 2 ^ ubits ->
  registry_ok st -> registry_ok (run_op ubits tbits W st o).
Proof.
  intros Hu Hbits Hok.
  destruct o as [n m q|h|h t|h t|h q|t d|h|h m|h|t|]; simpl.
  - by apply create_registry_ok.
  - by apply delete_registry_ok.
  - by apply add_registry_ok.
  - by apply remove_registry_ok.
  - unfold xCGroupSetCpuQuota. destruct h as [i|]; [|done].
    destruct (xCGroups st !! i) as [g|] eqn:E; [|done].
    destruct (_ =? _); [done|]. destruct (_ >? _); [done|]. simpl.
    apply (registry_ok_same st); simpl; try done; [by rewrite length_insert|].
    by apply (insert_same_membership _ _ g).
  - unfold xCGroupUpdateMemoryUsage. destruct (_ =? NULL); [done|].
    destruct (prvGetCGroupFromTask st t) as [i|]; [|done]. simpl.
    apply (registry_ok_same st); simpl; try done; [by rewrite length_alter|].
    apply alter_same_membership. intros g. by destruct (wrapS ubits d >? 0).
  - unfold xCGroupGetStats. destruct h as [i|]; [|done].
    destruct (xCGroups st !! i) as [g|] eqn:E; [|done].
    destruct (_ =? _); [done|].
    destruct (prvUpdateCpuWindow ubits tbits W (xTickCount st) g) as [g1|] eqn:E1; [|done].
    simpl.
    apply (registry_ok_same st); simpl; try done; [by rewrite length_insert|].
    destruct (update_window_membership ubits tbits W (xTickCount st) g g1 E1).
    by apply (insert_same_membership _ _ g).
  - unfold xCGroupSetMemoryLimit. destruct h as [i|]; [|done].
    destruct (xCGroups st !! i) as [g|] eqn:E; [|done].
    destruct (_ =? _); [done|]. simpl.
    apply (registry_ok_same st); simpl; try done; [by rewrite length_insert|].
    by apply (insert_same_membership _ _ g).
  - unfold xCGroupResetMemoryStats. destruct h as [i|]; [|done].
    destruct (xCGroups st !! i) as [g|] eqn:E; [|done].
    destruct (_ =? _); [done|]. simpl.
    apply (registry_ok_same st); simpl; try done; [by rewrite length_insert|].
    by apply (insert_same_membership _ _ g).
  - apply (registry_ok_same st); simpl; try done. intros i g' Hi. by exists g'.
  - unfold xTaskIncrementTick, prvCGroupUpdateTick.
    set (st0 := set_tick st _).
    assert (registry_ok st0) as Hok0.
    { apply (registry_ok_same st); simpl; try done. intros i g' Hi. by exists g'. }
    assert (registry_ok (charge_current_task ubits st0)) as Hok1.
    { unfold charge_current_task. destruct (_ =? NULL); [done|].
      destruct (prvGetCGroupFromTask _ _) as [i|]; [|done].
      apply (registry_ok_same st0); simpl; try done; [by rewrite length_alter|].
      apply alter_same_membership. by intros g. }
    destruct (update_slots _ _ _ _ _ _ _) as [gs|] eqn:Egs.
    2:{ apply (registry_ok_same st); simpl; try done. intros i g' Hi. by exists g'. }
    apply (registry_ok_same (charge_current_task ubits st0)); simpl; try done.
    { by rewrite (update_slots_length _ _ _ _ _ _ _ _ Egs). }
    intros i g'. rewrite (update_slots_lookup _ _ _ _ _ _ _ _ Egs i).
    destruct (xCGroups (charge_current_task ubits st0) !! i) as [g|]; [|done].
    simpl. intros Hstep. exists g. split; [done|]. revert Hstep. unfold slot_step.
    destruct (_ <? _)%nat; [|by intros [= <-]]. apply update_slot_membership.
Qed.

Lemma boot_registry_ok now cur : registry_ok (boot_state now cur).
Proof.
  split; simpl; [done|constructor|constructor|lia|].
  intros i g Hi. unfold bound_to. simpl.
  assert (g = zero_cgroup) as ->.
  { do 8 (destruct i as [|i]; [by injection Hi as <-|]). done. }
  by split.
Qed.

Lemma reachable_registry_ok ubits tbits W now cur ops :
  0 <= ubits ->
  Z.of_nat (configMAX_CGROUPS * 8) < 2 ^ ubits ->
  registry_ok (fold_left (run_op ubits tbits W) ops (boot_state now cur)).
Proof.
  intros Hu Hbits. pose proof (boot_registry_ok now cur) as Hboot.
  revert Hboot. generalize (boot_state now cur).
  induction ops as [|o ops IH]; intros st Hok; [done|].
  simpl. apply IH. by apply run_op_registry_ok.
Qed.


Lemma word_holds_table ubits : Z.of_nat (configMAX_CGROUPS * 8) < 2 ^ ubits -> 0 <= ubits.
Proof.
  intros H. destruct (Z.lt_ge_cases ubits 0) as [Hneg|]; [|done].
  rewrite Z.pow_neg_r in H by done. simpl in H. lia.
Qed.

Lemma map_lookup_app_other (m : list TaskCGroupMap_t) (e : TaskCGroupMap_t) (t : TaskHandle_t) :
  xTask e <> t -> map_lookup (m ++ [e]) t = map_lookup m t.
Proof.
  intros Hne. induction m as [|e0 m IH]; simpl.
  - by destruct (Z.eqb_spec (xTask e) t).
  - by destruct (xTask e0 =? t).
Qed.

Lemma map_lookup_app_new (m : list TaskCGroupMap_t) (e : TaskCGroupMap_t) :
  xTask e ∉ xTask <$> m -> map_lookup (m ++ [e]) (xTask e) = xCGroup e.
Proof.
  induction m as [|e0 m IH]; simpl.
  - intros _. by rewrite Z.eqb_refl.
  - intros [Hne Hn]%not_elem_of_cons.
    destruct (Z.eqb_spec (xTask e0) (xTask e)); [congruence|]. by apply IH.
Qed.

Lemma add_bound_task_refused ubits st h t :
  is_Some (prvGetCGroupFromTask st t) -> xCGroupAddTask ubits st h t = (pdFAIL, st).
Proof.
  intros [i Hi]. unfold xCGroupAddTask. destruct h as [y|]; [|done].
  destruct (xCGroups st !! y); [|done]. destruct (_ || _); [done|].
  unfold prvAddTaskToMap. destruct (_ <=? _)%nat; [done|]. by rewrite Hi.
Qed.

Lemma map_index_from_new (m : list TaskCGroupMap_t) (e : TaskCGroupMap_t) (n : nat) :
  xTask e ∉ xTask <$> m -> map_index_from (m ++ [e]) (xTask e) n = Some (n + length m)%nat.
Proof.
  revert n. induction m as [|e0 m IH]; simpl; intros n Hn.
  - rewrite Z.eqb_refl. f_equal. lia.
  - apply not_elem_of_cons in Hn. destruct Hn as [Hne Hn].
    destruct (Z.eqb_spec (xTask e0) (xTask e)); [congruence|]. rewrite IH by done.
    f_equal. lia.
Qed.

Lemma add_task_pass ubits st h t :
  fst (xCGroupAddTask ubits st h t) = pdPASS ->
  exists x g0,
    h = Some x /\ xCGroups st !! x = Some g0 /\ t <> NULL /\ xActive g0 <> pdFALSE /\
    (length (xTaskCGroupMap st) < configMAX_CGROUPS * 8)%nat /\
    map_lookup (xTaskCGroupMap st) t = None /\
    snd (xCGroupAddTask ubits st h t) =
    set_groups (set_map st (xTaskCGroupMap st ++ [mkMap t (Some x)]))
      (<[x := set_task_count g0 (wrapU ubits (uxTaskCount g0 + 1))]> (xCGroups st)).
Proof.
  unfold xCGroupAddTask. destruct h as [x|]; [|done].
  destruct (xCGroups st !! x) as [g0|] eqn:Hg0; [|done].
  destruct (Z.eqb_spec t NULL) as [|Ht]; simpl; [done|].
  destruct (Z.eqb_spec (xActive g0) pdFALSE) as [|Hact]; simpl; [done|].
  unfold prvAddTaskToMap, uxMapCount.
  destruct (Nat.leb_spec (configMAX_CGROUPS * 8) (length (xTaskCGroupMap st))) as [|Hfree];
    [done|].
  unfold prvGetCGroupFromTask. destruct (Z.eqb_spec t NULL) as [|_]; [done|].
  destruct (map_lookup (xTaskCGroupMap st) t) eqn:Hlk; [done|]. intros _.
  exists x, g0. by repeat (split; [done|]).
Qed.

(** X4.  In every state the controller reaches from boot, a successful
    [xCGroupAddTask] binds the task to the cgroup, binds it exclusively (a
    further [xCGroupAddTask] of the task is refused, whatever the cgroup) and
    leaves the cgroup of every other task as it was. *)
Theorem add_task_binds_exactly_that_task ubits tbits W now cur ops h t :
  Z.of_nat (configMAX_CGROUPS * 8) < 2 ^ ubits ->
  let st := fold_left (run_op ubits tbits W) ops (boot_state now cur) in
  fst (xCGroupAddTask ubits st h t) = pdPASS ->
  let st' := snd (xCGroupAddTask ubits st h t) in
  xCGroupGetTaskGroup st' t = h /\
  (forall h', xCGroupAddTask ubits st' h' t = (pdFAIL, st')) /\
  (forall t', t' <> t -> xCGroupGetTaskGroup st' t' = xCGroupGetTaskGroup st t').
Proof.
  intros Hbits st. pose proof (word_holds_table ubits Hbits) as Hu.
  pose proof (reachable_registry_ok ubits tbits W now cur ops Hu Hbits) as Hok.
  fold st in Hok. clearbody st. destruct Hok as [Hlen Hent Hnd Hroom Hslots].
  intros Hpass st'. subst st'.
  destruct (add_task_pass ubits st h t Hpass)
    as (x & g0 & -> & Hg0 & Ht & Hact & Hfree & Hlk & ->).
  pose proof (map_lookup_none_absent _ _ Hent Hlk) as Habs.
  assert (map_lookup (xTaskCGroupMap st ++ [mkMap t (Some x)]) t = Some x) as Hnew.
  { apply (map_lookup_app_new _ (mkMap t (Some x))). done. }
  unfold xCGroupGetTaskGroup, prvGetCGroupFromTask. simpl.
  destruct (Z.eqb_spec t NULL) as [|_]; [done|]. split; [done|]. split.
  - intros h'. apply add_bound_task_refused. exists x.
    unfold prvGetCGroupFromTask. simpl. by destruct (Z.eqb_spec t NULL).
  - intros t' Hne. destruct (t' =? NULL); [done|]. by apply map_lookup_app_other.
Qed.

Lemma add_task_binds_exactly_that_task_witness :
  let st := fold_left (run_op 32 32 1000) [OpCreate "Hi" 16384 100] (boot_state 0 4096) in
  let st' := snd (xCGroupAddTask 32 st (Some 0%nat) 4096) in
  xCGroupGetTaskGroup st' 4096 = Some 0%nat /\
  (forall h', xCGroupAddTask 32 st' h' 4096 = (pdFAIL, st')) /\
  (forall t', t' <> 4096 -> xCGroupGetTaskGroup st' t' = xCGroupGetTaskGroup st t').
Proof.
  apply (add_task_binds_exactly_that_task 32 32 1000 0 4096 [OpCreate "Hi" 16384 100]
           (Some 0%nat) 4096).
  - vm_compute. reflexivity.
  - vm_compute. reflexivity.
Defined.

(** X5.  In every state the controller reaches from boot, a successful
    [xCGroupRemoveTask] leaves the task without a cgroup and the cgroup of
    every other task as it was, although the last mapping moves into the
    gap. *)
Theorem remove_task_unbinds_exactly_that_task ubits tbits W now cur ops h t :
  Z.of_nat (configMAX_CGROUPS * 8) < 2 ^ ubits ->
  let st := fold_left (run_op ubits tbits W) ops (boot_state now cur) in
  fst (xCGroupRemoveTask ubits st h t) = pdPASS ->
  let st' := snd (xCGroupRemoveTask ubits st h t) in
  xCGroupGetTaskGroup st' t = None /\
  (forall t', t' <> t -> xCGroupGetTaskGroup st' t' = xCGroupGetTaskGroup st t').
Proof.
  intros Hbits st. pose proof (word_holds_table ubits Hbits) as Hu.
  pose proof (reachable_registry_ok ubits tbits W now cur ops Hu Hbits) as Hok.
  fold st in Hok. clearbody st. pose proof Hok as [Hlen Hent Hnd Hroom Hslots].
  unfold xCGroupRemoveTask. destruct h as [x|]; [|done].
  destruct (Z.eqb_spec t NULL) as [|Ht]; [done|].
  case_bool_decide as Hget; simpl; [|done].
  destruct (prvRemoveTaskFromMap st t) as [r st1] eqn:Hrem.
  destruct (Z.eqb_spec r pdPASS) as [->|Hr]; [|done]. intros _.
  destruct (remove_from_map_spec st t st1 Hok Hrem) as (e & Hte & Hperm & Hgr & Hbm).
  assert (NoDup (xTask <$> e :: xTaskCGroupMap st1)) as Hnd1 by (by rewrite <- Hperm).
  rewrite fmap_cons in Hnd1. apply NoDup_cons in Hnd1. destruct Hnd1 as [Hnot Hnd1].
  assert (forall t', xCGroupGetTaskGroup
            (match xCGroups st1 !! x with
             | Some g => (pdPASS, set_groups st1
                 (<[x:=set_task_count g (wrapU ubits (uxTaskCount g - 1))]> (xCGroups st1)))
             | None => (pdPASS, st1)
             end).2 t' = xCGroupGetTaskGroup st1 t') as Hsame.
  { intros t'. by destruct (xCGroups st1 !! x). }
  split.
  - rewrite Hsame. unfold xCGroupGetTaskGroup, prvGetCGroupFromTask.
    destruct (t =? NULL); [done|]. apply map_lookup_absent. by rewrite <- Hte.
  - intros t' Hne. rewrite Hsame. unfold xCGroupGetTaskGroup, prvGetCGroupFromTask.
    destruct (t' =? NULL); [done|].
    rewrite (map_lookup_Permutation _ _ t' Hnd Hperm). simpl.
    destruct (Z.eqb_spec (xTask e) t'); [congruence|done].
Qed.

Lemma remove_task_unbinds_exactly_that_task_witness :
  let st := fold_left (run_op 32 32 1000)
              [OpCreate "Hi" 16384 100; OpAddTask (Some 0%nat) 4096;
               OpAddTask (Some 0%nat) 8192] (boot_state 0 4096) in
  let st' := snd (xCGroupRemoveTask 32 st (Some 0%nat) 4096) in
  xCGroupGetTaskGroup st' 4096 = None /\
  (forall t', t' <> 4096 -> xCGroupGetTaskGroup st' t' = xCGroupGetTaskGroup st t').
Proof.
  apply (remove_task_unbinds_exactly_that_task 32 32 1000 0 4096
           [OpCreate "Hi" 16384 100; OpAddTask (Some 0%nat) 4096;
            OpAddTask (Some 0%nat) 8192] (Some 0%nat) 4096).
  - vm_compute. reflexivity.
  - vm_compute. reflexivity.
Defined.

(** X6.  In every state the controller reaches from boot, removing a task
    that was just added gives back the state before the addition: the
    mapping table and the task count are restored. *)
Theorem add_then_remove_restores_state ubits tbits W now cur ops h t :
  Z.of_nat (configMAX_CGROUPS * 8) < 2 ^ ubits ->
  let st := fold_left (run_op ubits tbits W) ops (boot_state now cur) in
  fst (xCGroupAddTask ubits st h t) = pdPASS ->
  xCGroupRemoveTask ubits (snd (xCGroupAddTask ubits st h t)) h t = (pdPASS, st).
Proof.
  intros Hbits st. pose proof (word_holds_table ubits Hbits) as Hu.
  pose proof (reachable_registry_ok ubits tbits W now cur ops Hu Hbits) as Hok.
  fold st in Hok. clearbody st. destruct Hok as [Hlen Hent Hnd Hroom Hslots].
  intros Hpass.
  destruct (add_task_pass ubits st h t Hpass)
    as (x & g0 & -> & Hg0 & Ht & Hact & Hfree & Hlk & ->).
  pose proof (map_lookup_none_absent _ _ Hent Hlk) as Habs.
  unfold xCGroupRemoveTask. destruct (Z.eqb_spec t NULL) as [|_]; [done|].
  unfold prvGetCGroupFromTask. simpl. destruct (Z.eqb_spec t NULL) as [|_]; [done|].
  rewrite (map_lookup_app_new _ (mkMap t (Some x))) by done. simpl.
  rewrite bool_decide_eq_true_2 by done. simpl.
  unfold prvRemoveTaskFromMap. simpl.
  rewrite (map_index_from_new _ (mkMap t (Some x))) by done. simpl.
  rewrite last_snoc. rewrite length_app. simpl.
  replace (length (xTaskCGroupMap st) + 1 - 1)%nat with (length (xTaskCGroupMap st)) by lia.
  rewrite Nat.ltb_irrefl. rewrite take_app_length. simpl.
  rewrite list_lookup_insert_eq by (by eapply lookup_lt_Some). simpl.
  f_equal. destruct st as [groups bitmap m tick curr]. unfold set_groups. simpl in *. f_equal.
  rewrite list_insert_insert_eq.
  destruct (Hslots x g0 Hg0) as (Hc & _ & _).
  pose proof (bound_to_le x m) as Hle.
  replace (set_task_count _ _) with g0; [by apply list_insert_id|].
  destruct g0 as [nm mem cpu cnt act]. unfold set_task_count. simpl in *. f_equal.
  unfold wrapU. change (configMAX_CGROUPS * 8)%nat with 64%nat in *.
  rewrite (Z.mod_small (cnt + 1)) by lia. rewrite Z.mod_small; lia.
Qed.

Lemma add_then_remove_restores_state_witness :
  let st := fold_left (run_op 32 32 1000) [OpCreate "Hi" 16384 100] (boot_state 0 4096) in
  xCGroupRemoveTask 32 (snd (xCGroupAddTask 32 st (Some 0%nat) 4096)) (Some 0%nat) 4096 =
  (pdPASS, st).
Proof.
  apply (add_then_remove_restores_state 32 32 1000 0 4096 [OpCreate "Hi" 16384 100]
           (Some 0%nat) 4096).
  - vm_compute. reflexivity.
  - vm_compute. reflexivity.
Defined.

(** X7.  In every state the controller reaches from boot, [xCGroupDelete]
    refuses a slot of the table exactly when some task is bound to the
    cgroup in it. *)
Theorem delete_refused_iff_tasks_bound ubits tbits W now cur ops i :
  Z.of_nat (configMAX_CGROUPS * 8) < 2 ^ ubits ->
  (i < configMAX_CGROUPS)%nat ->
  let st := fold_left (run_op ubits tbits W) ops (boot_state now cur) in
  fst (xCGroupDelete st (Some i)) = pdFAIL <->
  exists t, xCGroupGetTaskGroup st t = Some i.
Proof.
  intros Hbits Hi st. pose proof (word_holds_table ubits Hbits) as Hu.
  pose proof (reachable_registry_ok ubits tbits W now cur ops Hu Hbits) as Hok.
  fold st in Hok. clearbody st. destruct Hok as [Hlen Hent Hnd Hroom Hslots].
  unfold xCGroupDelete, prvGetCGroupIndex.
  destruct (Nat.ltb_spec i configMAX_CGROUPS) as [_|]; [|lia].
  assert (i < length (xCGroups st))%nat as Hil by (by rewrite Hlen).
  destruct (lookup_lt_is_Some_2 _ _ Hil) as [g Hg]. rewrite Hg.
  destruct (Hslots i g Hg) as (Hc & _ & _).
  assert (bound_to i (xTaskCGroupMap st) <> [] <->
          exists t, xCGroupGetTaskGroup st t = Some i) as Hiff.
  { split.
    - intros Hne. destruct (bound_to i (xTaskCGroupMap st)) as [|e l] eqn:E; [done|].
      assert (e ∈ bound_to i (xTaskCGroupMap st)) as Hin by (rewrite E; apply elem_of_cons; by left).
      apply list_elem_of_filter in Hin. destruct Hin as [Hei Hem].
      exists (xTask e). unfold xCGroupGetTaskGroup, prvGetCGroupFromTask.
      rewrite Forall_forall in Hent. destruct (Hent e Hem) as [Hnn _].
      destruct (Z.eqb_spec (xTask e) NULL); [done|].
      by rewrite (map_lookup_present _ e Hnd Hem).
    - intros [t Ht]. revert Ht. unfold xCGroupGetTaskGroup, prvGetCGroupFromTask.
      destruct (t =? NULL); [done|].
      intros Hlk%map_lookup_some_elem.
      assert (mkMap t (Some i) ∈ bound_to i (xTaskCGroupMap st)) as Hin.
      { apply list_elem_of_filter. by split. }
      intros Hnil. rewrite Hnil in Hin. by apply elem_of_nil in Hin. }
  rewrite <- Hiff.
  destruct (Z.gtb_spec (uxTaskCount g) 0) as [Hpos|Hz]; simpl.
  - split; [|done]. intros _ Hnil. rewrite Hnil in Hc. simpl in Hc. lia.
  - split; [done|]. intros Hne. destruct (bound_to i (xTaskCGroupMap st)); [done|].
    simpl in Hc. lia.
Qed.

Lemma delete_refused_iff_tasks_bound_witness :
  fst (xCGroupDelete
         (fold_left (run_op 32 32 1000)
            [OpCreate "Hi" 16384 100; OpAddTask (Some 0%nat) 4096] (boot_state 0 4096))
         (Some 0%nat)) = pdFAIL <->
  exists t, xCGroupGetTaskGroup
              (fold_left (run_op 32 32 1000)
                 [OpCreate "Hi" 16384 100; OpAddTask (Some 0%nat) 4096] (boot_state 0 4096))
              t = Some 0%nat.
Proof.
  apply (delete_refused_iff_tasks_bound 32 32 1000 0 4096
           [OpCreate "Hi" 16384 100; OpAddTask (Some 0%nat) 4096] 0%nat).
  - vm_compute. reflexivity.
  - vm_compute. lia.
Defined.

(** *** CPU accounting *)

(** What the scheduler does between two calls of the public interface: a
    tick, a task switch, the memory accounting of the allocator and a read
    of the statistics. *)
Definition scheduling (o : op) : Prop :=
  match o with
  | OpTick | OpSwitch _ | OpUpdateMemoryUsage _ _ | OpGetStats _ => True
  | _ => False
  end.

Definition unthrottled (ubits : Z) (st : state) (t : TaskHandle_t) (i : nat) : Prop :=
  prvGetCGroupFromTask st t = Some i /\
  exists g, xCGroups st !! i = Some g /\
    ulTicksQuota (xCpuLimits g) = CGROUP_NO_LIMIT ubits /\
    ulPenaltyTicksLeft (xCpuLimits g) = 0.

Lemma update_window_unlimited ubits tbits W now g :
  ulTicksQuota (xCpuLimits g) = CGROUP_NO_LIMIT ubits ->
  ulPenaltyTicksLeft (xCpuLimits g) = 0 ->
  exists g1, prvUpdateCpuWindow ubits tbits W now g = Some g1 /\
    ulTicksQuota (xCpuLimits g1) = CGROUP_NO_LIMIT ubits /\
    ulPenaltyTicksLeft (xCpuLimits g1) = 0.
Proof.
  intros Hq Hp. unfold prvUpdateCpuWindow.
  destruct (window_elapsed _ _ _); [|by exists g].
  unfold prvCalculatePenalty. rewrite Hq, Z.eqb_refl. simpl.
  eexists. split; [reflexivity|]. unfold start_window. simpl. by rewrite Hp.
Qed.

Lemma run_op_unthrottled ubits tbits W st o t i :
  scheduling o -> unthrottled ubits st t i -> unthrottled ubits (run_op ubits tbits W st o) t i.
Proof.
  intros Hs (Hget & g & Hg & Hq & Hp). unfold unthrottled.
  destruct o as [n m q|h|h t0|h t0|h q|t0 d|h|h m|h|t0|]; simpl in *; try done.
  - unfold xCGroupUpdateMemoryUsage. destruct (_ =? NULL); [by split; [|exists g]|].
    destruct (prvGetCGroupFromTask st t0) as [j|]; [|by split; [|exists g]]. simpl.
    split; [done|]. rewrite list_lookup_alter.
    destruct (decide (j = i)) as [->|Hne]; [|by exists g].
    rewrite Hg. simpl. eexists. split; [reflexivity|]. by destruct (wrapS ubits d >? 0).
  - unfold xCGroupGetStats. destruct h as [j|]; [|by split; [|exists g]].
    destruct (xCGroups st !! j) as [g1|] eqn:Hg1; [|by split; [|exists g]].
    destruct (_ =? _); [by split; [|exists g]|].
    destruct (prvUpdateCpuWindow ubits tbits W (xTickCount st) g1) as [g2|] eqn:E2;
      [|by split; [|exists g]].
    simpl. split; [done|].
    destruct (decide (j = i)) as [->|Hne].
    + rewrite list_lookup_insert_eq by (by eapply lookup_lt_Some).
      eexists. split; [reflexivity|]. rewrite Hg in Hg1. injection Hg1 as <-.
      destruct (update_window_unlimited ubits tbits W (xTickCount st) g Hq Hp)
        as (g3 & Hg3 & Hq3 & Hp3).
      rewrite Hg3 in E2. by injection E2 as <-.
    + rewrite list_lookup_insert_ne by done. by exists g.
  - split; [done|]. by exists g.
  - unfold xTaskIncrementTick, prvCGroupUpdateTick.
    set (st0 := set_tick st _).
    assert (unthrottled ubits (charge_current_task ubits st0) t i)
      as (Hget1 & g1 & Hg1 & Hq1 & Hp1).
    { unfold charge_current_task. destruct (_ =? NULL); [by split; [|exists g]|].
      destruct (prvGetCGroupFromTask st0 _) as [j|]; [|by split; [|exists g]].
      split; [done|]. simpl. rewrite list_lookup_alter.
      destruct (decide (j = i)) as [->|Hne]; [|by exists g].
      rewrite Hg. simpl. eexists. by split; [reflexivity|]. }
    destruct (update_slots _ _ _ _ _ _ _) as [gs|] eqn:Egs; [|by split; [|exists g]].
    split; [done|]. simpl. rewrite (update_slots_lookup _ _ _ _ _ _ _ _ Egs i), Hg1. simpl.
    unfold slot_step.
    destruct (_ <? _)%nat; [|by exists g1]. unfold update_slot.
    destruct (_ && _); [|by exists g1].
    destruct (update_window_unlimited ubits tbits W (xTickCount (charge_current_task ubits st0))
                g1 Hq1 Hp1) as (g2 & -> & Hq2 & Hp2).
    eexists. split; [reflexivity|]. unfold reduce_penalty. rewrite Hp2. simpl. done.
Qed.

(** X8.  A task whose cgroup has no tick quota (its CPU quota is
    [CGROUP_CPU_QUOTA_MAX]) and no penalty stays allowed by the scheduler
    gate whatever the scheduler does: ticks, task switches, memory
    accounting and reads of the statistics never throttle it. *)
Theorem unlimited_cgroup_is_never_throttled ubits tbits W st t i g ops :
  prvGetCGroupFromTask st t = Some i ->
  xCGroups st !! i = Some g ->
  ulTicksQuota (xCpuLimits g) = CGROUP_NO_LIMIT ubits ->
  ulPenaltyTicksLeft (xCpuLimits g) = 0 ->
  Forall scheduling ops ->
  prvCGroupCanTaskRun ubits (fold_left (run_op ubits tbits W) ops st) t = pdTRUE.
Proof.
  intros Hget Hg Hq Hp Hops.
  assert (unthrottled ubits st t i) as Hinv by (split; [done|by exists g]).
  clear Hget Hg Hq Hp g. revert st Hinv.
  induction Hops as [|o ops Ho _ IH]; intros st Hinv; simpl.
  - destruct Hinv as (Hget & g & Hg & Hq & Hp). unfold prvCGroupCanTaskRun.
    revert Hget. unfold prvGetCGroupFromTask. destruct (t =? NULL); [done|].
    intros ->. rewrite Hg, Hp, Hq, Z.eqb_refl. done.
  - apply IH. by apply run_op_unthrottled.
Qed.

(** A cgroup with the maximum quota in slot 0, holding the running task. *)
Definition unlimited_state : state :=
  fold_left (run_op 32 32 1000)
    [OpCreate "Max" 16384 CGROUP_CPU_QUOTA_MAX; OpAddTask (Some 0%nat) 4096]
    (boot_state 0 4096).

Lemma unlimited_cgroup_is_never_throttled_witness :
  prvCGroupCanTaskRun 32
    (fold_left (run_op 32 32 1000) (replicate 2500 OpTick) unlimited_state) 4096 = pdTRUE.
Proof.
  apply (unlimited_cgroup_is_never_throttled 32 32 1000 unlimited_state 4096 0%nat
           (mkCGroup "Max" (mkMem 16384 0 0) (mkCpu 1000 0 (2 ^ 32 - 1) 0 0 1000) 1 pdTRUE)).
  - reflexivity.
  - reflexivity.
  - reflexivity.
  - reflexivity.
  - apply Forall_replicate. exact I.
Defined.

End CGroupLaws.

(** ** Laws of the PID namespaces *)

Module PidNsLaws.
Import PidNs PidNsFacts.

(** *** Slot allocation *)

Lemma find_free_lowest bitmap ux n :
  match prvFindFreeNamespaceSlot_from bitmap ux n with
  | Some s =>
      (ux <= s < ux + n)%nat /\ Z.testbit bitmap (Z.of_nat s) = false /\
      forall j, (ux <= j < s)%nat -> Z.testbit bitmap (Z.of_nat j) = true
  | None => forall j, (ux <= j < ux + n)%nat -> Z.testbit bitmap (Z.of_nat j) = true
  end.
Proof.
  revert ux. induction n as [|n IH]; intros ux; simpl; [intros j; lia|].
  rewrite land_bit_eqb. destruct (Z.testbit bitmap (Z.of_nat ux)) eqn:E; simpl.
  - specialize (IH (S ux)). destruct (prvFindFreeNamespaceSlot_from bitmap (S ux) n) as [s|].
    + destruct IH as (Hs & Hc & Hlow). split; [lia|]. split; [done|].
      intros j Hj. destruct (decide (j = ux)) as [->|]; [done|]. apply Hlow. lia.
    + intros j Hj. destruct (decide (j = ux)) as [->|]; [done|]. apply IH. lia.
  - split; [lia|]. split; [done|]. intros j Hj. lia.
Qed.

(** X9.  [xPidNamespaceCreate] returns the null handle exactly when all
    [configMAX_PID_NAMESPACES] slots are marked in the bitmap, and then
    changes nothing; otherwise it takes the lowest free slot, marks it, and
    leaves there an active namespace without tasks whose next virtual PID
    is 1 and whose last one is [configPID_NAMESPACE_MAX_PID]. *)
Theorem create_takes_lowest_free_slot ubits st name :
  length (xPidNamespaces st) = configMAX_PID_NAMESPACES ->
  match xPidNamespaceCreate ubits st name with
  | (Some ux, st') =>
      (ux < configMAX_PID_NAMESPACES)%nat /\
      Z.testbit (uxNamespaceBitmap st) (Z.of_nat ux) = false /\
      (forall j, (j < ux)%nat -> Z.testbit (uxNamespaceBitmap st) (Z.of_nat j) = true) /\
      (forall j, Z.testbit (uxNamespaceBitmap st') (Z.of_nat j) =
                 Z.testbit (uxNamespaceBitmap st) (Z.of_nat j) || bool_decide (ux = j)) /\
      xPidNamespaceGetInfo st' (Some ux) =
        (pdPASS, Some (0, 1, Z.of_nat configPID_NAMESPACE_MAX_PID))
  | (None, st') =>
      st' = st /\
      forall j, (j < configMAX_PID_NAMESPACES)%nat ->
                Z.testbit (uxNamespaceBitmap st) (Z.of_nat j) = true
  end.
Proof.
  intros Hlen. unfold xPidNamespaceCreate, prvFindFreeNamespaceSlot.
  pose proof (find_free_lowest (uxNamespaceBitmap st) 0 configMAX_PID_NAMESPACES) as H.
  destruct (prvFindFreeNamespaceSlot_from _ _ _) as [ux|].
  - destruct H as (Hux & Hclear & Hlow). split; [lia|]. split; [done|].
    split; [intros j Hj; apply Hlow; lia|]. split.
    + intros j. simpl. apply testbit_lor_bit.
    + unfold xPidNamespaceGetInfo, prvInitializeNamespace. simpl.
      rewrite list_lookup_insert_eq by lia. done.
  - split; [done|]. intros j Hj. apply H. lia.
Qed.

Lemma create_takes_lowest_free_slot_witness :
  match xPidNamespaceCreate 32 (prvPidNamespaceInit 32 (boot_state ∅)) (Some "A"%string) with
  | (Some ux, st') =>
      (ux < configMAX_PID_NAMESPACES)%nat /\
      Z.testbit (uxNamespaceBitmap (prvPidNamespaceInit 32 (boot_state ∅))) (Z.of_nat ux)
        = false /\
      (forall j, (j < ux)%nat ->
         Z.testbit (uxNamespaceBitmap (prvPidNamespaceInit 32 (boot_state ∅))) (Z.of_nat j)
           = true) /\
      (forall j, Z.testbit (uxNamespaceBitmap st') (Z.of_nat j) =
                 Z.testbit (uxNamespaceBitmap (prvPidNamespaceInit 32 (boot_state ∅)))
                   (Z.of_nat j) || bool_decide (ux = j)) /\
      xPidNamespaceGetInfo st' (Some ux) =
        (pdPASS, Some (0, 1, Z.of_nat configPID_NAMESPACE_MAX_PID))
  | (None, st') =>
      st' = prvPidNamespaceInit 32 (boot_state ∅) /\
      forall j, (j < configMAX_PID_NAMESPACES)%nat ->
        Z.testbit (uxNamespaceBitmap (prvPidNamespaceInit 32 (boot_state ∅))) (Z.of_nat j)
          = true
  end.
Proof.
  apply (create_takes_lowest_free_slot 32 (prvPidNamespaceInit 32 (boot_state ∅))
           (Some "A"%string)).
  reflexivity.
Defined.

(** *** Binding tasks *)

(** The outcome of a successful [xPidNamespaceAddTask]. *)
Lemma bind_task_pass ubits st ux ns (t : TaskHandle_t) tcb :
  xPidNamespaces st !! ux = Some ns ->
  xActive ns <> pdFALSE ->
  t <> NULL ->
  xTcbs st !! t = Some tcb ->
  pxPidNamespace tcb = None ->
  0 < ulNextPid ns <= ulMaxPid ns ->
  xPidNamespaceAddTask ubits st (Some ux) t =
  (pdPASS,
   mkState
     (<[ux := set_task_count (set_next_pid ns (wrapU ubits (ulNextPid ns + 1)))
                (wrapU ubits (uxTaskCount ns + 1))]> (xPidNamespaces st))
     (uxNamespaceBitmap st) (xRootNamespace st) (ulNextNamespaceId st)
     (<[t := mkTcb (Some ux) (ulNextPid ns)]> (xTcbs st))).
Proof.
  intros Hns Hact Ht Htcb Hfree Hpid. unfold xPidNamespaceAddTask. rewrite Hns.
  destruct (Z.eqb_spec t NULL) as [|_]; [done|].
  destruct (Z.eqb_spec (xActive ns) pdFALSE) as [|_]; [done|]. simpl.
  unfold pvTaskGetPidNamespace. rewrite Htcb, Hfree.
  unfold prvAllocateVirtualPid.
  destruct (Z.gtb_spec (ulNextPid ns) (ulMaxPid ns)) as [|_]; [lia|].
  destruct (Z.eqb_spec (ulNextPid ns) 0) as [|_]; [lia|].
  unfold xTaskSetPidNamespace. simpl. rewrite Htcb. simpl.
  unfold set_slots, set_tcbs. simpl. f_equal. f_equal.
  by rewrite list_insert_insert_eq.
Qed.

(** X10.  A successful [xPidNamespaceAddTask] hands the task the next
    virtual PID of the namespace: afterwards the task reports that PID and
    that namespace, the namespace counts one task more, and a second
    [xPidNamespaceAddTask] of the task is refused, whatever the namespace. *)
Theorem add_task_assigns_next_pid ubits st ux ns (t : TaskHandle_t) tcb :
  xPidNamespaces st !! ux = Some ns ->
  xActive ns <> pdFALSE ->
  t <> NULL ->
  xTcbs st !! t = Some tcb ->
  pxPidNamespace tcb = None ->
  0 < ulNextPid ns <= ulMaxPid ns ->
  let '(r, st') := xPidNamespaceAddTask ubits st (Some ux) t in
  r = pdPASS /\
  xPidNamespaceGetTaskVirtualPid st' t = ulNextPid ns /\
  xPidNamespaceGetTaskNamespace st' t = Some ux /\
  xPidNamespaceGetInfo st' (Some ux) =
    (pdPASS, Some (wrapU ubits (uxTaskCount ns + 1), wrapU ubits (ulNextPid ns + 1),
                   ulMaxPid ns)) /\
  forall h, xPidNamespaceAddTask ubits st' h t = (pdFAIL, st').
Proof.
  intros Hns Hact Ht Htcb Hfree Hpid.
  rewrite (bind_task_pass ubits st ux ns t tcb) by done.
  assert ((t =? NULL) = false) as Hnn by (by apply Z.eqb_neq).
  split; [done|].
  unfold xPidNamespaceGetTaskVirtualPid, xPidNamespaceGetTaskNamespace,
    uxTaskGetVirtualPid, pvTaskGetPidNamespace, xPidNamespaceGetInfo. simpl.
  rewrite Hnn, lookup_insert_eq. simpl.
  rewrite list_lookup_insert_eq by (by eapply lookup_lt_Some). simpl.
  destruct (Z.eqb_spec (xActive ns) pdFALSE) as [|_]; [done|].
  split; [done|]. split; [done|]. split; [done|].
  intros [uy|]; [|done]. unfold xPidNamespaceAddTask. simpl.
  destruct (<[ux:=_]> (xPidNamespaces st) !! uy); [|done].
  destruct (_ || _); [done|]. unfold pvTaskGetPidNamespace. simpl.
  by rewrite lookup_insert_eq.
Qed.

(** Task 4096 exists and is unbound; the root namespace has handed out no
    PID yet. *)
Definition one_task_state : state := prvPidNamespaceInit 32 (boot_state {[ 4096 := mkTcb None 0 ]}).

Definition root_namespace : PidNamespace_t :=
  mkPidNamespace "root" 1 1 10 (replicate 10 NULL) 0 pdTRUE.

Lemma add_task_assigns_next_pid_witness :
  let '(r, st') := xPidNamespaceAddTask 32 one_task_state (Some 0%nat) 4096 in
  r = pdPASS /\
  xPidNamespaceGetTaskVirtualPid st' 4096 = 1 /\
  xPidNamespaceGetTaskNamespace st' 4096 = Some 0%nat /\
  xPidNamespaceGetInfo st' (Some 0%nat) = (pdPASS, Some (wrapU 32 (0 + 1), wrapU 32 (1 + 1), 10)) /\
  forall h, xPidNamespaceAddTask 32 st' h 4096 = (pdFAIL, st').
Proof.
  apply (add_task_assigns_next_pid 32 one_task_state 0%nat root_namespace 4096 (mkTcb None 0)).
  - reflexivity.
  - vm_compute. congruence.
  - vm_compute. congruence.
  - reflexivity.
  - reflexivity.
  - simpl. lia.
Defined.

(** The outcome of a successful [xPidNamespaceRemoveTask]. *)
Lemma unbind_task_pass st ux ns (t : TaskHandle_t) tcb :
  xPidNamespaces st !! ux = Some ns ->
  t <> NULL ->
  xTcbs st !! t = Some tcb ->
  pxPidNamespace tcb = Some ux ->
  xPidNamespaceRemoveTask st (Some ux) t =
  (pdPASS,
   mkState
     (if uxTaskCount ns >? 0
      then <[ux := set_task_count ns (uxTaskCount ns - 1)]> (xPidNamespaces st)
      else xPidNamespaces st)
     (uxNamespaceBitmap st) (xRootNamespace st) (ulNextNamespaceId st)
     (<[t := mkTcb None 0]> (xTcbs st))).
Proof.
  intros Hns Ht Htcb Hb. unfold xPidNamespaceRemoveTask.
  destruct (Z.eqb_spec t NULL) as [|_]; [done|].
  assert (pvTaskGetPidNamespace st t = Some ux) as ->
    by (unfold pvTaskGetPidNamespace; by rewrite Htcb).
  rewrite bool_decide_eq_true_2 by done.
  unfold xTaskSetPidNamespace. rewrite Htcb. simpl. rewrite Hns.
  by destruct (uxTaskCount ns >? 0).
Qed.

(** X11.  Removing a task that was just added unbinds it and restores the
    task count of the namespace, but not its next virtual PID: the PID the
    task had is not handed out again. *)
Theorem add_then_remove_keeps_pid_spent ubits st ux ns (t : TaskHandle_t) tcb :
  xPidNamespaces st !! ux = Some ns ->
  xActive ns <> pdFALSE ->
  t <> NULL ->
  xTcbs st !! t = Some tcb ->
  pxPidNamespace tcb = None ->
  0 < ulNextPid ns <= ulMaxPid ns ->
  0 <= uxTaskCount ns -> uxTaskCount ns + 1 < 2 ^ ubits ->
  let st1 := snd (xPidNamespaceAddTask ubits st (Some ux) t) in
  let '(r, st2) := xPidNamespaceRemoveTask st1 (Some ux) t in
  r = pdPASS /\
  xPidNamespaceGetTaskNamespace st2 t = None /\
  xPidNamespaceGetTaskVirtualPid st2 t = 0 /\
  xPidNamespaceGetInfo st2 (Some ux) =
    (pdPASS, Some (uxTaskCount ns, wrapU ubits (ulNextPid ns + 1), ulMaxPid ns)).
Proof.
  intros Hns Hact Ht Htcb Hfree Hpid Hc0 Hc1.
  rewrite (bind_task_pass ubits st ux ns t tcb) by done. cbn [snd].
  assert ((t =? NULL) = false) as Hnn by (by apply Z.eqb_neq).
  assert (wrapU ubits (uxTaskCount ns + 1) = uxTaskCount ns + 1) as Hw
    by (unfold wrapU; apply Z.mod_small; lia).
  erewrite unbind_task_pass; [| |done| |]; simpl.
  2:{ apply list_lookup_insert_eq. by eapply lookup_lt_Some. }
  2:{ apply lookup_insert_eq. }
  2:{ done. }
  rewrite Hw. split; [done|].
  unfold xPidNamespaceGetTaskVirtualPid, xPidNamespaceGetTaskNamespace,
    uxTaskGetVirtualPid, pvTaskGetPidNamespace, xPidNamespaceGetInfo. simpl.
  destruct (Z.gtb_spec (uxTaskCount ns + 1) 0) as [_|]; [|lia].
  unfold TaskHandle_t in *. rewrite Hnn, lookup_insert_eq. simpl.
  rewrite list_lookup_insert_eq by (rewrite length_insert; by eapply lookup_lt_Some). simpl.
  destruct (Z.eqb_spec (xActive ns) pdFALSE) as [|_]; [done|].
  split; [done|]. split; [done|]. do 4 f_equal. lia.
Qed.

Lemma add_then_remove_keeps_pid_spent_witness :
  let st1 := snd (xPidNamespaceAddTask 32 one_task_state (Some 0%nat) 4096) in
  let '(r, st2) := xPidNamespaceRemoveTask st1 (Some 0%nat) 4096 in
  r = pdPASS /\
  xPidNamespaceGetTaskNamespace st2 4096 = None /\
  xPidNamespaceGetTaskVirtualPid st2 4096 = 0 /\
  xPidNamespaceGetInfo st2 (Some 0%nat) = (pdPASS, Some (0, wrapU 32 (1 + 1), 10)).
Proof.
  apply (add_then_remove_keeps_pid_spent 32 one_task_state 0%nat root_namespace 4096
           (mkTcb None 0)).
  - reflexivity.
  - vm_compute. congruence.
  - vm_compute. congruence.
  - reflexivity.
  - reflexivity.
  - simpl. lia.
  - simpl. lia.
  - simpl. lia.
Defined.

(** X12.  A handle to a deleted namespace is dead: after a successful
    [xPidNamespaceDelete], deleting it again, reading its information,
    adding a task to it and looking a virtual PID up in it all fail and
    change nothing. *)
Theorem deleted_namespace_is_dead ubits st h :
  fst (xPidNamespaceDelete st h) = pdPASS ->
  let st' := snd (xPidNamespaceDelete st h) in
  xPidNamespaceDelete st' h = (pdFAIL, st') /\
  xPidNamespaceGetInfo st' h = (pdFAIL, None) /\
  (forall t, xPidNamespaceAddTask ubits st' h t = (pdFAIL, st')) /\
  (forall pid, xPidNamespaceFindTaskByVirtualPid st' h pid = NULL).
Proof.
  unfold xPidNamespaceDelete at 1 2. destruct h as [ux|]; [|done].
  destruct (xPidNamespaces st !! ux) as [ns|] eqn:Hns; [|done].
  destruct (xActive ns =? pdFALSE); [done|]. destruct (uxTaskCount ns >? 0); [done|].
  intros _. simpl.
  unfold xPidNamespaceDelete, xPidNamespaceGetInfo, xPidNamespaceAddTask,
    xPidNamespaceFindTaskByVirtualPid. simpl.
  rewrite list_lookup_insert_eq by (by eapply lookup_lt_Some). simpl.
  split; [done|]. split; [done|]. split; [|done].
  intros t. by rewrite orb_true_r.
Qed.

Lemma deleted_namespace_is_dead_witness :
  let st := snd (xPidNamespaceCreate 32 one_task_state (Some "A"%string)) in
  let st' := snd (xPidNamespaceDelete st (Some 1%nat)) in
  xPidNamespaceDelete st' (Some 1%nat) = (pdFAIL, st') /\
  xPidNamespaceGetInfo st' (Some 1%nat) = (pdFAIL, None) /\
  (forall t, xPidNamespaceAddTask 32 st' (Some 1%nat) t = (pdFAIL, st')) /\
  (forall pid, xPidNamespaceFindTaskByVirtualPid st' (Some 1%nat) pid = NULL).
Proof.
  apply (deleted_namespace_is_dead 32
           (snd (xPidNamespaceCreate 32 one_task_state (Some "A"%string))) (Some 1%nat)).
  reflexivity.
Defined.

(** *** Uniqueness of virtual PIDs *)

(** The control block [kv.2] of task [kv.1] is bound to the namespace in
    slot [ux]. *)
Definition bound_in (ux : nat) (kv : Z * Tcb) : Prop := pxPidNamespace kv.2 = Some ux.

#[local] Instance bound_in_dec ux kv : Decision (bound_in ux kv).
Proof. unfold bound_in. apply _. Defined.

(** The number of tasks bound to the namespace in slot [ux]. *)
Definition bound_tasks (st : state) (ux : nat) : nat :=
  size (filter (bound_in ux) (xTcbs st)).

Section Counting.
Context (P : Z * Tcb -> Prop) `{!forall kv, Decision (P kv)}.

Lemma size_filter_insert_new (m : gmap Z Tcb) t v :
  (forall v0, m !! t = Some v0 -> ~ P (t, v0)) -> P (t, v) ->
  size (filter P (<[t := v]> m)) = S (size (filter P m)).
Proof.
  intros Hold Hnew. rewrite map_filter_insert_True by done.
  apply map_size_insert_None. apply map_lookup_filter_None_2.
  destruct (m !! t) as [v0|] eqn:E; [right|by left]. intros x Hx. by apply Hold.
Qed.

Lemma size_filter_insert_out (m : gmap Z Tcb) t v :
  ~ P (t, v) ->
  size (filter P m) =
  ((match m !! t with
    | Some v0 => if decide (P (t, v0)) then 1 else 0
    | None => 0
    end) + size (filter P (<[t := v]> m)))%nat.
Proof.
  intros Hnew. rewrite map_filter_insert_False by done.
  rewrite map_filter_delete, map_size_delete.
  destruct (m !! t) as [v0|] eqn:E.
  - destruct (decide (P (t, v0))) as [Hp|Hp].
    + assert (filter P m !! t = Some v0) as Hl by (by apply map_lookup_filter_Some_2).
      assert (size (filter P m) <> 0%nat) as Hsz.
      { apply (map_size_ne_0_lookup_2 _ t). by exists v0. }
      rewrite Hl. simpl. lia.
    + assert (filter P m !! t = None) as ->; [|done].
      apply map_lookup_filter_None_2. right. intros x Hx. rewrite E in Hx.
      by injection Hx as <-.
  - assert (filter P m !! t = None) as ->; [|done].
    apply map_lookup_filter_None_2. by left.
Qed.

Lemma size_filter_delete_le (m : gmap Z Tcb) t :
  (size (filter P (delete t m)) <= size (filter P m))%nat.
Proof.
  rewrite map_filter_delete, map_size_delete. destruct (filter P m !! t); simpl; lia.
Qed.

Lemma size_filter_zero (m : gmap Z Tcb) t v :
  size (filter P m) = 0%nat -> m !! t = Some v -> ~ P (t, v).
Proof.
  intros Hz Hl Hp. apply map_size_empty_inv in Hz.
  by apply (map_filter_empty_not_lookup P m t v).
Qed.

End Counting.

Record pids_ok (st : state) : Prop := mkPidsOk {
  po_length : length (xPidNamespaces st) = configMAX_PID_NAMESPACES;
  po_issued : forall (t : Z) tcb ux,
    xTcbs st !! t = Some tcb -> pxPidNamespace tcb = Some ux ->
    exists ns, xPidNamespaces st !! ux = Some ns /\ 0 < uxVirtualPid tcb < ulNextPid ns;
  po_unique : forall (t1 t2 : Z) tcb1 tcb2 ux,
    t1 <> t2 -> xTcbs st !! t1 = Some tcb1 -> xTcbs st !! t2 = Some tcb2 ->
    pxPidNamespace tcb1 = Some ux -> pxPidNamespace tcb2 = Some ux ->
    uxVirtualPid tcb1 <> uxVirtualPid tcb2;
  po_slots : forall ux ns, xPidNamespaces st !! ux = Some ns ->
    Z.of_nat (bound_tasks st ux) <= uxTaskCount ns /\
    ulNextPid ns <= Z.of_nat configPID_NAMESPACE_MAX_PID + 1 /\
    (xActive ns <> pdFALSE ->
     Z.testbit (uxNamespaceBitmap st) (Z.of_nat ux) = true /\
     uxTaskCount ns < ulNextPid ns /\
     0 < ulNextPid ns /\
     ulMaxPid ns = Z.of_nat configPID_NAMESPACE_MAX_PID) /\
    (Z.testbit (uxNamespaceBitmap st) (Z.of_nat ux) = false -> bound_tasks st ux = 0%nat) }.

Lemma create_pids_ok ubits st name :
  pids_ok st -> pids_ok (snd (xPidNamespaceCreate ubits st name)).
Proof.
  intros [Hlen Hiss Huni Hslots].
  unfold xPidNamespaceCreate, prvFindFreeNamespaceSlot.
  destruct (prvFindFreeNamespaceSlot_from _ _ _) as [x|] eqn:Hfind; [|by split].
  apply ContainerFacts.pidns_find_free in Hfind. destruct Hfind as [Hclear Hx].
  assert (x < length (xPidNamespaces st))%nat as Hxl by (rewrite Hlen; lia).
  destruct (lookup_lt_is_Some_2 _ _ Hxl) as [ns0 Hns0].
  destruct (Hslots x ns0 Hns0) as (_ & _ & _ & Hnone). specialize (Hnone Hclear).
  unfold prvInitializeNamespace. split; simpl.
  - by rewrite length_insert.
  - intros t tcb ux Ht Hb. destruct (decide (x = ux)) as [<-|Hne].
    + exfalso. by apply (size_filter_zero (bound_in x) (xTcbs st) t tcb Hnone Ht).
    + rewrite list_lookup_insert_ne by done. by eapply Hiss.
  - done.
  - intros ux ns. unfold bound_tasks. simpl. destruct (decide (x = ux)) as [<-|Hne].
    + rewrite list_lookup_insert_eq by done. intros [= <-]. simpl.
      unfold bound_tasks in Hnone. rewrite Hnone. split; [done|].
      split; [unfold configPID_NAMESPACE_MAX_PID; simpl; lia|]. split; [|done].
      intros _. rewrite testbit_lor_bit, bool_decide_eq_true_2 by done.
      rewrite orb_true_r. unfold configPID_NAMESPACE_MAX_PID. simpl. lia.
    + rewrite list_lookup_insert_ne by done. intros Hns.
      destruct (Hslots ux ns Hns) as (Hc & Hn & Ha & Hb). split; [done|]. split; [done|].
      rewrite testbit_lor_bit, bool_decide_eq_false_2 by done. rewrite orb_false_r.
      by split.
Qed.

Lemma delete_pids_ok st h :
  pids_ok st -> pids_ok (snd (xPidNamespaceDelete st h)).
Proof.
  intros Hok. pose proof Hok as [Hlen Hiss Huni Hslots].
  unfold xPidNamespaceDelete. destruct h as [x|]; [|done].
  destruct (xPidNamespaces st !! x) as [ns0|] eqn:Hns0; [|done].
  destruct (Z.eqb_spec (xActive ns0) pdFALSE) as [|Hact]; [done|].
  destruct (Z.gtb_spec (uxTaskCount ns0) 0) as [|Hz]; [done|].
  destruct (Hslots x ns0 Hns0) as (Hc0 & Hn0 & _ & _).
  assert (bound_tasks st x = 0%nat) as Hnone by lia.
  split; simpl.
  - by rewrite length_insert.
  - intros t tcb ux Ht Hb. destruct (decide (x = ux)) as [<-|Hne].
    + exfalso. by apply (size_filter_zero (bound_in x) (xTcbs st) t tcb Hnone Ht).
    + rewrite list_lookup_insert_ne by done. by eapply Hiss.
  - done.
  - intros ux ns. unfold bound_tasks. simpl. destruct (decide (x = ux)) as [<-|Hne].
    + rewrite list_lookup_insert_eq by (by eapply lookup_lt_Some). intros [= <-]. simpl.
      split; [done|]. split; [done|]. split; [done|]. done.
    + rewrite list_lookup_insert_ne by done. intros Hns.
      destruct (Hslots ux ns Hns) as (Hc & Hn & Ha & Hb). split; [done|]. split; [done|].
      rewrite testbit_clear_bit, bool_decide_eq_false_2 by done. simpl.
      rewrite andb_true_r. by split.
Qed.


(** Rebinding the control block of [t] that was not bound to [uy] before. *)
Lemma bound_tasks_bind st t tcb0 ux pid slots :
  xTcbs st !! t = Some tcb0 -> pxPidNamespace tcb0 = None ->
  forall uy,
    bound_tasks (mkState slots (uxNamespaceBitmap st) (xRootNamespace st)
                   (ulNextNamespaceId st) (<[t := mkTcb (Some ux) pid]> (xTcbs st))) uy =
    ((if decide (ux = uy) then 1 else 0) + bound_tasks st uy)%nat.
Proof.
  intros Ht Hfree uy. unfold bound_tasks. simpl. destruct (decide (ux = uy)) as [<-|Hne].
  - rewrite (size_filter_insert_new (bound_in ux)); [done| |done].
    intros v0 Hv0. rewrite Ht in Hv0. injection Hv0 as <-. unfold bound_in. simpl.
    by rewrite Hfree.
  - pose proof (size_filter_insert_out (bound_in uy) (xTcbs st) t (mkTcb (Some ux) pid)) as H.
    rewrite Ht in H. rewrite decide_False in H.
    + simpl in H. symmetry. apply H. unfold bound_in. simpl. congruence.
    + unfold bound_in. simpl. by rewrite Hfree.
Qed.

Lemma bound_tasks_unbind st t tcb0 ux slots :
  xTcbs st !! t = Some tcb0 -> pxPidNamespace tcb0 = Some ux ->
  forall uy,
    bound_tasks st uy =
    ((if decide (ux = uy) then 1 else 0) +
     bound_tasks (mkState slots (uxNamespaceBitmap st) (xRootNamespace st)
                    (ulNextNamespaceId st) (<[t := mkTcb None 0]> (xTcbs st))) uy)%nat.
Proof.
  intros Ht Hb uy. unfold bound_tasks. simpl.
  pose proof (size_filter_insert_out (bound_in uy) (xTcbs st) t (mkTcb None 0)) as H.
  rewrite Ht in H. rewrite H by done. f_equal.
  destruct (decide (bound_in uy (t, tcb0))) as [Hd|Hd];
    destruct (decide (ux = uy)) as [Heq|Hne]; try done; unfold bound_in in Hd; simpl in Hd.
  - congruence.
  - subst. done.
Qed.

Lemma add_pids_ok ubits st h (t : TaskHandle_t) :
  Z.of_nat configPID_NAMESPACE_MAX_PID + 1 < 2 ^ ubits ->
  pids_ok st -> pids_ok (snd (xPidNamespaceAddTask ubits st h t)).
Proof.
  intros Hbits Hok. pose proof Hok as [Hlen Hiss Huni Hslots].
  unfold xPidNamespaceAddTask. destruct h as [x|]; [|done].
  destruct (xPidNamespaces st !! x) as [ns0|] eqn:Hns0; [|done].
  destruct (Z.eqb_spec t NULL) as [|Ht]; simpl; [done|].
  destruct (Z.eqb_spec (xActive ns0) pdFALSE) as [|Hact]; simpl; [done|].
  destruct (pvTaskGetPidNamespace st t) eqn:Hget; [done|].
  destruct (Hslots x ns0 Hns0) as (Hc0 & Hnx0 & Ha0 & _).
  destruct (Ha0 Hact) as (Hbit & Hcn & Hn & Hmax).
  unfold prvAllocateVirtualPid.
  destruct (Z.gtb_spec (ulNextPid ns0) (ulMaxPid ns0)) as [|Hle]; simpl.
  { done. }
  destruct (Z.eqb_spec (ulNextPid ns0) 0) as [|_]; [lia|].
  assert (wrapU ubits (ulNextPid ns0 + 1) = ulNextPid ns0 + 1) as Hw1
    by (unfold wrapU; apply Z.mod_small; lia).
  assert (wrapU ubits (uxTaskCount ns0 + 1) = uxTaskCount ns0 + 1) as Hw2.
  { unfold wrapU. apply Z.mod_small. pose proof (Nat2Z.is_nonneg (bound_tasks st x)). lia. }
  assert (x < length (xPidNamespaces st))%nat as Hxl by (by eapply lookup_lt_Some).
  unfold xTaskSetPidNamespace. simpl.
  revert Hget. unfold pvTaskGetPidNamespace.
  destruct (xTcbs st !! t) as [tcb0|] eqn:Htcb; intros Hget; simpl.
  - (* the task exists and is unbound: it gets the PID *)
    rewrite list_insert_insert_eq. rewrite Hw1, Hw2.
    pose proof (bound_tasks_bind st t tcb0 x (ulNextPid ns0)) as Hcount.
    split; simpl.
    + by rewrite length_insert.
    + intros t' tcb ux. destruct (decide (t = t')) as [<-|Hne].
      * rewrite lookup_insert_eq. intros [= <-]. simpl. intros [= <-].
        rewrite list_lookup_insert_eq by done. eexists. split; [reflexivity|]. simpl. lia.
      * rewrite lookup_insert_ne by done. intros Ht' Hb.
        destruct (Hiss t' tcb ux Ht' Hb) as (ns & Hns & Hp).
        destruct (decide (x = ux)) as [<-|Hnx].
        -- rewrite list_lookup_insert_eq by done. eexists. split; [reflexivity|]. simpl.
           rewrite Hns0 in Hns. injection Hns as <-. lia.
        -- rewrite list_lookup_insert_ne by done. by exists ns.
    + intros t1 t2 tcb1 tcb2 ux Hne.
      destruct (decide (t = t1)) as [<-|Hn1]; destruct (decide (t = t2)) as [<-|Hn2];
        try done.
      * rewrite lookup_insert_eq, lookup_insert_ne by done.
        intros [= <-] Ht2. simpl. intros [= <-] Hb2.
        destruct (Hiss t2 tcb2 x Ht2 Hb2) as (ns & Hns & Hp).
        rewrite Hns0 in Hns. injection Hns as <-. lia.
      * rewrite lookup_insert_ne, lookup_insert_eq by done.
        intros Ht1 [= <-] Hb1. simpl. intros [= <-].
        destruct (Hiss t1 tcb1 x Ht1 Hb1) as (ns & Hns & Hp).
        rewrite Hns0 in Hns. injection Hns as <-. lia.
      * rewrite !lookup_insert_ne by done. by apply Huni.
    + intros ux ns. specialize (Hcount (<[x:=set_task_count
                  (set_next_pid ns0 (ulNextPid ns0 + 1)) (uxTaskCount ns0 + 1)]>
                  (xPidNamespaces st)) Htcb Hget ux).
      unfold bound_tasks, TaskHandle_t in *. simpl in *. rewrite Hcount.
      destruct (decide (x = ux)) as [<-|Hnx].
      * rewrite list_lookup_insert_eq by done. intros [= <-]. simpl.
        split; [lia|]. split; [lia|]. split; [|by rewrite Hbit].
        intros _. split; [done|]. lia.
      * rewrite list_lookup_insert_ne by done. intros Hns. by apply Hslots.
  - (* no control block: the PID is spent, nothing else changes *)
    rewrite Hw1. split; simpl.
    + by rewrite length_insert.
    + intros t' tcb ux Ht' Hb. destruct (Hiss t' tcb ux Ht' Hb) as (ns & Hns & Hp).
      destruct (decide (x = ux)) as [<-|Hnx].
      * rewrite list_lookup_insert_eq by done. eexists. split; [reflexivity|]. simpl.
        rewrite Hns0 in Hns. injection Hns as <-. lia.
      * rewrite list_lookup_insert_ne by done. by exists ns.
    + done.
    + intros ux ns. unfold bound_tasks. simpl. destruct (decide (x = ux)) as [<-|Hnx].
      * rewrite list_lookup_insert_eq by done. intros [= <-]. simpl.
        split; [done|]. split; [lia|]. split; [|by rewrite Hbit].
        intros _. split; [done|]. lia.
      * rewrite list_lookup_insert_ne by done. intros Hns. by apply Hslots.
Qed.

Lemma remove_pids_ok st h (t : TaskHandle_t) :
  pids_ok st -> pids_ok (snd (xPidNamespaceRemoveTask st h t)).
Proof.
  intros Hok. pose proof Hok as [Hlen Hiss Huni Hslots].
  unfold xPidNamespaceRemoveTask. destruct h as [x|]; [|done].
  destruct (Z.eqb_spec t NULL) as [|Ht]; [done|].
  case_bool_decide as Hget; [|done].
  revert Hget. unfold pvTaskGetPidNamespace, xTaskSetPidNamespace.
  destruct (xTcbs st !! t) as [tcb0|] eqn:Htcb; [|done]. intros Hb0. simpl.
  destruct (Hiss t tcb0 x Htcb Hb0) as (ns0 & Hns0 & Hp0). rewrite Hns0.
  destruct (Hslots x ns0 Hns0) as (Hc0 & Hnx0 & Ha0 & Hz0).
  pose proof (bound_tasks_unbind st t tcb0 x (xPidNamespaces st) Htcb Hb0) as Hcount.
  assert (x < length (xPidNamespaces st))%nat as Hxl by (by eapply lookup_lt_Some).
  assert (forall slots : list PidNamespace_t,
    (forall (t0 : Z) tcb ux, xTcbs st !! t0 = Some tcb -> pxPidNamespace tcb = Some ux ->
       exists ns, slots !! ux = Some ns /\ 0 < uxVirtualPid tcb < ulNextPid ns) ->
    forall (t' : Z) tcb ux,
      <[t := mkTcb None 0]> (xTcbs st) !! t' = Some tcb -> pxPidNamespace tcb = Some ux ->
      exists ns, slots !! ux = Some ns /\ 0 < uxVirtualPid tcb < ulNextPid ns) as Hiss'.
  { intros slots Hs t' tcb ux. destruct (decide (t = t')) as [<-|Hne].
    - rewrite lookup_insert_eq. by intros [= <-].
    - rewrite lookup_insert_ne by done. apply Hs. }
  assert (forall (t1 t2 : Z) tcb1 tcb2 ux,
    t1 <> t2 -> <[t := mkTcb None 0]> (xTcbs st) !! t1 = Some tcb1 ->
    <[t := mkTcb None 0]> (xTcbs st) !! t2 = Some tcb2 ->
    pxPidNamespace tcb1 = Some ux -> pxPidNamespace tcb2 = Some ux ->
    uxVirtualPid tcb1 <> uxVirtualPid tcb2) as Huni'.
  { intros t1 t2 tcb1 tcb2 ux Hne.
    destruct (decide (t = t1)) as [<-|Hn1].
    { rewrite lookup_insert_eq. by intros [= <-]. }
    destruct (decide (t = t2)) as [<-|Hn2].
    { rewrite lookup_insert_eq. by intros _ [= <-]. }
    rewrite !lookup_insert_ne by done. by apply Huni. }
  destruct (Z.gtb_spec (uxTaskCount ns0) 0) as [Hpos|Hnp]; simpl.
  - split; simpl.
    + by rewrite length_insert.
    + apply Hiss'. intros t0 tcb ux Ht0 Hb.
      destruct (Hiss t0 tcb ux Ht0 Hb) as (ns & Hns & Hp).
      destruct (decide (x = ux)) as [<-|Hnx].
      * rewrite list_lookup_insert_eq by done. eexists. split; [reflexivity|]. simpl.
        rewrite Hns0 in Hns. by injection Hns as <-.
      * rewrite list_lookup_insert_ne by done. by exists ns.
    + apply Huni'.
    + intros ux ns. specialize (Hcount ux). unfold bound_tasks, TaskHandle_t in *.
      simpl in *. destruct (decide (x = ux)) as [<-|Hnx]; simpl in Hcount.
      * rewrite list_lookup_insert_eq by done. intros [= <-]. simpl.
        split; [lia|]. split; [done|]. split.
        { intros Hact. destruct (Ha0 Hact) as (? & ? & ? & ?). split; [done|]. lia. }
        intros Hbit. specialize (Hz0 Hbit). lia.
      * rewrite list_lookup_insert_ne by done. intros Hns.
        destruct (Hslots ux ns Hns) as (Hc & Hn & Ha & Hz). unfold bound_tasks in *.
        split; [lia|]. split; [done|]. split; [done|].
        intros Hbit. specialize (Hz Hbit). lia.
  - exfalso. specialize (Hcount x). rewrite decide_True in Hcount by done.
    simpl in Hcount. lia.
Qed.

Lemma task_create_pids_ok st pxNew :
  pids_ok st -> pids_ok (snd (xTaskCreate st pxNew)).
Proof.
  intros Hok. pose proof Hok as [Hlen Hiss Huni Hslots].
  unfold xTaskCreate. destruct pxNew as [t|]; [|done]. split; simpl.
  - done.
  - intros t' tcb ux. destruct (decide (t = t')) as [<-|Hne].
    + rewrite lookup_insert_eq. by intros [= <-].
    + rewrite lookup_insert_ne by done. apply Hiss.
  - intros t1 t2 tcb1 tcb2 ux Hne.
    destruct (decide (t = t1)) as [<-|Hn1].
    { rewrite lookup_insert_eq. by intros [= <-]. }
    destruct (decide (t = t2)) as [<-|Hn2].
    { rewrite lookup_insert_eq. by intros _ [= <-]. }
    rewrite !lookup_insert_ne by done. by apply Huni.
  - intros ux ns Hns. destruct (Hslots ux ns Hns) as (Hc & Hn & Ha & Hz).
    pose proof (size_filter_insert_out (bound_in ux) (xTcbs st) t (mkTcb None 0)) as H.
    unfold bound_tasks, TaskHandle_t in *. simpl.
    assert (~ bound_in ux (t, mkTcb None 0)) as Hnb by done. specialize (H Hnb).
    split; [lia|]. split; [done|]. split; [done|].
    intros Hbit. specialize (Hz Hbit). lia.
Qed.

Lemma task_delete_pids_ok st (t : TaskHandle_t) :
  pids_ok st -> pids_ok (vTaskDelete (prvPidNamespaceTaskDelete st t) t).
Proof.
  intros Hok0.
  assert (pids_ok (prvPidNamespaceTaskDelete st t)) as Hok.
  { unfold prvPidNamespaceTaskDelete. destruct (t =? NULL); [done|].
    destruct (pvTaskGetPidNamespace st t); [|done]. by apply remove_pids_ok. }
  generalize dependent (prvPidNamespaceTaskDelete st t). clear st Hok0.
  intros st [Hlen Hiss Huni Hslots]. unfold vTaskDelete. split; simpl.
  - done.
  - intros t' tcb ux. destruct (decide (t = t')) as [<-|Hne].
    + by rewrite lookup_delete_eq.
    + rewrite lookup_delete_ne by done. apply Hiss.
  - intros t1 t2 tcb1 tcb2 ux Hne.
    destruct (decide (t = t1)) as [<-|Hn1]; [by rewrite lookup_delete_eq|].
    destruct (decide (t = t2)) as [<-|Hn2]; [by rewrite lookup_delete_eq|].
    rewrite !lookup_delete_ne by done. by apply Huni.
  - intros ux ns Hns. destruct (Hslots ux ns Hns) as (Hc & Hn & Ha & Hz).
    pose proof (size_filter_delete_le (bound_in ux) (xTcbs st) t) as H.
    unfold bound_tasks, TaskHandle_t in *. simpl.
    split; [lia|]. split; [done|]. split; [done|].
    intros Hbit. specialize (Hz Hbit). lia.
Qed.

Lemma run_op_pids_ok ubits st o :
  Z.of_nat configPID_NAMESPACE_MAX_PID + 1 < 2 ^ ubits ->
  pids_ok st -> pids_ok (run_op ubits st o).
Proof.
  intros Hbits Hok. destruct o as [n|h|h t|h t|h n|n|t]; simpl.
  - by apply create_pids_ok.
  - by apply delete_pids_ok.
  - by apply add_pids_ok.
  - by apply remove_pids_ok.
  - unfold xTaskCreateInNamespace. destruct h as [x|]; [|done].
    pose proof (task_create_pids_ok st n Hok) as H1.
    destruct (xTaskCreate st n) as [[r t] st1]. simpl in H1.
    destruct (r =? pdPASS); [|done].
    pose proof (add_pids_ok ubits st1 (Some x) t Hbits H1) as H2.
    destruct (xPidNamespaceAddTask ubits st1 (Some x) t) as [r2 st2]. simpl in H2.
    by destruct (negb _).
  - by apply task_create_pids_ok.
  - by apply task_delete_pids_ok.
Qed.

Lemma init_pids_ok ubits : pids_ok (prvPidNamespaceInit ubits (boot_state ∅)).
Proof.
  split.
  - done.
  - intros t tcb ux Ht. done.
  - intros t1 t2 tcb1 tcb2 ux _ Ht. done.
  - intros ux ns Hns.
    assert (bound_tasks (prvPidNamespaceInit ubits (boot_state ∅)) ux = 0%nat) as Hz.
    { unfold bound_tasks. simpl. by rewrite map_filter_empty. }
    rewrite Hz. split; [|split; [|split; [|done]]].
    + do 4 (destruct ux as [|ux]; [injection Hns as <-; simpl; lia|]). done.
    + do 4 (destruct ux as [|ux];
            [injection Hns as <-; unfold configPID_NAMESPACE_MAX_PID; simpl; lia|]). done.
    + destruct ux as [|ux].
      * injection Hns as <-. intros _. unfold configPID_NAMESPACE_MAX_PID. simpl.
        split; [done|]. lia.
      * do 3 (destruct ux as [|ux]; [by injection Hns as <-|]). done.
Qed.

Lemma reachable_pids_ok ubits ops :
  Z.of_nat configPID_NAMESPACE_MAX_PID + 1 < 2 ^ ubits ->
  pids_ok (run_ops ubits (prvPidNamespaceInit ubits (boot_state ∅)) ops).
Proof.
  intros Hbits. pose proof (init_pids_ok ubits) as Hinit.
  revert Hinit. generalize (prvPidNamespaceInit ubits (boot_state ∅)).
  unfold run_ops. induction ops as [|o ops IH]; intros st Hok; [done|].
  simpl. apply IH. by apply run_op_pids_ok.
Qed.

(** X13.  In every state the controller reaches from its initialisation, by
    its public interface and the creation and deletion of tasks, the tasks
    bound to one namespace have pairwise different virtual PIDs, each
    between 1 and [configPID_NAMESPACE_MAX_PID]. *)
Theorem virtual_pids_are_unique ubits ops (t1 t2 : TaskHandle_t) ux :
  Z.of_nat configPID_NAMESPACE_MAX_PID + 1 < 2 ^ ubits ->
  let st := run_ops ubits (prvPidNamespaceInit ubits (boot_state ∅)) ops in
  t1 <> t2 ->
  xPidNamespaceGetTaskNamespace st t1 = Some ux ->
  xPidNamespaceGetTaskNamespace st t2 = Some ux ->
  xPidNamespaceGetTaskVirtualPid st t1 <> xPidNamespaceGetTaskVirtualPid st t2 /\
  1 <= xPidNamespaceGetTaskVirtualPid st t1 <= Z.of_nat configPID_NAMESPACE_MAX_PID /\
  1 <= xPidNamespaceGetTaskVirtualPid st t2 <= Z.of_nat configPID_NAMESPACE_MAX_PID.
Proof.
  intros Hbits st Hne. pose proof (reachable_pids_ok ubits ops Hbits) as Hok.
  fold st in Hok. clearbody st. destruct Hok as [Hlen Hiss Huni Hslots].
  unfold xPidNamespaceGetTaskNamespace, xPidNamespaceGetTaskVirtualPid,
    pvTaskGetPidNamespace, uxTaskGetVirtualPid.
  destruct (t1 =? NULL); [done|]. destruct (t2 =? NULL); [done|].
  destruct (xTcbs st !! t1) as [tcb1|] eqn:H1; [|done].
  destruct (xTcbs st !! t2) as [tcb2|] eqn:H2; [|done].
  intros Hb1 Hb2. split; [by apply (Huni t1 t2 tcb1 tcb2 ux)|].
  destruct (Hiss t1 tcb1 ux H1 Hb1) as (ns & Hns & Hp1).
  destruct (Hiss t2 tcb2 ux H2 Hb2) as (ns' & Hns' & Hp2).
  rewrite Hns in Hns'. injection Hns' as <-.
  destruct (Hslots ux ns Hns) as (_ & Hn & _ & _). lia.
Qed.


(** Two tasks created and bound to the root namespace. *)
Definition two_bound_ops : list op :=
  [OpTaskCreate (Some 4096); OpTaskCreate (Some 8192);
   OpAddTask (Some 0%nat) 4096; OpAddTask (Some 0%nat) 8192].

Lemma virtual_pids_are_unique_witness :
  let st := run_ops 32 (prvPidNamespaceInit 32 (boot_state ∅)) two_bound_ops in
  xPidNamespaceGetTaskVirtualPid st 4096 <> xPidNamespaceGetTaskVirtualPid st 8192 /\
  1 <= xPidNamespaceGetTaskVirtualPid st 4096 <= Z.of_nat configPID_NAMESPACE_MAX_PID /\
  1 <= xPidNamespaceGetTaskVirtualPid st 8192 <= Z.of_nat configPID_NAMESPACE_MAX_PID.
Proof.
  apply (virtual_pids_are_unique 32 two_bound_ops 4096 8192 0%nat).
  - vm_compute. reflexivity.
  - lia.
  - vm_compute. reflexivity.
  - vm_compute. reflexivity.
Defined.


(** X14.  In every state the controller reaches from its initialisation, a
    namespace that still has a task bound to it cannot be deleted:
    [xPidNamespaceDelete] fails and changes nothing. *)
Theorem namespace_with_task_cannot_be_deleted ubits ops (t : TaskHandle_t) ux :
  Z.of_nat configPID_NAMESPACE_MAX_PID + 1 < 2 ^ ubits ->
  let st := run_ops ubits (prvPidNamespaceInit ubits (boot_state ∅)) ops in
  xPidNamespaceGetTaskNamespace st t = Some ux ->
  xPidNamespaceDelete st (Some ux) = (pdFAIL, st).
Proof.
  intros Hbits st. pose proof (reachable_pids_ok ubits ops Hbits) as Hok.
  fold st in Hok. clearbody st. destruct Hok as [Hlen Hiss Huni Hslots].
  unfold xPidNamespaceGetTaskNamespace, pvTaskGetPidNamespace.
  destruct (t =? NULL); [done|].
  destruct (xTcbs st !! t) as [tcb|] eqn:Ht; [|done]. intros Hb.
  destruct (Hiss t tcb ux Ht Hb) as (ns & Hns & _).
  destruct (Hslots ux ns Hns) as (Hc & _).
  assert (bound_tasks st ux <> 0%nat) as Hnz.
  { unfold bound_tasks. apply (map_size_ne_0_lookup_2 _ t). exists tcb.
    by apply map_lookup_filter_Some_2. }
  unfold xPidNamespaceDelete. rewrite Hns.
  destruct (xActive ns =? pdFALSE); [done|].
  destruct (Z.gtb_spec (uxTaskCount ns) 0); [done|lia].
Qed.

Lemma namespace_with_task_cannot_be_deleted_witness :
  let st := run_ops 32 (prvPidNamespaceInit 32 (boot_state ∅)) two_bound_ops in
  xPidNamespaceDelete st (Some 0%nat) = (pdFAIL, st).
Proof.
  apply (namespace_with_task_cannot_be_deleted 32 two_bound_ops 4096 0%nat).
  - vm_compute. reflexivity.
  - vm_compute. reflexivity.
Defined.

End PidNsLaws.

(** ** Laws of the IPC namespaces *)

Module IpcNsLaws.
Import IpcNs IpcNsFacts.

(** *** Registration *)

Lemma find_index_from_spec {A} (p : A -> bool) (l : list A) (n ux : nat) :
  find_index_from p l n = Some ux ->
  (n <= ux)%nat /\
  (exists e, l !! (ux - n)%nat = Some e /\ p e = true) /\
  forall j e', (j < ux - n)%nat -> l !! j = Some e' -> p e' = false.
Proof.
  revert n. induction l as [|x l IH]; intros n; simpl; [done|].
  destruct (p x) eqn:Hp.
  - intros [= <-]. split; [lia|]. rewrite Nat.sub_diag. split; [by exists x|].
    intros j e' Hj. lia.
  - intros H. destruct (IH _ H) as (Hle & (e & He & Hpe) & Hlow).
    split; [lia|]. replace (ux - n)%nat with (S (ux - S n)) by lia.
    split; [by exists e|]. intros [|j] e' Hj; simpl.
    + by intros [= <-].
    + apply Hlow. lia.
Qed.

Lemma find_index_from_first {A} (p : A -> bool) (l : list A) (n k : nat) (e : A) :
  l !! k = Some e -> p e = true ->
  (forall j e', (j < k)%nat -> l !! j = Some e' -> p e' = false) ->
  find_index_from p l n = Some (n + k)%nat.
Proof.
  revert n k. induction l as [|x l IH]; intros n k; [done|].
  destruct k as [|k]; simpl.
  - intros [= <-] -> _. f_equal. lia.
  - intros Hk Hp Hlow. rewrite (Hlow 0%nat x) by (lia || done).
    rewrite (IH (S n) k) by (try done; intros j e' Hj; apply (Hlow (S j)); lia).
    f_equal. lia.
Qed.

(** The outcome of a successful [ulIpcNamespaceRegisterObject]. *)
Definition registered (ubits : Z) (L : nat) (st : state) (uxSlot : nat) (ns : IpcNamespace_t)
    (ux : nat) (obj : Z) (ty : IpcObjectType_t) (name : option string) : state :=
  let entry := mkEntry obj ty
                 (match name with Some s => prvStrcpy s L | None => EmptyString end)
                 (ulNextObjectId ns) (Some uxSlot) in
  let entries := <[ux := entry]> (xIpcObjectEntries st) in
  let ids := fun i => match entries !! i with Some e => ulObjectId e | None => 0 end in
  set_slots
    (set_entries st entries (wrapU ubits (uxObjectEntryCount st + 1)))
    (<[uxSlot := mkIpcNamespace (pcNamespaceName ns) (ulNamespaceId ns)
                   (wrapU ubits (ulNextObjectId ns + 1))
                   (vListInsert ids (xObjectList ns) ux)
                   (wrapU ubits (uxObjectCount ns + 1)) (xActive ns)]>
       (xIpcNamespaces st)).

Lemma register_cases ubits L st h obj ty name :
  ulIpcNamespaceRegisterObject ubits L st h obj ty name = (0, st) \/
  exists uxSlot ns ux,
    h = Some uxSlot /\ xIpcNamespaces st !! uxSlot = Some ns /\
    obj <> NULL /\ xActive ns <> pdFALSE /\
    uxObjectCount ns < Z.of_nat configMAX_IPC_OBJECTS_PER_NAMESPACE /\
    prvFindFreeObjectEntry st = Some ux /\
    ulIpcNamespaceRegisterObject ubits L st h obj ty name =
      (ulNextObjectId ns, registered ubits L st uxSlot ns ux obj ty name).
Proof.
  unfold ulIpcNamespaceRegisterObject. destruct h as [uxSlot|]; [|by left].
  destruct (xIpcNamespaces st !! uxSlot) as [ns|] eqn:Hns; [|by left].
  destruct (Z.eqb_spec obj NULL) as [|Hobj]; simpl; [by left|].
  destruct (Z.eqb_spec (xActive ns) pdFALSE) as [|Hact]; simpl; [by left|].
  destruct (Z.geb_spec (uxObjectCount ns) (Z.of_nat configMAX_IPC_OBJECTS_PER_NAMESPACE))
    as [|Hroom]; [by left|].
  destruct (prvFindFreeObjectEntry st) as [ux|] eqn:Hfree; [|by left].
  right. exists uxSlot, ns, ux. by repeat (split; [done|]).
Qed.

Lemma free_entry_spec st ux :
  prvFindFreeObjectEntry st = Some ux ->
  (ux < uxMaxEntries)%nat /\ (ux < length (xIpcObjectEntries st))%nat /\
  forall j e', (j < ux)%nat -> registry st !! j = Some e' -> pvIpcObject e' <> NULL.
Proof.
  unfold prvFindFreeObjectEntry. intros H. apply find_index_from_spec in H.
  destruct H as (_ & (e & He & _) & Hlow). rewrite Nat.sub_0_r in He, Hlow.
  apply lookup_take_Some in He. destruct He as [He Hlt].
  split; [done|]. split; [by eapply lookup_lt_Some|].
  intros j e' Hj He'. specialize (Hlow j e' Hj He'). simpl in Hlow.
  by apply Z.eqb_neq.
Qed.

Lemma registered_first_entry ubits L st uxSlot ns ux obj ty name :
  prvFindFreeObjectEntry st = Some ux ->
  (forall e, e ∈ registry st -> pvIpcObject e <> obj) ->
  exists e, first_entry_for (registry (registered ubits L st uxSlot ns ux obj ty name)) obj ux e
            /\ xNamespace e = Some uxSlot.
Proof.
  intros Hfree Hfresh. destruct (free_entry_spec st ux Hfree) as (Hmax & Hlen & _).
  exists (mkEntry obj ty (match name with Some s => prvStrcpy s L | None => EmptyString end)
            (ulNextObjectId ns) (Some uxSlot)).
  split; [|reflexivity]. unfold first_entry_for, registry. simpl.
  split; [|split; [done|]].
  - rewrite lookup_take_lt by done. by rewrite list_lookup_insert_eq.
  - intros j e' Hj. rewrite lookup_take_lt by lia.
    rewrite list_lookup_insert_ne by lia. intros He'. apply Hfresh.
    unfold registry. apply list_elem_of_lookup. exists j.
    rewrite lookup_take_lt by lia. done.
Qed.

Lemma registered_task_namespace ubits L st uxSlot ns ux obj ty name T :
  task_namespace (registered ubits L st uxSlot ns ux obj ty name) T = task_namespace st T.
Proof. done. Qed.

Lemma create_isolated_eq ubits L st xObject ty name :
  create_isolated ubits L st xObject ty name =
  if xObject =? NULL then (NULL, st)
  else
    let '(ulId, st1) :=
      ulIpcNamespaceRegisterObject ubits L st (task_namespace st NULL) xObject ty name in
    if ulId =? 0 then (NULL, st1) else (xObject, st1).
Proof. reflexivity. Qed.

(** X15.  An object made by an isolated constructor is guarded by the
    namespace of the task that made it: when [xQueueCreateIsolated] hands
    back the queue (one that no registry entry held before),
    [xIpcNamespaceCheckAccess] lets in a task exactly when the task acts in
    the creator's namespace or in the root namespace. *)
Theorem isolated_object_is_guarded ubits L st xQueue name :
  xQueue <> NULL ->
  (forall e, e ∈ registry st -> pvIpcObject e <> xQueue) ->
  fst (xQueueCreateIsolated ubits L st xQueue name) = xQueue ->
  let st' := snd (xQueueCreateIsolated ubits L st xQueue name) in
  forall T,
    xIpcNamespaceCheckAccess st' T xQueue = pdTRUE <->
    (task_namespace st' T = task_namespace st NULL \/
     task_namespace st' T = xRootNamespace st').
Proof.
  intros Hq Hfresh. unfold xQueueCreateIsolated. rewrite create_isolated_eq.
  destruct (Z.eqb_spec xQueue NULL) as [|_]; [done|].
  destruct (register_cases ubits L st (task_namespace st NULL) xQueue IPC_TYPE_QUEUE name)
    as [->|(uxSlot & ns & ux & Hh & Hns & _ & Hact & Hroom & Hfree & ->)].
  { simpl. intros H. by symmetry in H. }
  destruct (Z.eqb_spec (ulNextObjectId ns) 0) as [|_]; simpl.
  { intros H. by symmetry in H. }
  intros _ T.
  destruct (registered_first_entry ubits L st uxSlot ns ux xQueue IPC_TYPE_QUEUE name
              Hfree Hfresh) as (e & Hfirst & He).
  unfold xIpcNamespaceCheckAccess. destruct (Z.eqb_spec xQueue NULL) as [|_]; [done|].
  fold (task_namespace (registered ubits L st uxSlot ns ux xQueue IPC_TYPE_QUEUE name) T).
  fold (registry (registered ubits L st uxSlot ns ux xQueue IPC_TYPE_QUEUE name)).
  rewrite (check_entries_registered _ _ _ _ ux e Hfirst). by rewrite He, Hh.
Qed.


(** Namespaces A (slot 1) and B (slot 2) besides the root; the running task
    4096 is in A, task 8192 in B. *)
Definition two_namespaces : state :=
  let st0 := vIpcNamespaceInit 32 (boot_state ∅ 4096) in
  let '(hA, st1) := xIpcNamespaceCreate 32 st0 (Some "A"%string) in
  let '(hB, st2) := xIpcNamespaceCreate 32 st1 (Some "B"%string) in
  let '(_, st3) := xIpcNamespaceSetTaskNamespace st2 4096 hA in
  snd (xIpcNamespaceSetTaskNamespace st3 8192 hB).

Lemma two_namespaces_fresh (obj : Z) :
  obj <> NULL -> forall e, e ∈ registry two_namespaces -> pvIpcObject e <> obj.
Proof.
  intros Hobj e He.
  assert (Forall (fun e => pvIpcObject e = NULL) (registry two_namespaces)) as Hall.
  { vm_compute. repeat constructor. }
  rewrite Forall_forall in Hall. rewrite (Hall e He). congruence.
Qed.

Lemma isolated_object_is_guarded_witness :
  let st' := snd (xQueueCreateIsolated 32 16 two_namespaces 700 (Some "Q"%string)) in
  (xIpcNamespaceCheckAccess st' 4096 700 = pdTRUE <->
   (task_namespace st' 4096 = task_namespace two_namespaces NULL \/
    task_namespace st' 4096 = xRootNamespace st')) /\
  (xIpcNamespaceCheckAccess st' 8192 700 = pdTRUE <->
   (task_namespace st' 8192 = task_namespace two_namespaces NULL \/
    task_namespace st' 8192 = xRootNamespace st')).
Proof.
  assert (700 <> NULL) as Hq by (vm_compute; congruence).
  pose proof (isolated_object_is_guarded 32 16 two_namespaces 700 (Some "Q"%string) Hq
                (two_namespaces_fresh 700 Hq) eq_refl) as H.
  split; apply H.
Defined.

(** X16.  An isolated constructor is all or nothing: as long as the object
    ids of the calling task's namespace have not wrapped around to 0, a call
    that hands back the null handle has left the registry and the namespaces
    exactly as they were. *)
Theorem failed_isolated_create_leaves_no_trace ubits L st xQueue name :
  (forall uxSlot ns, task_namespace st NULL = Some uxSlot ->
     xIpcNamespaces st !! uxSlot = Some ns -> ulNextObjectId ns <> 0) ->
  fst (xQueueCreateIsolated ubits L st xQueue name) = NULL ->
  snd (xQueueCreateIsolated ubits L st xQueue name) = st.
Proof.
  intros Hids. unfold xQueueCreateIsolated. rewrite create_isolated_eq.
  destruct (Z.eqb_spec xQueue NULL) as [|Hq]; [done|].
  destruct (register_cases ubits L st (task_namespace st NULL) xQueue IPC_TYPE_QUEUE name)
    as [->|(uxSlot & ns & ux & Hh & Hns & _ & Hact & Hroom & Hfree & ->)]; [done|].
  destruct (Z.eqb_spec (ulNextObjectId ns) 0) as [Hz|_]; simpl.
  - by destruct (Hids uxSlot ns Hh Hns).
  - done.
Qed.

(** The running task's namespace A already holds 32 objects. *)
Definition full_namespace_state : state :=
  fold_left
    (fun st obj => snd (ulIpcNamespaceRegisterObject 32 16 st (Some 1%nat) obj
                          IPC_TYPE_QUEUE None))
    (map Z.of_nat (seq 1000 32)) two_namespaces.

Lemma failed_isolated_create_leaves_no_trace_witness :
  snd (xQueueCreateIsolated 32 16 full_namespace_state 700 (Some "Q"%string))
  = full_namespace_state.
Proof.
  apply (failed_isolated_create_leaves_no_trace 32 16 full_namespace_state 700
           (Some "Q"%string)).
  - intros uxSlot ns Ht. assert (uxSlot = 1%nat) as -> by (vm_compute in Ht; congruence).
    intros Hns. vm_compute in Hns. injection Hns as <-. vm_compute. congruence.
  - vm_compute. reflexivity.
Defined.

(** *** Unregistration *)

(** X17.  Unregistering an object that was just registered succeeds and
    leaves no entry that holds it, so that [xIpcNamespaceCheckAccess] lets in
    every task again; the object counts are restored, the object id is not
    handed out again. *)
Theorem unregister_undoes_register ubits L st uxSlot ns ux obj ty name :
  xIpcNamespaces st !! uxSlot = Some ns ->
  obj <> NULL ->
  xActive ns <> pdFALSE ->
  0 <= uxObjectCount ns < Z.of_nat configMAX_IPC_OBJECTS_PER_NAMESPACE ->
  Z.of_nat configMAX_IPC_OBJECTS_PER_NAMESPACE < 2 ^ ubits ->
  0 <= uxObjectEntryCount st -> uxObjectEntryCount st + 1 < 2 ^ ubits ->
  prvFindFreeObjectEntry st = Some ux ->
  (forall e, e ∈ registry st -> pvIpcObject e <> obj) ->
  let st1 := snd (ulIpcNamespaceRegisterObject ubits L st (Some uxSlot) obj ty name) in
  let '(r, st2) := xIpcNamespaceUnregisterObject ubits st1 (Some uxSlot) obj in
  r = pdPASS /\
  (forall e, e ∈ registry st2 -> pvIpcObject e <> obj) /\
  (forall T, xIpcNamespaceCheckAccess st2 T obj = pdTRUE) /\
  uxObjectEntryCount st2 = uxObjectEntryCount st /\
  xIpcNamespaceGetInfo st2 (Some uxSlot) =
    (pdPASS, Some (uxObjectCount ns, wrapU ubits (ulNextObjectId ns + 1))).
Proof.
  intros Hns Hobj Hact Hcount Hbits He0 He1 Hfree Hfresh.
  destruct (register_cases ubits L st (Some uxSlot) obj ty name)
    as [Hfail|(uxSlot' & ns' & ux' & Hh & Hns' & _ & _ & _ & Hfree' & ->)].
  { exfalso. revert Hfail. unfold ulIpcNamespaceRegisterObject. rewrite Hns.
    destruct (Z.eqb_spec obj NULL) as [|_]; [done|].
    destruct (Z.eqb_spec (xActive ns) pdFALSE) as [|_]; [done|]. simpl.
    destruct (Z.geb_spec (uxObjectCount ns) (Z.of_nat configMAX_IPC_OBJECTS_PER_NAMESPACE));
      [lia|].
    rewrite Hfree. intros [= Hid Hst]. apply (f_equal uxObjectEntryCount) in Hst.
    simpl in Hst. unfold wrapU in Hst. rewrite Z.mod_small in Hst; lia. }
  injection Hh as <-. rewrite Hns in Hns'. injection Hns' as <-.
  rewrite Hfree in Hfree'. injection Hfree' as <-. cbn [snd].
  destruct (free_entry_spec st ux Hfree) as (Hmax & Hlen & _).
  destruct (registered_first_entry ubits L st uxSlot ns ux obj ty name Hfree Hfresh)
    as (e & (He & Heo & Hlow) & Hen).
  assert (uxSlot < length (xIpcNamespaces st))%nat as Hsl by (by eapply lookup_lt_Some).
  assert (prvFindObjectEntry (registered ubits L st uxSlot ns ux obj ty name)
            (Some uxSlot) obj = Some ux) as Hfind.
  { unfold prvFindObjectEntry.
    rewrite (find_index_from_first _ _ 0 ux e); [done|exact He| |].
    - rewrite Hen, Heo, Z.eqb_refl. by rewrite bool_decide_eq_true_2.
    - intros j e' Hj He'. specialize (Hlow j e' Hj He').
      destruct (Z.eqb_spec (pvIpcObject e') obj); [done|]. apply andb_false_r. }
  unfold xIpcNamespaceUnregisterObject. rewrite Hfind.
  unfold registered at 1. cbn [xIpcNamespaces set_slots set_entries].
  rewrite list_lookup_insert_eq by done.
  destruct (Z.eqb_spec obj NULL) as [|_]; [done|]. cbn [xActive].
  destruct (Z.eqb_spec (xActive ns) pdFALSE) as [|_]; [done|]. cbn [orb].
  split; [done|].
  assert (forall e', e' ∈ take uxMaxEntries
            (alter clear_entry ux (<[ux := mkEntry obj ty
               (match name with Some s => prvStrcpy s L | None => EmptyString end)
               (ulNextObjectId ns) (Some uxSlot)]> (xIpcObjectEntries st))) ->
          pvIpcObject e' <> obj) as Hgone.
  { intros e' Hin. apply list_elem_of_lookup in Hin. destruct Hin as [j Hj].
    apply lookup_take_Some in Hj. destruct Hj as [Hj Hjm].
    rewrite list_lookup_alter in Hj. destruct (decide (ux = j)) as [<-|Hne].
    - rewrite list_lookup_insert_eq in Hj by done. simpl in Hj. injection Hj as <-.
      simpl. congruence.
    - rewrite list_lookup_insert_ne in Hj by done. apply Hfresh. unfold registry.
      apply list_elem_of_lookup. exists j. by rewrite lookup_take_lt. }
  split; [exact Hgone|]. split.
  { intros T. unfold xIpcNamespaceCheckAccess.
    destruct (Z.eqb_spec obj NULL) as [|_]; [done|].
    apply check_entries_unregistered. exact Hgone. }
  split.
  { simpl. unfold wrapU. rewrite (Z.mod_small (uxObjectEntryCount st + 1)) by lia.
    rewrite Z.mod_small; lia. }
  unfold xIpcNamespaceGetInfo. simpl.
  rewrite list_lookup_insert_eq by (by rewrite length_insert). simpl.
  destruct (Z.eqb_spec (xActive ns) pdFALSE) as [|_]; [done|].
  do 3 f_equal. unfold wrapU. unfold configMAX_IPC_OBJECTS_PER_NAMESPACE in *.
  rewrite (Z.mod_small (uxObjectCount ns + 1)) by lia. rewrite Z.mod_small; lia.
Qed.

Definition namespace_A : IpcNamespace_t := mkIpcNamespace "A" 2 1 [] 0 pdTRUE.

Lemma unregister_undoes_register_witness :
  let st1 := snd (ulIpcNamespaceRegisterObject 32 16 two_namespaces (Some 1%nat) 700
                    IPC_TYPE_QUEUE (Some "Q"%string)) in
  let '(r, st2) := xIpcNamespaceUnregisterObject 32 st1 (Some 1%nat) 700 in
  r = pdPASS /\
  (forall e, e ∈ registry st2 -> pvIpcObject e <> 700) /\
  (forall T, xIpcNamespaceCheckAccess st2 T 700 = pdTRUE) /\
  uxObjectEntryCount st2 = uxObjectEntryCount two_namespaces /\
  xIpcNamespaceGetInfo st2 (Some 1%nat) = (pdPASS, Some (0, wrapU 32 (1 + 1))).
Proof.
  apply (unregister_undoes_register 32 16 two_namespaces 1%nat namespace_A 0%nat 700
           IPC_TYPE_QUEUE (Some "Q"%string)).
  - reflexivity.
  - vm_compute. congruence.
  - vm_compute. congruence.
  - vm_compute. split; congruence.
  - vm_compute. reflexivity.
  - vm_compute. congruence.
  - vm_compute. reflexivity.
  - reflexivity.
  - apply two_namespaces_fresh. vm_compute. congruence.
Defined.


(** *** Lookup by object id *)

Lemma vListInsert_elem ids l ux : ux ∈ vListInsert ids l ux.
Proof.
  induction l as [|x l IH]; simpl; [by left|].
  destruct (ids x <=? ids ux); [by right|by left].
Qed.

Lemma vListInsert_inv ids l ux j : j ∈ vListInsert ids l ux -> j = ux \/ j ∈ l.
Proof.
  induction l as [|x l IH]; simpl.
  - intros H. apply list_elem_of_singleton in H. by left.
  - destruct (ids x <=? ids ux).
    + intros H. apply elem_of_cons in H. destruct H as [->|H].
      * right. by left.
      * destruct (IH H) as [->|Hin]; [by left|right; by right].
    + intros H. apply elem_of_cons in H. destruct H as [->|H]; [by left|by right].
Qed.

Lemma find_in_list_first entries items ux e id :
  entries !! ux = Some e -> ulObjectId e = id -> ux ∈ items ->
  (forall j e', j ∈ items -> j <> ux -> entries !! j = Some e' -> ulObjectId e' <> id) ->
  find_in_list entries items id = Some e.
Proof.
  intros He Hid. induction items as [|x items IH]; intros Hin Hothers.
  - by apply elem_of_nil in Hin.
  - simpl. destruct (decide (x = ux)) as [->|Hne].
    + rewrite He, Hid, Z.eqb_refl. done.
    + assert (ux ∈ items) as Hin'.
      { apply elem_of_cons in Hin. destruct Hin as [->|Hin]; done. }
      assert (forall j e', j ∈ items -> j <> ux -> entries !! j = Some e' ->
                           ulObjectId e' <> id) as Hothers'.
      { intros j e' Hj. apply Hothers. by right. }
      destruct (entries !! x) as [e'|] eqn:Hx; [|by apply IH].
      destruct (Z.eqb_spec (ulObjectId e') id) as [Heq|_]; [|by apply IH].
      exfalso. apply (Hothers x e'); try done. by left.
Qed.

(** X18.  The id returned by a registration names the object: as long as no
    object that the namespace still lists carries the id about to be handed
    out, [pvIpcNamespaceFindObject] with the returned (non-zero) id gives
    back the registered object and its type. *)
Theorem registered_object_is_found_by_id ubits L st uxSlot ns obj ty name :
  xIpcNamespaces st !! uxSlot = Some ns ->
  (forall j e, j ∈ xObjectList ns -> xIpcObjectEntries st !! j = Some e ->
               ulObjectId e <> ulNextObjectId ns) ->
  let '(id, st') := ulIpcNamespaceRegisterObject ubits L st (Some uxSlot) obj ty name in
  id <> 0 -> pvIpcNamespaceFindObject st' (Some uxSlot) id = (obj, Some ty).
Proof.
  intros Hns Hids.
  destruct (register_cases ubits L st (Some uxSlot) obj ty name)
    as [->|(uxSlot' & ns' & ux & Hh & Hns' & _ & Hact & _ & Hfree & ->)]; [done|].
  injection Hh as <-. rewrite Hns in Hns'. injection Hns' as <-. intros Hid.
  destruct (free_entry_spec st ux Hfree) as (_ & Hlen & _).
  assert (uxSlot < length (xIpcNamespaces st))%nat as Hsl by (by eapply lookup_lt_Some).
  unfold pvIpcNamespaceFindObject, registered. cbv zeta.
  cbn [xIpcNamespaces set_slots set_entries].
  rewrite (list_lookup_insert_eq (xIpcNamespaces st) uxSlot) by done. cbn [xActive xObjectList xIpcObjectEntries].
  destruct (Z.eqb_spec (xActive ns) pdFALSE) as [|_]; [done|].
  destruct (Z.eqb_spec (ulNextObjectId ns) 0) as [|_]; [done|]. cbn [orb].
  rewrite (find_in_list_first _ _ ux
             (mkEntry obj ty (match name with Some s => prvStrcpy s L | None => EmptyString end)
                (ulNextObjectId ns) (Some uxSlot))); try done.
  - simpl. by rewrite list_lookup_insert_eq.
  - apply vListInsert_elem.
  - intros j e' Hj Hne. simpl. rewrite list_lookup_insert_ne by done.
    apply vListInsert_inv in Hj. destruct Hj as [|Hj]; [done|]. by apply Hids.
Qed.

Lemma registered_object_is_found_by_id_witness :
  let '(id, st') := ulIpcNamespaceRegisterObject 32 16 two_namespaces (Some 1%nat) 700
                      IPC_TYPE_MUTEX (Some "M"%string) in
  id <> 0 -> pvIpcNamespaceFindObject st' (Some 1%nat) id = (700, Some IPC_TYPE_MUTEX).
Proof.
  apply (registered_object_is_found_by_id 32 16 two_namespaces 1%nat namespace_A 700
           IPC_TYPE_MUTEX (Some "M"%string)).
  - reflexivity.
  - intros j e Hj. vm_compute in Hj. by apply elem_of_nil in Hj.
Defined.

(** *** The root namespace *)

(** The calls that change the state of ipc_namespace.c, and a context switch. *)
Inductive op :=
| OpCreate (pcNamespaceName : option string)
| OpDelete (xNamespace : IpcNamespaceHandle_t)
| OpRegister (xNamespace : IpcNamespaceHandle_t) (pvObj : Z) (xType : IpcObjectType_t)
    (pcName : option string)
| OpUnregister (xNamespace : IpcNamespaceHandle_t) (pvObj : Z)
| OpSetTaskNamespace (xTask : TaskHandle_t) (xNamespace : IpcNamespaceHandle_t)
| OpQueueCreateIsolated (xQueue : Z) (pcName : option string)
| OpSemaphoreCreateBinaryIsolated (xSemaphore : Z) (pcName : option string)
| OpSemaphoreCreateMutexIsolated (xMutex : Z) (pcName : option string)
| OpTaskDelete (xTask : TaskHandle_t)
| OpSwitch (xTask : TaskHandle_t).

Definition switch_to (st : state) (xTask : TaskHandle_t) : state :=
  mkState (xIpcNamespaces st) (uxNamespaceBitmap st) (xIpcObjectEntries st)
    (uxObjectEntryCount st) (xRootNamespace st) (ulNextNamespaceId st)
    (xTaskIpcNamespace st) xTask.

Definition run_op (ubits : Z) (L : nat) (st : state) (o : op) : state :=
  match o with
  | OpCreate name => snd (xIpcNamespaceCreate ubits st name)
  | OpDelete h => snd (xIpcNamespaceDelete st h)
  | OpRegister h obj ty name => snd (ulIpcNamespaceRegisterObject ubits L st h obj ty name)
  | OpUnregister h obj => snd (xIpcNamespaceUnregisterObject ubits st h obj)
  | OpSetTaskNamespace t h => snd (prvIpcNamespaceSetTaskNamespace st t h)
  | OpQueueCreateIsolated q name => snd (xQueueCreateIsolated ubits L st q name)
  | OpSemaphoreCreateBinaryIsolated q name =>
      snd (xSemaphoreCreateBinaryIsolated ubits L st q name)
  | OpSemaphoreCreateMutexIsolated q name =>
      snd (xSemaphoreCreateMutexIsolated ubits L st q name)
  | OpTaskDelete t => prvIpcNamespaceTaskDelete st t
  | OpSwitch t => switch_to st t
  end.

Record root_ok (st : state) : Prop := {
  ro_root : xRootNamespace st = Some 0%nat;
  ro_bit : Z.testbit (uxNamespaceBitmap st) 0 = true;
  ro_active : exists ns, xIpcNamespaces st !! 0%nat = Some ns /\ xActive ns <> pdFALSE }.

Lemma root_ok_insert (st : state) uxSlot ns :
  root_ok st -> (uxSlot = 0%nat -> xActive ns <> pdFALSE) ->
  exists ns', <[uxSlot := ns]> (xIpcNamespaces st) !! 0%nat = Some ns'
              /\ xActive ns' <> pdFALSE.
Proof.
  intros [_ _ (ns0 & Hns0 & Hact0)] Hact.
  destruct (decide (uxSlot = 0%nat)) as [->|Hne].
  - exists ns. rewrite list_lookup_insert_eq by (by eapply lookup_lt_Some). auto.
  - exists ns0. by rewrite list_lookup_insert_ne.
Qed.

Lemma register_root_ok ubits L st h obj ty name :
  root_ok st -> root_ok (snd (ulIpcNamespaceRegisterObject ubits L st h obj ty name)).
Proof.
  intros Hok.
  destruct (register_cases ubits L st h obj ty name)
    as [->|(uxSlot & ns & ux & _ & _ & _ & Hact & _ & _ & ->)]; [done|].
  destruct Hok as [Hroot Hbit Hactive]. split; try done.
  apply (root_ok_insert st); [by split|done].
Qed.

Lemma create_isolated_root_ok ubits L st obj ty name :
  root_ok st -> root_ok (snd (create_isolated ubits L st obj ty name)).
Proof.
  intros Hok. rewrite create_isolated_eq. destruct (obj =? NULL); [done|].
  pose proof (register_root_ok ubits L st (task_namespace st NULL) obj ty name Hok) as H.
  destruct (ulIpcNamespaceRegisterObject ubits L st (task_namespace st NULL) obj ty name)
    as [id st1]. by destruct (id =? 0).
Qed.

Lemma run_op_root_ok ubits L st o : root_ok st -> root_ok (run_op ubits L st o).
Proof.
  intros Hok. destruct o as [name|h|h obj ty name|h obj|t h|q name|q name|q name|t|t]; simpl.
  - unfold xIpcNamespaceCreate. destruct name as [name|]; [|done].
    destruct (String.length name =? 0)%nat; [done|].
    destruct (prvFindFreeNamespaceSlot st) as [uxSlot|] eqn:Hfree; [|done].
    apply ContainerFacts.ipcns_find_free in Hfree. destruct Hfree as [Hclear _].
    destruct Hok as [Hroot Hbit (ns0 & Hns0 & Hact0)].
    assert (uxSlot <> 0%nat) as Hne by (intros ->; change (Z.of_nat 0) with 0 in Hclear; congruence).
    split.
    + done.
    + change (Z.testbit (Z.lor (uxNamespaceBitmap st) (bit uxSlot)) 0 = true).
      rewrite Z.lor_spec, Hbit. done.
    + exists ns0. simpl. by rewrite list_lookup_insert_ne.
  - unfold xIpcNamespaceDelete. destruct h as [uxSlot|]; [|done].
    destruct (xIpcNamespaces st !! uxSlot) as [ns|] eqn:Hns; [|done].
    destruct (xActive ns =? pdFALSE); [done|].
    case_bool_decide as Hne; [done|].
    destruct (uxObjectCount ns >? 0); [done|].
    destruct Hok as [Hroot Hbit (ns0 & Hns0 & Hact0)].
    assert (uxSlot <> 0%nat) as Hne' by (intros ->; by rewrite Hroot in Hne).
    split; [done| |exists ns0; simpl; by rewrite list_lookup_insert_ne].
    + change (Z.testbit (Z.land (uxNamespaceBitmap st) (Z.lnot (bit uxSlot))) 0 = true).
      rewrite Z.land_spec, Hbit, Z.lnot_spec by lia. unfold bit.
      rewrite Z.shiftl_1_l, Z.pow2_bits_eqb by lia.
      destruct (Z.eqb_spec (Z.of_nat uxSlot) 0); [lia|done].
  - by apply register_root_ok.
  - unfold xIpcNamespaceUnregisterObject. destruct h as [uxSlot|]; [|done].
    destruct (xIpcNamespaces st !! uxSlot) as [ns|] eqn:Hns; [|done].
    destruct (Z.eqb_spec obj NULL) as [|_]; [done|].
    destruct (Z.eqb_spec (xActive ns) pdFALSE) as [|Hact]; [done|]. cbn [orb].
    destruct (prvFindObjectEntry st (Some uxSlot) obj); [|done].
    pose proof Hok as [Hroot Hbit Hactive]. split; try done. simpl.
    apply (root_ok_insert st); [done|done].
  - by destruct Hok.
  - by apply create_isolated_root_ok.
  - by apply create_isolated_root_ok.
  - by apply create_isolated_root_ok.
  - done.
  - by destruct Hok.
Qed.

Lemma init_root_ok ubits tcbs cur : root_ok (vIpcNamespaceInit ubits (boot_state tcbs cur)).
Proof. split; [done|done|]. eexists. split; [reflexivity|done]. Qed.

(** X19.  After [vIpcNamespaceInit] the root IPC namespace is there for good:
    whatever calls follow, [xIpcNamespaceGetRoot] stays the namespace created
    at initialisation, that namespace stays active, and
    [xIpcNamespaceDelete] refuses it without changing anything. *)
Theorem ipc_root_namespace_is_permanent ubits L tcbs cur ops :
  let st0 := vIpcNamespaceInit ubits (boot_state tcbs cur) in
  let st := fold_left (run_op ubits L) ops st0 in
  xIpcNamespaceGetRoot st = xIpcNamespaceGetRoot st0 /\
  xIpcNamespaceGetRoot st <> None /\
  fst (xIpcNamespaceGetInfo st (xIpcNamespaceGetRoot st)) = pdPASS /\
  xIpcNamespaceDelete st (xIpcNamespaceGetRoot st) = (pdFAIL, st).
Proof.
  intros st0 st.
  assert (root_ok st) as [Hroot Hbit (ns & Hns & Hact)].
  { subst st. generalize (init_root_ok ubits tcbs cur). fold st0. generalize st0.
    induction ops as [|o ops IH]; intros s Hs; simpl; [done|].
    apply IH. by apply run_op_root_ok. }
  unfold xIpcNamespaceGetRoot. rewrite Hroot. split; [done|]. split; [done|].
  unfold xIpcNamespaceGetInfo, xIpcNamespaceDelete. rewrite Hns.
  destruct (Z.eqb_spec (xActive ns) pdFALSE) as [|_]; [done|]. split; [done|].
  by rewrite Hroot, bool_decide_eq_true_2.
Qed.

End IpcNsLaws.

(** ** Laws of the container manager *)

Module ContainerLaws.
Import Container ContainerFacts.

(** *** Lookup *)

Lemma count_from_length l k :
  0 <= k < 2 ^ 32 -> count_from l k = (k + Z.of_nat (length l)) mod 2 ^ 32.
Proof.
  revert k. induction l as [|x l IH]; intros k Hk; simpl count_from.
  - simpl length. rewrite Z.add_0_r, Z.mod_small; lia.
  - rewrite IH by (apply Z.mod_pos_bound; lia).
    rewrite Zplus_mod_idemp_l. f_equal. simpl length. lia.
Qed.

Lemma get_by_id_insert_other h l id p c :
  p ∉ l -> get_by_id (<[p := c]> h) l id = get_by_id h l id.
Proof.
  induction l as [|q l IH]; intros Hp; simpl; [done|].
  apply not_elem_of_cons in Hp. destruct Hp as [Hne Hp].
  rewrite lookup_insert_ne by done. destruct (h !! q) as [c'|]; [|done].
  destruct (ulContainerID c' =? id); [done|]. by apply IH.
Qed.

(** X20.  For an ELF name that fits the 64-byte field of the struct,
    [xContainerCreate] returns [pdPASS] and the container it created is
    there: [pxContainerGetByID] finds it under the id that was next,
    stopped, named with the first 31 characters of the name given, with the
    ELF name given and with the default limits of 8192 bytes and 100
    percent; the lookups of all other ids answer as before, and
    [ulContainerGetCount] has grown by one. *)
Theorem created_container_is_found ubits W st name elf stack prio p :
  (String.length elf < 64)%nat ->
  p ∉ pxContainerList st ->
  exists st',
    xContainerCreate ubits W st (Some name) (Some elf) stack prio (Some p) true
      = Some (pdPASS, st') /\
    pxContainerGetByID st' (ulNextContainerID st) = Some p /\
    (exists c, heap st' !! p = Some c /\
       ulContainerID c = ulNextContainerID st /\
       pcContainerName c = substring 0 31 name /\
       elfName c = elf /\
       eState c = CONTAINER_STATE_STOPPED /\
       ulMemoryLimit c = 8192 /\ ulCpuQuota c = 100) /\
    (forall id, id <> ulNextContainerID st ->
       pxContainerGetByID st' id = pxContainerGetByID st id) /\
    ulContainerGetCount st' = (ulContainerGetCount st + 1) mod 2 ^ 32.
Proof.
  intros Helf Hp. unfold xContainerCreate, xContainerCreateWithLimits, strcpy_elfName.
  apply Nat.ltb_lt in Helf. rewrite Helf.
  change (0 >? 0) with false. cbv iota.
  destruct (CGroup.xCGroupCreate _ _ _ _ _ _) as [hcg cg1].
  destruct (PidNs.xPidNamespaceCreate _ _ _) as [hpid pid1].
  destruct (IpcNs.xIpcNamespaceCreate _ _ _) as [hipc ipc1].
  eexists. split; [reflexivity|]. unfold pxContainerGetByID, ulContainerGetCount. simpl.
  rewrite lookup_insert_eq. simpl. rewrite Z.eqb_refl.
  split; [done|]. split; [by eexists|]. split.
  - intros id Hid. destruct (Z.eqb_spec (ulNextContainerID st) id) as [|_]; [congruence|].
    by apply get_by_id_insert_other.
  - rewrite (count_from_length _ 0) by lia.
    rewrite count_from_length by (apply Z.mod_pos_bound; lia).
    rewrite !Zplus_mod_idemp_l. f_equal. lia.
Qed.

Lemma created_container_is_found_witness :
  exists st',
    xContainerCreate 32 1000 booted (Some "web"%string) (Some "app.elf"%string) 2048 2
      (Some 20480) true = Some (pdPASS, st') /\
    pxContainerGetByID st' (ulNextContainerID booted) = Some 20480 /\
    (exists c, heap st' !! 20480 = Some c /\
       ulContainerID c = ulNextContainerID booted /\
       pcContainerName c = substring 0 31 "web" /\
       elfName c = "app.elf"%string /\
       eState c = CONTAINER_STATE_STOPPED /\
       ulMemoryLimit c = 8192 /\ ulCpuQuota c = 100) /\
    (forall id, id <> ulNextContainerID booted ->
       pxContainerGetByID st' id = pxContainerGetByID booted id) /\
    ulContainerGetCount st' = (ulContainerGetCount booted + 1) mod 2 ^ 32.
Proof.
  apply (created_container_is_found 32 1000 booted "web" "app.elf" 2048 2 20480).
  - simpl. lia.
  - vm_compute. apply not_elem_of_nil.
Defined.

Lemma strncmp_eq_prefix s a : strncmp_eq a s (String.length s) = String.prefix s a.
Proof.
  revert a. induction s as [|c r IH]; intros a; [by destruct a|].
  destruct a as [|c1 r1]; [reflexivity|].
  change (Ascii.eqb c1 c && strncmp_eq r1 r (String.length r)
          = if ascii_dec c c1 then String.prefix r r1 else false).
  rewrite IH.
  destruct (ascii_dec c c1) as [->|Hne].
  - by rewrite Ascii.eqb_refl.
  - destruct (Ascii.eqb_spec c1 c); [congruence|done].
Qed.

(** X21.  [pxContainerGetByName] matches names by prefix: in a list whose
    nodes are all allocated it finds a container exactly when some listed
    container has a name that starts with the name asked for, and the
    container it returns is such a one. *)
Theorem get_by_name_matches_prefixes st name :
  (forall q, q ∈ pxContainerList st -> is_Some (heap st !! q)) ->
  (forall p, pxContainerGetByName st (Some name) = Some p ->
     p ∈ pxContainerList st /\
     exists c, heap st !! p = Some c /\ String.prefix name (pcContainerName c) = true) /\
  ((exists q c, q ∈ pxContainerList st /\ heap st !! q = Some c /\
                String.prefix name (pcContainerName c) = true) ->
   is_Some (pxContainerGetByName st (Some name))).
Proof.
  unfold pxContainerGetByName. generalize (pxContainerList st) as l.
  induction l as [|q l IH]; intros Hall.
  - split; [done|]. intros (q & c & Hq & _). by apply elem_of_nil in Hq.
  - simpl. destruct (Hall q) as [c Hc]; [by left|]. rewrite Hc, strncmp_eq_prefix.
    destruct IH as [IH1 IH2]; [intros q' Hq'; apply Hall; by right|].
    destruct (String.prefix name (pcContainerName c)) eqn:Hpre.
    + split; [|by eexists]. intros p [= <-]. split; [by left|]. by exists c.
    + split.
      * intros p Hp. destruct (IH1 p Hp) as [Hin Hex]. split; [by right|done].
      * intros (q' & c' & Hq' & Hc' & Hpre'). apply IH2.
        apply elem_of_cons in Hq'. destruct Hq' as [->|Hq']; [congruence|].
        by exists q', c'.
Qed.

(** The state a call leaves when it returns; the state before it when it
    does not. *)
Definition state_after (st : state) (r : option (BaseType_t * state)) : state :=
  match r with
  | Some (_, st') => st'
  | None => st
  end.

(** Two containers, "webshop" created before "db". *)
Definition with_webshop : state :=
  state_after booted
    (xContainerCreate 32 1000 booted (Some "webshop"%string) (Some "shop.elf"%string) 2048 2
       (Some 20480) true).

Definition two_containers : state :=
  state_after with_webshop
    (xContainerCreate 32 1000 with_webshop (Some "db"%string) (Some "db.elf"%string) 2048 2
       (Some 24576) true).

Lemma two_containers_created :
  xContainerCreate 32 1000 booted (Some "webshop"%string) (Some "shop.elf"%string) 2048 2
    (Some 20480) true = Some (pdPASS, with_webshop) /\
  xContainerCreate 32 1000 with_webshop (Some "db"%string) (Some "db.elf"%string) 2048 2
    (Some 24576) true = Some (pdPASS, two_containers).
Proof. split; vm_compute; reflexivity. Qed.

Lemma get_by_name_matches_prefixes_witness :
  (forall p, pxContainerGetByName two_containers (Some "web"%string) = Some p ->
     p ∈ pxContainerList two_containers /\
     exists c, heap two_containers !! p = Some c /\
               String.prefix "web" (pcContainerName c) = true) /\
  ((exists q c, q ∈ pxContainerList two_containers /\ heap two_containers !! q = Some c /\
                String.prefix "web" (pcContainerName c) = true) ->
   is_Some (pxContainerGetByName two_containers (Some "web"%string))).
Proof.
  apply (get_by_name_matches_prefixes two_containers "web").
  intros q Hq.
  assert (Forall (fun q => is_Some (heap two_containers !! q)) (pxContainerList two_containers))
    as Hall by (vm_compute; repeat constructor; by eexists).
  rewrite Forall_forall in Hall. by apply Hall.
Defined.

(** *** Create, then delete *)

(** X22.  Deleting a container right after it was created, with an ELF
    name that fits the 64-byte field of the struct, releases all it took:
    [xContainerCreate] returns [pdPASS], then [xContainerDelete] succeeds,
    the list is as before, the struct is freed, and the cgroup and the two
    namespaces made for the container are deleted, their allocation bits
    cleared.  Only the id stays used up. *)
Theorem delete_releases_created_container ubits W st name elf stack prio p xTakenStop :
  (String.length elf < 64)%nat ->
  length (CGroup.xCGroups (cgroups st)) = CGroup.configMAX_CGROUPS ->
  length (PidNs.xPidNamespaces (pidns st)) = PidNs.configMAX_PID_NAMESPACES ->
  length (IpcNs.xIpcNamespaces (ipcns st)) = IpcNs.configMAX_IPC_NAMESPACES ->
  (forall r, IpcNs.xRootNamespace (ipcns st) = Some r ->
             Z.testbit (IpcNs.uxNamespaceBitmap (ipcns st)) (Z.of_nat r) = true) ->
  let hcg := fst (CGroup.xCGroupCreate ubits W (cgroups st) (substring 0 31 name) 8192 100) in
  let hpid := fst (PidNs.xPidNamespaceCreate ubits (pidns st) (Some (substring 0 31 name))) in
  let hipc := fst (IpcNs.xIpcNamespaceCreate ubits (ipcns st) (Some (substring 0 31 name))) in
  exists st1 st2,
    xContainerCreate ubits W st (Some name) (Some elf) stack prio (Some p) true
      = Some (pdPASS, st1) /\
    xContainerDelete st1 (ulNextContainerID st) true xTakenStop = (pdPASS, st2) /\
    pxContainerList st2 = pxContainerList st /\
    heap st2 = delete p (heap st) /\
    cgroup_released (cgroups st) (cgroups st2) hcg /\
    pidns_released (pidns st) (pidns st2) hpid /\
    ipcns_released (ipcns st) (ipcns st2) hipc /\
    ulNextContainerID st2 = (ulNextContainerID st + 1) mod 2 ^ 32.
Proof.
  intros Helf Hcg Hpid Hipc Hroot hcg hpid hipc.
  pose proof (cgroup_create_delete ubits W (cgroups st) (substring 0 31 name)
                8192 100 Hcg) as H1.
  pose proof (pidns_create_delete ubits (pidns st) (Some (substring 0 31 name)) Hpid) as H2.
  pose proof (ipcns_create_delete ubits (ipcns st) (Some (substring 0 31 name)) Hipc Hroot)
    as H3.
  unfold xContainerCreate, xContainerCreateWithLimits, strcpy_elfName. subst hcg hpid hipc.
  apply Nat.ltb_lt in Helf. rewrite Helf.
  change (0 >? 0) with false. cbv iota.
  destruct (CGroup.xCGroupCreate _ _ _ _ _ _) as [hcg cg1].
  destruct (PidNs.xPidNamespaceCreate _ _ _) as [hpid pid1].
  destruct (IpcNs.xIpcNamespaceCreate _ _ _) as [hipc ipc1].
  eexists. eexists. split; [reflexivity|].
  unfold xContainerDelete. simpl. rewrite lookup_insert_eq. simpl.
  rewrite Z.eqb_refl. rewrite lookup_insert_eq. simpl.
  split; [reflexivity|]. simpl. split; [done|]. split; [apply delete_insert_eq|].
  by split; [|split; [|split]].
Qed.

Lemma delete_releases_created_container_witness :
  let hcg := fst (CGroup.xCGroupCreate 32 1000 (cgroups booted) (substring 0 31 "web")
                    8192 100) in
  let hpid := fst (PidNs.xPidNamespaceCreate 32 (pidns booted)
                     (Some (substring 0 31 "web"))) in
  let hipc := fst (IpcNs.xIpcNamespaceCreate 32 (ipcns booted)
                     (Some (substring 0 31 "web"))) in
  exists st1 st2,
    xContainerCreate 32 1000 booted (Some "web"%string) (Some "app.elf"%string) 2048 2
      (Some 20480) true = Some (pdPASS, st1) /\
    xContainerDelete st1 (ulNextContainerID booted) true true = (pdPASS, st2) /\
    pxContainerList st2 = pxContainerList booted /\
    heap st2 = delete 20480 (heap booted) /\
    cgroup_released (cgroups booted) (cgroups st2) hcg /\
    pidns_released (pidns booted) (pidns st2) hpid /\
    ipcns_released (ipcns booted) (ipcns st2) hipc /\
    ulNextContainerID st2 = (ulNextContainerID booted + 1) mod 2 ^ 32.
Proof.
  apply (delete_releases_created_container 32 1000 booted "web" "app.elf" 2048 2 20480 true).
  - simpl. lia.
  - vm_compute. reflexivity.
  - vm_compute. reflexivity.
  - vm_compute. reflexivity.
  - intros r' Hr. vm_compute in Hr. injection Hr as <-. vm_compute. reflexivity.
Defined.

(** *** Limits *)

(** X23.  A CPU quota above [CGROUP_CPU_QUOTA_MAX] is refused by the
    container's cgroup, and [xContainerSetCpuQuota] returns [pdFAIL] with
    the cgroup untouched; but the container's own record has already taken
    the refused value. *)
Theorem refused_cpu_quota_is_still_recorded ubits st ulID ulQuota p c i :
  pxContainerGetByID st ulID = Some p ->
  heap st !! p = Some c ->
  xCGroup c = Some i ->
  ulQuota > CGroup.CGROUP_CPU_QUOTA_MAX ->
  let '(r, st') := xContainerSetCpuQuota ubits st ulID ulQuota true in
  r = pdFAIL /\
  cgroups st' = cgroups st /\
  (ulCpuQuota <$> heap st' !! p) = Some ulQuota.
Proof.
  intros Hp Hc Hi Hq. unfold xContainerSetCpuQuota. rewrite Hp, Hc, Hi.
  unfold CGroup.xCGroupSetCpuQuota. simpl.
  destruct (CGroup.xCGroups (cgroups st) !! i) as [g|]; simpl.
  - destruct (CGroup.xActive g =? pdFALSE); simpl.
    + by rewrite lookup_insert_eq.
    + destruct (Z.gtb_spec ulQuota CGroup.CGROUP_CPU_QUOTA_MAX); [|lia]. simpl.
      by rewrite lookup_insert_eq.
  - by rewrite lookup_insert_eq.
Qed.

(** A container with a cgroup. *)
Definition one_container : state :=
  state_after booted
    (xContainerCreate 32 1000 booted (Some "web"%string) (Some "app.elf"%string) 2048 2
       (Some 20480) true).

Lemma one_container_created :
  xContainerCreate 32 1000 booted (Some "web"%string) (Some "app.elf"%string) 2048 2
    (Some 20480) true = Some (pdPASS, one_container).
Proof. vm_compute. reflexivity. Qed.

Definition web_container : Container_t :=
  mkContainer 1 "web" CONTAINER_STATE_STOPPED NULL NULL 2048 2 "/var/container/1" "app.elf"
    (Some 0%nat) (Some 1%nat) (Some 1%nat) 8192 100 NULL.

Lemma refused_cpu_quota_is_still_recorded_witness :
  let '(r, st') := xContainerSetCpuQuota 32 one_container 1 5000 true in
  r = pdFAIL /\
  cgroups st' = cgroups one_container /\
  (ulCpuQuota <$> heap st' !! 20480) = Some 5000.
Proof.
  apply (refused_cpu_quota_is_still_recorded 32 one_container 1 5000 20480 web_container
           0%nat).
  - vm_compute. reflexivity.
  - vm_compute. reflexivity.
  - reflexivity.
  - vm_compute. reflexivity.
Defined.

End ContainerLaws.

(** ** Laws of the image codec *)

Module ImageLaws.
Import Lfs Image ImageFacts.

(** *** The record header *)








(** *** Container directories *)

Definition digit_value (c : ascii) : Z := Z.of_nat (nat_of_ascii c) - 48.

(** The number a list of decimal digits stands for, least significant
    digit first. *)
Definition value_of_digits (l : list ascii) : Z :=
  fold_right (fun c acc => digit_value c + 10 * acc) 0 l.

Lemma digits_rev_value fuel v :
  0 <= v < 10 ^ Z.of_nat fuel -> value_of_digits (digits_rev fuel v) = v.
Proof.
  revert v. induction fuel as [|fuel IH]; intros v Hv.
  - simpl in *. lia.
  - rewrite Nat2Z.inj_succ, Z.pow_succ_r in Hv by lia. simpl digits_rev.
    destruct (Z.gtb_spec v 0) as [Hpos|]; [|simpl; lia].
    unfold value_of_digits. simpl fold_right. fold (value_of_digits (digits_rev fuel (v / 10))).
    rewrite IH by (split; [apply Z.div_pos; lia|apply Z.div_lt_upper_bound; lia]).
    unfold digit_value. rewrite nat_ascii_embedding.
    + pose proof (Z.mod_pos_bound v 10). pose proof (Z.div_mod v 10). lia.
    + pose proof (Z.mod_pos_bound v 10). lia.
Qed.

Lemma digits_rev_length fuel v : (length (digits_rev fuel v) <= fuel)%nat.
Proof.
  revert v. induction fuel as [|fuel IH]; intros v; simpl; [done|].
  destruct (v >? 0); simpl; [|lia]. specialize (IH (v / 10)). lia.
Qed.

Lemma uint32_to_string_digits v :
  0 <= v < 2 ^ 32 ->
  value_of_digits (rev (list_ascii_of_string (uint32_to_string v))) = v /\
  (String.length (uint32_to_string v) <= 11)%nat.
Proof.
  intros Hv. unfold uint32_to_string. destruct (Z.eqb_spec v 0) as [->|Hne].
  - split; [done|]. simpl. lia.
  - pose proof (digits_rev_length 11 v) as Hlen.
    rewrite take_ge by (rewrite length_rev; lia).
    rewrite list_ascii_of_string_of_list_ascii, rev_involutive. split.
    + apply digits_rev_value. simpl in *. lia.
    + rewrite length_string_of_list_ascii, length_rev. lia.
Qed.

(** X25.  Containers never share a directory: different container ids (of
    32 bits) have different directories [/var/container/<id>]. *)
Theorem container_directories_are_distinct id1 id2 :
  0 <= id1 < 2 ^ 32 -> 0 <= id2 < 2 ^ 32 ->
  id1 <> id2 -> container_dir id1 <> container_dir id2.
Proof.
  intros H1 H2 Hne Heq. apply Hne.
  rewrite !container_dir_eq in Heq.
  cbv [String.append] in Heq. injection Heq as Heq.
  destruct (uint32_to_string_digits id1 H1) as [<- _].
  destruct (uint32_to_string_digits id2 H2) as [<- _].
  by rewrite Heq.
Qed.

Lemma container_directories_are_distinct_witness : container_dir 1 <> container_dir 10.
Proof. apply (container_directories_are_distinct 1 10); lia. Defined.

(** *** Failed unpacking *)

(** [fs'] is [fs] with at most the directories "/var" and "/var/container"
    added. *)
Definition parents_added (fs fs' : gmap string node) : Prop :=
  forall q, fs' !! q = fs !! q \/
            ((q = "/var"%string \/ q = "/var/container"%string) /\
             fs !! q = None /\ fs' !! q = Some NDir).

Lemma parents_added_refl fs : parents_added fs fs.
Proof. intros q. by left. Qed.

Lemma parents_added_trans fs1 fs2 fs3 :
  parents_added fs1 fs2 -> parents_added fs2 fs3 -> parents_added fs1 fs3.
Proof.
  intros H12 H23 q. destruct (H23 q) as [E|(Hq & Hn & Hs)].
  - rewrite E. apply H12.
  - destruct (H12 q) as [E|(_ & Hn' & Hs')]; [|congruence].
    right. rewrite <- E. done.
Qed.

Lemma parents_added_agree fs fs' q :
  parents_added fs fs' -> q <> "/var"%string -> q <> "/var/container"%string ->
  fs' !! q = fs !! q.
Proof. intros H H1 H2. destruct (H q) as [E|([|] & _)]; done. Qed.

Lemma mkdir_cases fs p :
  mkdir fs p = (LFS_ERR_OK, <[p := NDir]> fs) /\ fs !! p = None /\ p <> "/"%string \/
  snd (mkdir fs p) = fs /\ fst (mkdir fs p) <> LFS_ERR_OK.
Proof.
  unfold mkdir, lookup_node. case_bool_decide as Hp; [by right|].
  destruct (fs !! p) eqn:E; [by right|].
  destruct (if bool_decide (parent_of p = "/"%string) then Some NDir else fs !! parent_of p)
    as [[|]|]; [by right|by left|by right].
Qed.

Lemma ensure_parents_added fs p :
  p = "/var"%string \/ p = "/var/container"%string ->
  parents_added fs (snd (prvEnsureDirectoryExists fs p)).
Proof.
  intros Hp. unfold prvEnsureDirectoryExists, stat.
  destruct (lookup_node fs p) as [n|] eqn:E.
  - change (LFS_ERR_OK =? LFS_ERR_OK) with true. cbv iota.
    destruct (info_of p n) as [[|] ? ?]; apply parents_added_refl.
  - change (LFS_ERR_NOENT =? LFS_ERR_OK) with false.
    change (LFS_ERR_NOENT =? LFS_ERR_NOENT) with true. cbv iota.
    destruct (mkdir_cases fs p) as [(Hm & Hn & _)|[Hm _]].
    + rewrite Hm. change (LFS_ERR_OK =? LFS_ERR_OK) with true. cbv iota. simpl.
      intros q. destruct (decide (q = p)) as [->|Hne].
      * right. by rewrite lookup_insert_eq.
      * left. by rewrite lookup_insert_ne.
    + destruct (mkdir fs p) as [r fs1]. simpl in Hm. subst fs1.
      destruct (r =? LFS_ERR_OK); apply parents_added_refl.
Qed.

Lemma container_dir_prefix id :
  container_dir id = ("/var/container/" ++ substring 0 48 (uint32_to_string id))%string.
Proof. reflexivity. Qed.

Lemma container_dir_not_parent id :
  container_dir id <> "/"%string /\ container_dir id <> "/var"%string /\
  container_dir id <> "/var/container"%string.
Proof. rewrite container_dir_prefix. cbv [String.append]. by repeat split. Qed.

Lemma split_path_length s d b :
  split_path s = Some (d, b) ->
  String.length s = (String.length d + 1 + String.length b)%nat.
Proof.
  revert d. induction s as [|c s IH]; intros d; simpl; [done|].
  destruct (split_path s) as [[d' b']|].
  - intros [= <- <-]. simpl. by rewrite (IH d').
  - destruct (Ascii.eqb c "/"); [|done]. intros [= <- <-]. simpl. lia.
Qed.

Lemma parent_of_neq p : p <> "/"%string -> parent_of p <> p.
Proof.
  intros Hp. unfold parent_of. destruct (split_path p) as [[[|c d] b]|] eqn:E; try congruence.
  apply split_path_length in E. intros Heq. rewrite <- Heq in E. simpl in E. lia.
Qed.

Lemma filter_none {A} (P : A -> Prop) `{!forall x, Decision (P x)} (l : list A) :
  (forall x, x ∈ l -> ~ P x) -> filter P l = [].
Proof.
  induction l as [|x l IH]; intros Hall; [done|].
  rewrite filter_cons_False by (apply Hall; by left).
  apply IH. intros y Hy. apply Hall. by right.
Qed.

Lemma open_rdonly fs path :
  snd (file_open fs path LFS_O_RDONLY) = fs /\
  ((forall data, fs !! path <> Some (NFile data)) ->
   (fst (fst (file_open fs path LFS_O_RDONLY)) <? 0) = true).
Proof.
  unfold file_open, lookup_node. change (has_flag LFS_O_RDONLY LFS_O_WRONLY) with false.
  change (has_flag LFS_O_RDONLY LFS_O_CREAT) with false. cbv iota. simpl andb. cbv iota.
  case_bool_decide as Hp; [done|].
  destruct (fs !! path) as [[data|]|]; [|done|done].
  split; [done|]. intros H. by destruct (H data).
Qed.

(** X26.  Unpacking an image that is not there leaves no trace: when the
    image path names no file and nothing lies in the container's directory,
    [xContainerUnpackImage] fails, and the store is as before except that
    the directories "/var" and "/var/container" may have been created.  In
    particular the container directory it made is removed again. *)
Theorem unpack_without_image_leaves_no_trace xFreeHeap fs path id :
  (forall data, fs !! path <> Some (NFile data)) ->
  (forall p n, fs !! p = Some n -> parent_of p <> container_dir id) ->
  let '(r, fs') := xContainerUnpackImage true xFreeHeap fs (Some path) id in
  r = pdFAIL /\
  forall q, q <> "/var"%string -> q <> "/var/container"%string -> fs' !! q = fs !! q.
Proof.
  intros Hpath Hempty. unfold xContainerUnpackImage. cbv [negb]. cbv iota.
  destruct (container_dir_not_parent id) as (Hd0 & Hd1 & Hd2).
  set (dir := container_dir id) in *.
  pose proof (ensure_parents_added fs "/var" (or_introl eq_refl)) as R1.
  destruct (prvEnsureDirectoryExists fs "/var") as [e1 fs1]. simpl in R1.
  destruct (e1 =? pdPASS); cbv iota;
    [|split; [done|intros q H1 H2; by apply parents_added_agree]].
  pose proof (ensure_parents_added fs1 "/var/container" (or_intror eq_refl)) as R2.
  destruct (prvEnsureDirectoryExists fs1 "/var/container") as [e2 fs2]. simpl in R2.
  pose proof (parents_added_trans _ _ _ R1 R2) as R.
  destruct (e2 =? pdPASS); cbv iota;
    [|split; [done|intros q H1 H2; by apply parents_added_agree]].
  destruct (prvDirectoryExists fs2 dir =? pdTRUE);
    [split; [done|intros q H1 H2; by apply parents_added_agree]|].
  destruct (mkdir_cases fs2 dir) as [(Hm & Hn & _)|[Hm Hr]].
  - rewrite Hm. change (LFS_ERR_OK =? LFS_ERR_OK) with true. cbv iota.
    set (fs3 := <[dir := NDir]> fs2).
    assert (forall data, fs3 !! path <> Some (NFile data)) as Hpath3.
    { intros data. subst fs3. destruct (decide (path = dir)) as [->|Hne].
      - by rewrite lookup_insert_eq.
      - rewrite lookup_insert_ne by done. destruct (R path) as [->|(_ & _ & ->)]; [|done].
        apply Hpath. }
    destruct (open_rdonly fs3 path) as [Hsame Hneg]. specialize (Hneg Hpath3).
    destruct (file_open fs3 path LFS_O_RDONLY) as [[ro image_file] fs4].
    simpl in Hsame, Hneg. subst fs4. rewrite Hneg. split; [done|].
    assert (children fs3 dir = []) as Hnone.
    { unfold children. apply filter_none. intros [k n] Hk. simpl.
      apply elem_of_map_to_list in Hk. subst fs3.
      destruct (decide (k = dir)) as [->|Hne]; [by apply parent_of_neq|].
      rewrite lookup_insert_ne in Hk by done.
      destruct (R k) as [E|([-> | ->] & _)].
      - rewrite E in Hk. by apply (Hempty k n).
      - change (parent_of "/var") with "/"%string. congruence.
      - change (parent_of "/var/container") with "/var"%string. congruence. }
    unfold remove. subst fs3. rewrite lookup_insert_eq, Hnone. simpl.
    intros q H1 H2. rewrite delete_insert_eq.
    destruct (decide (q = dir)) as [->|Hne].
    + rewrite lookup_delete_eq. symmetry. rewrite <- Hn. symmetry.
      by apply parents_added_agree.
    + rewrite lookup_delete_ne by done. by apply parents_added_agree.
  - destruct (mkdir fs2 dir) as [r fs3]. simpl in Hm, Hr. subst fs3.
    destruct (Z.eqb_spec r LFS_ERR_OK) as [|_]; [done|]. cbv [negb]. cbv iota.
    split; [done|intros q H1 H2; by apply parents_added_agree].
Qed.

(** A store with one unrelated file. *)
Definition small_store : gmap string node :=
  {[ "/boot.cfg"%string := NFile [Byte.x41] ]}.

Lemma unpack_without_image_leaves_no_trace_witness :
  let '(r, fs') := xContainerUnpackImage true 65536 small_store (Some "/img/web.img"%string) 7 in
  r = pdFAIL /\
  forall q, q <> "/var"%string -> q <> "/var/container"%string ->
            fs' !! q = small_store !! q.
Proof.
  apply (unpack_without_image_leaves_no_trace 65536 small_store "/img/web.img" 7).
  - intros data. vm_compute. congruence.
  - intros p n Hp. unfold small_store in Hp. apply lookup_singleton_Some in Hp.
    destruct Hp as [<- _]. vm_compute. congruence.
Defined.

(** X27.  Unpacking never touches a container that is already there: when
    the container's directory exists, [xContainerUnpackImage] fails, and the
    store is as before except that the directories "/var" and
    "/var/container" may have been created. *)
Theorem unpack_refuses_existing_container xFreeHeap fs path id :
  fs !! container_dir id = Some NDir ->
  let '(r, fs') := xContainerUnpackImage true xFreeHeap fs (Some path) id in
  r = pdFAIL /\
  forall q, q <> "/var"%string -> q <> "/var/container"%string -> fs' !! q = fs !! q.
Proof.
  intros Hdir. unfold xContainerUnpackImage. cbv [negb]. cbv iota.
  destruct (container_dir_not_parent id) as (Hd0 & Hd1 & Hd2).
  set (dir := container_dir id) in *.
  pose proof (ensure_parents_added fs "/var" (or_introl eq_refl)) as R1.
  destruct (prvEnsureDirectoryExists fs "/var") as [e1 fs1]. simpl in R1.
  destruct (e1 =? pdPASS); cbv iota;
    [|split; [done|intros q H1 H2; by apply parents_added_agree]].
  pose proof (ensure_parents_added fs1 "/var/container" (or_intror eq_refl)) as R2.
  destruct (prvEnsureDirectoryExists fs1 "/var/container") as [e2 fs2]. simpl in R2.
  pose proof (parents_added_trans _ _ _ R1 R2) as R.
  destruct (e2 =? pdPASS); cbv iota;
    [|split; [done|intros q H1 H2; by apply parents_added_agree]].
  assert (prvDirectoryExists fs2 dir = pdTRUE) as ->.
  { unfold prvDirectoryExists, stat, lookup_node. rewrite bool_decide_eq_false_2 by done.
    rewrite (parents_added_agree fs fs2 dir R Hd1 Hd2), Hdir. done. }
  change (pdTRUE =? pdTRUE) with true. cbv iota.
  split; [done|intros q H1 H2; by apply parents_added_agree].
Qed.

Definition store_with_container : gmap string node :=
  {[ "/var"%string := NDir; "/var/container"%string := NDir;
     "/var/container/7"%string := NDir;
     "/var/container/7/app.elf"%string := NFile [Byte.x41] ]}.

Lemma unpack_refuses_existing_container_witness :
  let '(r, fs') := xContainerUnpackImage true 65536 store_with_container
                     (Some "/img/web.img"%string) 7 in
  r = pdFAIL /\
  forall q, q <> "/var"%string -> q <> "/var/container"%string ->
            fs' !! q = store_with_container !! q.
Proof.
  apply (unpack_refuses_existing_container 65536 store_with_container "/img/web.img" 7).
  vm_compute. reflexivity.
Defined.

(** *** Unpacking an image *)


























(** *** Packing an image *)









(** A container directory with one file. *)
Definition elf_bytes : list Byte.byte := [Byte.x7f; Byte.x45; Byte.x4c; Byte.x46].

Definition store_with_one_file : gmap string node :=
  {[ "/var"%string := NDir; "/var/container"%string := NDir;
     "/var/container/7"%string := NDir;
     "/var/container/7/app.elf"%string := NFile elf_bytes ]}.


(** The same end to end: the image packed from container 7 unpacks into
    container 8. *)
Lemma pack_then_unpack_round_trip :
  let fs' := snd (xContainerPackImage true 65536 store_with_one_file 7
                    (Some "/web.img"%string)) in
  fst (xContainerUnpackImage true 65536 fs' (Some "/web.img"%string) 8) = pdPASS /\
  snd (xContainerUnpackImage true 65536 fs' (Some "/web.img"%string) 8)
    !! "/var/container/8/app.elf"%string = Some (NFile elf_bytes).
Proof. vm_compute. split; reflexivity. Qed.

End ImageLaws.

(** ** Laws of the path rewriting *)

Module FileSystemLaws.
Import FileSystem.

Lemma bounded_length_min s n :
  bounded_length s n = Nat.min (String.length s) n.
Proof.
  revert n. induction s as [|c s IH]; intros [|n]; simpl; try done. by rewrite IH.
Qed.

Lemma copy_chars_take s n : copy_chars s n = take n (list_ascii_of_string s).
Proof.
  revert s. induction n as [|n IH]; intros [|c s]; simpl; try done. by rewrite IH.
Qed.

Lemma append_chars_take p n r :
  append_chars p n r = take (Nat.min n r) (list_ascii_of_string p).
Proof.
  revert n r. induction p as [|c p IH]; intros [|n] [|r]; simpl; try done. by rewrite IH.
Qed.

Lemma length_list_ascii_of_string s :
  length (list_ascii_of_string s) = String.length s.
Proof. induction s as [|c s IH]; simpl; [done|]. by rewrite IH. Qed.

Lemma string_of_list_ascii_app l1 l2 :
  string_of_list_ascii (l1 ++ l2)
  = (string_of_list_ascii l1 ++ string_of_list_ascii l2)%string.
Proof.
  induction l1 as [|c l1 IH]; [done|].
  change (String c (string_of_list_ascii (l1 ++ l2))
          = String c (string_of_list_ascii l1 ++ string_of_list_ascii l2)%string).
  by rewrite IH.
Qed.

Lemma list_ascii_of_string_app s1 s2 :
  list_ascii_of_string (s1 ++ s2)%string
  = list_ascii_of_string s1 ++ list_ascii_of_string s2.
Proof.
  induction s1 as [|c s1 IH]; [done|].
  change (c :: list_ascii_of_string (s1 ++ s2)%string
          = c :: (list_ascii_of_string s1 ++ list_ascii_of_string s2)).
  by rewrite IH.
Qed.

Lemma length_removelast {A} (l : list A) : (length (removelast l) <= length l)%nat.
Proof.
  induction l as [|x l IH]; simpl; [done|]. destruct l; simpl in *; lia.
Qed.

(** X29.  Outside the case where the path is handed back as it is, the
    rewritten path fits the buffer it is built in: it has at most
    [max_len - 1] characters, so that the terminating zero is written inside
    the buffer. *)
Theorem full_path_fits_buffer root path max_len full :
  (0 < max_len)%nat ->
  first_is_slash path && is_root root = false ->
  fs_build_full_path root (Some path) max_len = Some full ->
  (String.length full < max_len)%nat.
Proof.
  intros Hmax Hcase. unfold fs_build_full_path. rewrite Hcase. intros [= <-].
  rewrite ImageFacts.length_string_of_list_ascii, length_app.
  rewrite append_chars_take, length_take.
  set (copied := copy_chars root _).
  assert (length copied <= max_len - 1)%nat as Hcopied.
  { subst copied. rewrite copy_chars_take, length_take. lia. }
  assert (length (if last_is_slash copied && first_is_slash path
                  then removelast copied else copied) <= max_len - 1)%nat.
  { pose proof (length_removelast copied).
    destruct (last_is_slash copied && first_is_slash path); lia. }
  lia.
Qed.

Lemma full_path_fits_buffer_witness :
  (String.length "/var/container/1/data/log.txt" < configMAX_PATH_LEN)%nat.
Proof.
  apply (full_path_fits_buffer "/var/container/1" "/data/log.txt" configMAX_PATH_LEN
           "/var/container/1/data/log.txt").
  - unfold configMAX_PATH_LEN. lia.
  - reflexivity.
  - vm_compute. reflexivity.
Defined.

Lemma last_is_slash_snoc l : last_is_slash (l ++ ["/"%char]) = true.
Proof. unfold last_is_slash. by rewrite last_snoc. Qed.

(** X30.  A trailing slash of the task's root path is immaterial: for a
    path that starts with a slash and a result that fits the buffer, the
    root [r/] gives the same full path as the root [r], namely [r] followed
    by the path. *)
Theorem trailing_slash_of_root_is_immaterial r path max_len :
  last_is_slash (list_ascii_of_string r) = false ->
  first_is_slash path = true ->
  (String.length r + 1 + String.length path < max_len)%nat ->
  fs_build_full_path (r ++ "/") (Some path) max_len = Some (r ++ path)%string /\
  fs_build_full_path r (Some path) max_len = Some (r ++ path)%string.
Proof.
  intros Hlast Hfirst Hfits.
  assert (forall root keep,
            is_root root = false ->
            (String.length root + String.length path < max_len)%nat ->
            (if last_is_slash (list_ascii_of_string root) && first_is_slash path
             then removelast (list_ascii_of_string root)
             else list_ascii_of_string root) = list_ascii_of_string keep ->
            fs_build_full_path root (Some path) max_len = Some (keep ++ path)%string)
    as Hbuild.
  { intros root keep Hroot Hlen Hkeep. unfold fs_build_full_path.
    rewrite Hroot, andb_false_r. rewrite !bounded_length_min, copy_chars_take.
    rewrite take_ge by (rewrite length_list_ascii_of_string; lia).
    rewrite Hkeep, append_chars_take.
    assert (length (list_ascii_of_string keep) <= String.length root)%nat as Hk.
    { rewrite <- Hkeep, <- (length_list_ascii_of_string root).
      destruct (last_is_slash (list_ascii_of_string root) && first_is_slash path);
        [apply length_removelast|done]. }
    rewrite take_ge by (rewrite length_list_ascii_of_string; lia).
    rewrite string_of_list_ascii_app, !string_of_list_ascii_of_string. done. }
  split.
  - destruct r as [|c r].
    + change ("" ++ "/")%string with "/"%string. unfold fs_build_full_path.
      rewrite Hfirst. done.
    + apply Hbuild.
      * change (String c r ++ "/")%string with (String c (r ++ "/")%string).
        simpl. destruct r; [|done]. simpl in Hlast. unfold last_is_slash in Hlast.
        simpl in Hlast. by rewrite Hlast.
      * rewrite <- !length_list_ascii_of_string, list_ascii_of_string_app, length_app.
        rewrite !length_list_ascii_of_string. simpl. simpl in Hfits. lia.
      * rewrite list_ascii_of_string_app. change (list_ascii_of_string "/") with ["/"%char].
        rewrite last_is_slash_snoc, Hfirst. cbv [andb]. apply removelast_last.
  - apply Hbuild.
    + by destruct r as [|c [|c' r]].
    + lia.
    + by rewrite Hlast.
Qed.

Lemma trailing_slash_of_root_is_immaterial_witness :
  fs_build_full_path ("/var/container/1" ++ "/") (Some "/data/log.txt"%string)
    configMAX_PATH_LEN = Some ("/var/container/1" ++ "/data/log.txt")%string /\
  fs_build_full_path "/var/container/1" (Some "/data/log.txt"%string)
    configMAX_PATH_LEN = Some ("/var/container/1" ++ "/data/log.txt")%string.
Proof.
  apply (trailing_slash_of_root_is_immaterial "/var/container/1" "/data/log.txt"
           configMAX_PATH_LEN).
  - reflexivity.
  - reflexivity.
  - vm_compute. lia.
Defined.

End FileSystemLaws.
